(** * A shallow embedding of the Poloniex client ([poloniex/poloniex.py])

    The client signs private REST calls with HMAC-SHA512, loads its
    credentials from a file in one of three formats, and reshapes the
    positional arguments of the push feed before handing them to a
    callback.  The definitions below follow the Python source function by
    function; the theorems at the end of the file are stated about them. *)

From Stdlib Require Import ZArith List Bool Lia.
From Stdlib.Strings Require Import String Ascii Byte.
From Stdlib Require Import SpecFloat.
From Stdlib Require DecimalString DecimalPos DecimalZ.
Import ListNotations.

Local Set Warnings "-register-all".

Local Open Scope string_scope.
Local Open Scope list_scope.
Local Open Scope Z_scope.

(** ** Bytes

    A Python [bytes] object is a [list byte]. *)

Definition bytes := list byte.

Definition byte_to_Z (b : byte) : Z := Z.of_N (Byte.to_N b).

Definition byte_of_Z (z : Z) : byte :=
  match Byte.of_N (Z.to_N (z mod 256)) with
  | Some b => b
  | None => x00
  end.

Definition bytes_of_string (s : string) : bytes := list_byte_of_string s.

(** ** hashlib.sha512 (FIPS 180-4), on 64-bit words kept in [Z] *)

Module Sha512.

Definition w64 (z : Z) : Z := z mod 2 ^ 64.

Definition add64 (a b : Z) : Z := w64 (a + b).

Definition rotr (n x : Z) : Z :=
  Z.lor (Z.shiftr x n) (w64 (Z.shiftl x (64 - n))).

Definition shr (n x : Z) : Z := Z.shiftr x n.

Definition Ch (x y z : Z) : Z :=
  Z.lxor (Z.land x y) (Z.land (Z.lxor x (2 ^ 64 - 1)) z).

Definition Maj (x y z : Z) : Z :=
  Z.lxor (Z.lxor (Z.land x y) (Z.land x z)) (Z.land y z).

Definition Sigma0 (x : Z) : Z := Z.lxor (Z.lxor (rotr 28 x) (rotr 34 x)) (rotr 39 x).
Definition Sigma1 (x : Z) : Z := Z.lxor (Z.lxor (rotr 14 x) (rotr 18 x)) (rotr 41 x).
Definition sigma0 (x : Z) : Z := Z.lxor (Z.lxor (rotr 1 x) (rotr 8 x)) (shr 7 x).
Definition sigma1 (x : Z) : Z := Z.lxor (Z.lxor (rotr 19 x) (rotr 61 x)) (shr 6 x).

Definition K : list Z :=
  [ 0x428a2f98d728ae22; 0x7137449123ef65cd; 0xb5c0fbcfec4d3b2f; 0xe9b5dba58189dbbc;
    0x3956c25bf348b538; 0x59f111f1b605d019; 0x923f82a4af194f9b; 0xab1c5ed5da6d8118;
    0xd807aa98a3030242; 0x12835b0145706fbe; 0x243185be4ee4b28c; 0x550c7dc3d5ffb4e2;
    0x72be5d74f27b896f; 0x80deb1fe3b1696b1; 0x9bdc06a725c71235; 0xc19bf174cf692694;
    0xe49b69c19ef14ad2; 0xefbe4786384f25e3; 0x0fc19dc68b8cd5b5; 0x240ca1cc77ac9c65;
    0x2de92c6f592b0275; 0x4a7484aa6ea6e483; 0x5cb0a9dcbd41fbd4; 0x76f988da831153b5;
    0x983e5152ee66dfab; 0xa831c66d2db43210; 0xb00327c898fb213f; 0xbf597fc7beef0ee4;
    0xc6e00bf33da88fc2; 0xd5a79147930aa725; 0x06ca6351e003826f; 0x142929670a0e6e70;
    0x27b70a8546d22ffc; 0x2e1b21385c26c926; 0x4d2c6dfc5ac42aed; 0x53380d139d95b3df;
    0x650a73548baf63de; 0x766a0abb3c77b2a8; 0x81c2c92e47edaee6; 0x92722c851482353b;
    0xa2bfe8a14cf10364; 0xa81a664bbc423001; 0xc24b8b70d0f89791; 0xc76c51a30654be30;
    0xd192e819d6ef5218; 0xd69906245565a910; 0xf40e35855771202a; 0x106aa07032bbd1b8;
    0x19a4c116b8d2d0c8; 0x1e376c085141ab53; 0x2748774cdf8eeb99; 0x34b0bcb5e19b48a8;
    0x391c0cb3c5c95a63; 0x4ed8aa4ae3418acb; 0x5b9cca4f7763e373; 0x682e6ff3d6b2b8a3;
    0x748f82ee5defb2fc; 0x78a5636f43172f60; 0x84c87814a1f0ab72; 0x8cc702081a6439ec;
    0x90befffa23631e28; 0xa4506cebde82bde9; 0xbef9a3f7b2c67915; 0xc67178f2e372532b;
    0xca273eceea26619c; 0xd186b8c721c0c207; 0xeada7dd6cde0eb1e; 0xf57d4f7fee6ed178;
    0x06f067aa72176fba; 0x0a637dc5a2c898a6; 0x113f9804bef90dae; 0x1b710b35131c471b;
    0x28db77f523047d84; 0x32caab7b40c72493; 0x3c9ebe0a15c9bebc; 0x431d67c49c100d4c;
    0x4cc5d4becb3e42b6; 0x597f299cfc657e2a; 0x5fcb6fab3ad6faec; 0x6c44198c4a475817 ].

Definition H0 : list Z :=
  [ 0x6a09e667f3bcc908; 0xbb67ae8584caa73b; 0x3c6ef372fe94f82b; 0xa54ff53a5f1d36f1;
    0x510e527fade682d1; 0x9b05688c2b3e6c1f; 0x1f83d9abfb41bd6b; 0x5be0cd19137e2179 ].

(** Big-endian conversions between byte sequences and numbers. *)
Fixpoint be_to_Z (acc : Z) (bs : list Z) : Z :=
  match bs with
  | [] => acc
  | b :: bs' => be_to_Z (acc * 256 + b) bs'
  end.

Fixpoint Z_to_be (n : nat) (z : Z) : list Z :=
  match n with
  | O => []
  | S n' => (Z.shiftr z (8 * Z.of_nat n')) mod 256 :: Z_to_be n' z
  end.

(** Padding: a 1 bit, zeros up to 112 mod 128 bytes, the bit length on
    16 bytes. *)
Definition pad (msg : list Z) : list Z :=
  let len := Z.of_nat (List.length msg) in
  let zeros := Z.to_nat ((111 - len) mod 128) in
  msg ++ 0x80 :: repeat 0 zeros ++ Z_to_be 16 (8 * len).

(** [chunks n fuel l] cuts [l] into pieces of [n] elements. *)
Fixpoint chunks {A} (n : nat) (fuel : nat) (l : list A) : list (list A) :=
  match fuel with
  | O => []
  | S fuel' =>
      match l with
      | [] => []
      | _ => firstn n l :: chunks n fuel' (skipn n l)
      end
  end.

(** The message schedule, kept newest first: the head is W[t-1]. *)
Fixpoint schedule (n : nat) (w : list Z) : list Z :=
  match n with
  | O => w
  | S n' =>
      let wt := add64 (add64 (add64 (sigma1 (nth 1 w 0)) (nth 6 w 0))
                             (sigma0 (nth 14 w 0))) (nth 15 w 0) in
      schedule n' (wt :: w)
  end.

Definition words_of_block (block : list Z) : list Z :=
  map (be_to_Z 0) (chunks 8 16 block).

Definition state : Type := (Z * Z * Z * Z * Z * Z * Z * Z)%type.

Definition round (s : state) (kw : Z * Z) : state :=
  let '(a, b, c, d, e, f, g, h) := s in
  let '(k, w) := kw in
  let T1 := add64 (add64 (add64 (add64 h (Sigma1 e)) (Ch e f g)) k) w in
  let T2 := add64 (Sigma0 a) (Maj a b c) in
  (add64 T1 T2, a, b, c, add64 d T1, e, f, g).

Definition compress (s : state) (block : list Z) : state :=
  let W := rev (schedule 64 (rev (words_of_block block))) in
  let '(a, b, c, d, e, f, g, h) := fold_left round (combine K W) s in
  let '(a0, b0, c0, d0, e0, f0, g0, h0) := s in
  (add64 a0 a, add64 b0 b, add64 c0 c, add64 d0 d,
   add64 e0 e, add64 f0 f, add64 g0 g, add64 h0 h).

Definition init : state :=
  match H0 with
  | [a; b; c; d; e; f; g; h] => (a, b, c, d, e, f, g, h)
  | _ => (0, 0, 0, 0, 0, 0, 0, 0)
  end.

Definition digest_Z (msg : list Z) : list Z :=
  let padded := pad msg in
  let '(a, b, c, d, e, f, g, h) :=
    fold_left compress (chunks 128 (List.length padded) padded) init in
  flat_map (Z_to_be 8) [a; b; c; d; e; f; g; h].

Definition digest (msg : bytes) : bytes :=
  map byte_of_Z (digest_Z (map byte_to_Z msg)).

Definition block_size : nat := 128.

End Sha512.

(** ** hmac.new(key, msg, hashlib.sha512) (RFC 2104) *)

Module Hmac.

Definition xor_byte (c : Z) (b : byte) : byte :=
  byte_of_Z (Z.lxor c (byte_to_Z b)).

Definition block_key (key : bytes) : bytes :=
  let k := if (Sha512.block_size <? List.length key)%nat then Sha512.digest key else key in
  k ++ repeat x00 (Sha512.block_size - List.length k).

Definition digest (key msg : bytes) : bytes :=
  let k := block_key key in
  let inner := Sha512.digest (map (xor_byte 0x36) k ++ msg) in
  Sha512.digest (map (xor_byte 0x5c) k ++ inner).

Definition hex_digit (z : Z) : ascii :=
  ascii_of_nat (Z.to_nat (if z <? 10 then 48 + z else 87 + z)).

Fixpoint hex (bs : bytes) : string :=
  match bs with
  | [] => EmptyString
  | b :: bs' =>
      String (hex_digit (byte_to_Z b / 16))
        (String (hex_digit (byte_to_Z b mod 16)) (hex bs'))
  end.

(** [hmac.new(key, msg, hashlib.sha512).hexdigest()] *)
Definition hexdigest (key msg : bytes) : string := hex (digest key msg).

End Hmac.

(** ** Python values

    A Python [str] is a [string]; each character stands for the code point
    of the same number (0 to 255).  *)

(** Exceptions, by class; [Exception] carries its message as the source
    raises it with one. *)
Inductive exn : Type :=
| Exception (msg : string)
| AttributeError
| IndexError
| TypeError
| ValueError
| OverflowError
| InvalidOperation.

Inductive result (A : Type) : Type :=
| Ok (a : A)
| Raised (e : exn).
Arguments Ok {A} a.
Arguments Raised {A} e.

Definition code (c : ascii) : Z := Z.of_nat (nat_of_ascii c).
Definition chr (z : Z) : ascii := ascii_of_nat (Z.to_nat z).

Definition is_digit (c : ascii) : bool := (48 <=? code c) && (code c <=? 57).

Definition digit_val (c : ascii) : Z := code c - 48.

(** [str.isspace] on one character. *)
Definition is_space (c : ascii) : bool :=
  let n := code c in
  ((9 <=? n) && (n <=? 13)) || ((28 <=? n) && (n <=? 32))
  || (n =? 133) || (n =? 160).

(** [bytes.isspace] on one byte: ASCII white space only. *)
Definition is_space_byte (b : byte) : bool :=
  let n := byte_to_Z b in
  ((9 <=? n) && (n <=? 13)) || (n =? 32).

Fixpoint lstrip (s : string) : string :=
  match s with
  | String c s' => if is_space c then lstrip s' else s
  | EmptyString => EmptyString
  end.

Fixpoint rstrip (s : string) : string :=
  match s with
  | String c s' =>
      match rstrip s' with
      | EmptyString => if is_space c then EmptyString else String c EmptyString
      | r => String c r
      end
  | EmptyString => EmptyString
  end.

(** [s.strip()] *)
Definition strip (s : string) : string := rstrip (lstrip s).

Fixpoint lstrip_bytes (b : bytes) : bytes :=
  match b with
  | c :: b' => if is_space_byte c then lstrip_bytes b' else b
  | [] => []
  end.

(** [b.strip()] on a [bytes] object. *)
Definition strip_bytes (b : bytes) : bytes :=
  rev (lstrip_bytes (rev (lstrip_bytes b))).

(** [s.encode('utf8')] *)
Definition utf8_char (c : ascii) : bytes :=
  let n := code c in
  if n <? 128 then [byte_of_Z n]
  else [byte_of_Z (192 + n / 64); byte_of_Z (128 + n mod 64)].

Fixpoint encode_utf8 (s : string) : bytes :=
  match s with
  | EmptyString => []
  | String c s' => utf8_char c ++ encode_utf8 s'
  end.

(** [str(n)] for an [int]. *)
Definition str_of_int (n : Z) : string :=
  DecimalString.NilZero.string_of_int (Z.to_int n).

(** ** Dictionaries

    A [dict] keeps its items in insertion order, which [urlencode] and the
    signature depend on: assigning to a key that is present replaces the
    value in place, assigning to a new key appends the item. *)

Definition dict (V : Type) : Type := list (string * V).

Fixpoint dict_get {V} (k : string) (d : dict V) : option V :=
  match d with
  | [] => None
  | (k', v) :: d' => if String.eqb k k' then Some v else dict_get k d'
  end.

(** [d[k] = v] *)
Fixpoint dict_set {V} (k : string) (v : V) (d : dict V) : dict V :=
  match d with
  | [] => [(k, v)]
  | (k', v') :: d' =>
      if String.eqb k k' then (k', v) :: d' else (k', v') :: dict_set k v d'
  end.

(** A dict display [{k1: v1, k2: v2, ...}], built left to right. *)
Definition dict_of_items {V} (items : list (string * V)) : dict V :=
  fold_left (fun d kv => dict_set (fst kv) (snd kv) d) items [].

Definition keys {V} (d : dict V) : list string := map fst d.

(** ** urllib.parse.urlencode

    The values of a request parameter mapping are strings and integers. *)

Inductive pval : Type :=
| PStr (s : string)
| PInt (n : Z).

Definition pval_str (v : pval) : string :=
  match v with
  | PStr s => s
  | PInt n => str_of_int n
  end.

(** The bytes [quote] never escapes: letters, digits and [_.-~]. *)
Definition always_safe (n : Z) : bool :=
  ((65 <=? n) && (n <=? 90)) || ((97 <=? n) && (n <=? 122))
  || ((48 <=? n) && (n <=? 57))
  || (n =? 95) || (n =? 46) || (n =? 45) || (n =? 126).

Definition upper_hex_digit (z : Z) : ascii :=
  chr (if z <? 10 then 48 + z else 55 + z).

Definition quote_byte (b : byte) : string :=
  let n := byte_to_Z b in
  if always_safe n then String (chr n) EmptyString
  else if n =? 32 then "+"
  else String "%" (String (upper_hex_digit (n / 16))
                     (String (upper_hex_digit (n mod 16)) EmptyString)).

(** [quote_plus(s)] with the default [safe=''], UTF-8 encoding. *)
Definition quote_plus (s : string) : string :=
  String.concat "" (map quote_byte (encode_utf8 s)).

Definition urlencode_item (kv : string * pval) : string :=
  (quote_plus (fst kv) ++ "=" ++ quote_plus (pval_str (snd kv)))%string.

(** [urllib.parse.urlencode(params)] *)
Definition urlencode (params : dict pval) : string :=
  String.concat "&" (map urlencode_item params).

(** ** Floating point: [float] is IEEE 754 binary64 *)

Definition prec : Z := 53.
Definition emax : Z := 1024.

Definition float : Type := spec_float.

(** [float(n)] for an [int]. *)
Definition float_of_int (n : Z) : float := binary_normalize prec emax n 0 false.

(** [x * n] with [x] a float and [n] an int. *)
Definition float_mul_int (x : float) (n : Z) : float :=
  SFmul prec emax x (float_of_int n).

(** [int(x)]: truncation towards zero; raises on NaN and infinities. *)
Definition int_of_float (x : float) : result Z :=
  match x with
  | S754_zero _ => Ok 0
  | S754_finite s m e =>
      let a := if 0 <=? e then Z.pos m * 2 ^ e else Z.pos m / 2 ^ (- e) in
      Ok (if s then - a else a)
  | S754_infinity _ => Raised OverflowError
  | S754_nan => Raised ValueError
  end.

(** [x == n] for a float [x] and an int [n]: Python compares the exact
    values. *)
Definition float_eq_int (x : float) (n : Z) : bool :=
  match x with
  | S754_zero _ => n =? 0
  | S754_finite s m e =>
      let v := if s then - Z.pos m else Z.pos m in
      if 0 <=? e then v * 2 ^ e =? n else v =? n * 2 ^ (- e)
  | _ => false
  end.

(** ** Values decoded from the feed and from configuration files

    What a JSON document decodes to: [None], booleans, integers, floats,
    strings, lists and dictionaries with string keys. *)

Inductive json : Type :=
| JNull
| JBool (b : bool)
| JInt (n : Z)
| JFloat (x : float)
| JStr (s : string)
| JList (l : list json)
| JDict (d : list (string * json)).

(** [v.get(k)]: only a dictionary has the method; a key that is absent
    gives [None]. *)
Definition py_get (v : json) (k : string) : result json :=
  match v with
  | JDict d => Ok (match dict_get k d with Some x => x | None => JNull end)
  | _ => Raised AttributeError
  end.

(** [v == s] for a string literal [s]. *)
Definition eq_str (v : json) (s : string) : bool :=
  match v with
  | JStr s' => String.eqb s' s
  | _ => false
  end.

(** [v == n] for an integer literal [n]; [True] and [False] are the
    integers 1 and 0. *)
Definition eq_int (v : json) (n : Z) : bool :=
  match v with
  | JInt m => m =? n
  | JBool b => (if b then 1 else 0) =? n
  | JFloat x => float_eq_int x n
  | _ => false
  end.

(** ** decimal.Decimal

    A decimal is a sign, a coefficient and an exponent, or an infinity, or
    a NaN (quiet or signalling) with its diagnostic digits.  The limits
    that the C implementation puts on exponents (about 10^18 on 64-bit
    builds) are not part of the model. *)

Inductive decimal : Type :=
| DFinite (sign : bool) (coeff : N) (exp : Z)
| DInfinity (sign : bool)
| DNaN (sign : bool) (signaling : bool) (diag : N).

Fixpoint remove_char (x : ascii) (s : string) : string :=
  match s with
  | EmptyString => EmptyString
  | String c s' =>
      if Ascii.eqb c x then remove_char x s' else String c (remove_char x s')
  end.

(** Reads the longest run of digits at the head of [s], continuing the
    number [acc]; returns the number, how many digits were read, and the
    rest. *)
Fixpoint take_digits (s : string) (acc : N) (n : nat) : N * nat * string :=
  match s with
  | String c s' =>
      if is_digit c
      then take_digits s' (acc * 10 + Z.to_N (digit_val c))%N (S n)
      else (acc, n, s)
  | EmptyString => (acc, n, s)
  end.

Definition lower (c : ascii) : ascii :=
  if (65 <=? code c) && (code c <=? 90) then chr (code c + 32) else c.

Fixpoint lower_str (s : string) : string :=
  match s with
  | EmptyString => EmptyString
  | String c s' => String (lower c) (lower_str s')
  end.

(** The exponent part [(E[-+]?\d+)?] followed by the end of the string. *)
Definition parse_exponent (s : string) : option Z :=
  match s with
  | EmptyString => Some 0
  | String c r =>
      if Ascii.eqb (lower c) "e" then
        let '(neg, r') :=
          match r with
          | String "-" r' => (true, r')
          | String "+" r' => (false, r')
          | _ => (false, r)
          end in
        match take_digits r' 0 0 with
        | (_, O, _) => None
        | (e, _, EmptyString) => Some (if neg then - Z.of_N e else Z.of_N e)
        | _ => None
        end
      else None
  end.

(** A finite numeral: digits with an optional fraction and exponent, at
    least one digit before or after the point. *)
Definition parse_finite (s : string) : option (N * Z) :=
  let '(i, ni, r1) := take_digits s 0 0 in
  let '(c, nf, r2) :=
    match r1 with
    | String "." r' => take_digits r' i 0
    | _ => (i, O, r1)
    end in
  if (ni + nf =? 0)%nat then None
  else match parse_exponent r2 with
       | Some e => Some (c, e - Z.of_nat nf)
       | None => None
       end.

(** [Inf], [Infinity], [NaN] and [sNaN] with diagnostic digits, in any
    letter case. *)
Definition parse_special (sign : bool) (s : string) : option decimal :=
  let l := lower_str s in
  if String.eqb l "inf" || String.eqb l "infinity" then Some (DInfinity sign)
  else
    let '(sig, r) :=
      match l with
      | String "s" r => (true, r)
      | _ => (false, l)
      end in
    match r with
    | String "n" (String "a" (String "n" d)) =>
        match take_digits d 0 0 with
        | (p, _, EmptyString) => Some (DNaN sign sig p)
        | _ => None
        end
    | _ => None
    end.

(** [Decimal(s)] for a string: white space around and underscores are
    dropped, then the numeric-string grammar applies. *)
Definition Decimal_of_str (s : string) : result decimal :=
  let t := remove_char "_" (strip s) in
  let '(sign, r) :=
    match t with
    | String "-" r => (true, r)
    | String "+" r => (false, r)
    | _ => (false, t)
    end in
  match parse_finite r with
  | Some (c, e) => Ok (DFinite sign c e)
  | None =>
      match parse_special sign r with
      | Some d => Ok d
      | None => Raised InvalidOperation
      end
  end.

Definition Decimal_of_int (n : Z) : decimal :=
  DFinite (n <? 0) (Z.to_N (Z.abs n)) 0.

(** Removes the common factors of two of [m / 2^k]: the reduced fraction
    of [float.as_integer_ratio]. *)
Fixpoint reduce_ratio (m : positive) (k : nat) : positive * nat :=
  match k, m with
  | S k', xO m' => reduce_ratio m' k'
  | _, _ => (m, k)
  end.

(** [Decimal(x)] for a float: the exact value of [x]. *)
Definition Decimal_of_float (x : float) : decimal :=
  match x with
  | S754_zero s => DFinite s 0 0
  | S754_infinity s => DInfinity s
  | S754_nan => DNaN false false 0
  | S754_finite s m e =>
      if 0 <=? e then DFinite s (Z.to_N (Z.pos m * 2 ^ e)) 0
      else
        let '(n, k) := reduce_ratio m (Z.to_nat (- e)) in
        DFinite s (N.pos n * 5 ^ N.of_nat k) (- Z.of_nat k)
  end.

(** The digits of a coefficient given as a list, as [Decimal] accepts in
    place of a tuple: integers from 0 to 9. *)
Fixpoint digits_of_list (l : list json) (acc : N) : option N :=
  match l with
  | [] => Some acc
  | d :: l' =>
      let n := match d with
               | JInt n => Some n
               | JBool b => Some (if b then 1 else 0)
               | _ => None
               end in
      match n with
      | Some n =>
          if (0 <=? n) && (n <=? 9)
          then digits_of_list l' (acc * 10 + Z.to_N n)%N
          else None
      | None => None
      end
  end.

(** [Decimal([sign, digits, exponent])] *)
Definition Decimal_of_list (l : list json) : result decimal :=
  match l with
  | [s; JList ds; e] =>
      let sign := match s with
                  | JInt 0 => Some false
                  | JInt 1 => Some true
                  | JBool b => Some b
                  | _ => None
                  end in
      match sign, digits_of_list ds 0 with
      | Some sg, Some c =>
          match e with
          | JStr "F" => Ok (DInfinity sg)
          | JStr "n" => Ok (DNaN sg false c)
          | JStr "N" => Ok (DNaN sg true c)
          | JInt x => Ok (DFinite sg c x)
          | JBool b => Ok (DFinite sg c (if b then 1 else 0))
          | _ => Raised ValueError
          end
      | _, _ => Raised ValueError
      end
  | _ => Raised ValueError
  end.

(** [decimal.Decimal(v)] *)
Definition Decimal (v : json) : result decimal :=
  match v with
  | JStr s => Decimal_of_str s
  | JInt n => Ok (Decimal_of_int n)
  | JBool b => Ok (Decimal_of_int (if b then 1 else 0))
  | JFloat x => Ok (Decimal_of_float x)
  | JList l => Decimal_of_list l
  | JNull | JDict _ => Raised TypeError
  end.

(** ** datetime.datetime.strptime(s, '%Y-%m-%d %H:%M:%S') *)

Record datetime : Type := mk_datetime {
  year : Z; month : Z; day : Z; hour : Z; minute : Z; second : Z }.

(** A field of the format is a regular expression with alternatives tried
    from left to right; a parser gives the matches of one field in that
    order, each with the rest of the input. *)
Definition parser (A : Type) : Type := string -> list (A * string).

Definition alt {A} (p q : parser A) : parser A := fun s => p s ++ q s.

Definition seq {A B} (p : parser A) (k : A -> parser B) : parser B :=
  fun s => flat_map (fun ar => k (fst ar) (snd ar)) (p s).

Definition pure {A} (a : A) : parser A := fun s => [(a, s)].

(** One character accepted by [ok]; a digit yields its value, any other
    character yields 0. *)
Definition char_if (ok : ascii -> bool) : parser Z :=
  fun s =>
    match s with
    | String c r => if ok c then [(if is_digit c then digit_val c else 0, r)] else []
    | EmptyString => []
    end.

Definition digit_in (lo hi : Z) : parser Z :=
  char_if (fun c => is_digit c && (lo <=? digit_val c) && (digit_val c <=? hi)).

Definition lit (x : ascii) : parser Z := char_if (Ascii.eqb x).

(** Two digits, the first in [a..b] and the second in [c..d]. *)
Definition two (a b c d : Z) : parser Z :=
  seq (digit_in a b) (fun x => seq (digit_in c d) (fun y => pure (10 * x + y))).

(** [\d\d\d\d] *)
Definition re_Y : parser Z :=
  seq (two 0 9 0 9) (fun hi => seq (two 0 9 0 9) (fun lo => pure (100 * hi + lo))).

(** [1[0-2]|0[1-9]|[1-9]] *)
Definition re_m : parser Z := alt (two 1 1 0 2) (alt (two 0 0 1 9) (digit_in 1 9)).

(** [3[0-1]|[1-2]\d|0[1-9]|[1-9]| [1-9]] *)
Definition re_d : parser Z :=
  alt (two 3 3 0 1) (alt (two 1 2 0 9) (alt (two 0 0 1 9)
    (alt (digit_in 1 9) (seq (lit " ") (fun _ => digit_in 1 9))))).

(** [2[0-3]|[0-1]\d|\d] *)
Definition re_H : parser Z := alt (two 2 2 0 3) (alt (two 0 1 0 9) (digit_in 0 9)).

(** [[0-5]\d|\d] *)
Definition re_M : parser Z := alt (two 0 5 0 9) (digit_in 0 9).

(** [6[0-1]|[0-5]\d|\d] *)
Definition re_S : parser Z := alt (two 6 6 0 1) (alt (two 0 5 0 9) (digit_in 0 9)).

(** [\s+], longest match first. *)
Fixpoint re_spaces (s : string) : list (Z * string) :=
  match s with
  | String c r => if is_space c then re_spaces r ++ [(0, r)] else []
  | EmptyString => []
  end.

(** The regular expression of the whole format. *)
Definition re_format : parser datetime :=
  seq re_Y (fun y => seq (lit "-") (fun _ =>
  seq re_m (fun mo => seq (lit "-") (fun _ =>
  seq re_d (fun d => seq re_spaces (fun _ =>
  seq re_H (fun h => seq (lit ":") (fun _ =>
  seq re_M (fun mi => seq (lit ":") (fun _ =>
  seq re_S (fun sec => pure (mk_datetime y mo d h mi sec)))))))))))).

Definition is_leap (y : Z) : bool :=
  ((y mod 4 =? 0) && negb (y mod 100 =? 0)) || (y mod 400 =? 0).

Definition days_in_month (y m : Z) : Z :=
  if m =? 2 then (if is_leap y then 29 else 28)
  else if (m =? 4) || (m =? 6) || (m =? 9) || (m =? 11) then 30
  else 31.

(** The checks of the [date] and [datetime] constructors on the fields
    the format can produce. *)
Definition valid_datetime (t : datetime) : bool :=
  (1 <=? year t) && (day t <=? days_in_month (year t) (month t))
  && (second t <=? 59).

(** [strptime] takes the first match of the expression; the match has to
    consume the whole string and to denote a date that exists. *)
Definition strptime_str (s : string) : result datetime :=
  match re_format s with
  | (t, EmptyString) :: _ => if valid_datetime t then Ok t else Raised ValueError
  | _ => Raised ValueError
  end.

(** [datetime.datetime.strptime(v, '%Y-%m-%d %H:%M:%S')] *)
Definition strptime (v : json) : result datetime :=
  match v with
  | JStr s => strptime_str s
  | _ => Raised TypeError
  end.

(** ** The world around the client

    The client reads the clock, reads a configuration file, sends HTTP
    requests, prints, and calls the callbacks it was given.  What it does
    to the world is kept as a trace of events; what the world answers is
    part of the world. *)

Inductive verb : Type := GET | POST.

(** The arguments of [requests.get(url, params=...)] and
    [requests.post(url, data=..., headers=...)]. *)
Record request : Type := mk_request {
  req_verb : verb;
  req_url : string;
  req_params : dict pval;
  req_headers : dict string }.

(** The records the order book normalizer builds (dictionaries with fixed
    keys in the source). *)
Record modification : Type := mk_modification {
  mod_amount : decimal; mod_rate : decimal; mod_type : json }.

Record removal : Type := mk_removal {
  rem_rate : decimal; rem_type : json }.

Record trade : Type := mk_trade {
  trade_tradeID : json;
  trade_rate : decimal;
  trade_amount : decimal;
  trade_total : decimal;
  trade_date : datetime;
  trade_type : json }.

(** The positional arguments of the ticker callback. *)
Record ticker_update : Type := mk_ticker_update {
  currency_pair : json;
  last : decimal;
  lowest_ask : decimal;
  highest_bid : decimal;
  change : decimal;
  base_volume : decimal;
  quote_volume : decimal;
  is_frozen : bool;
  high : decimal;
  low : decimal }.

Inductive event : Type :=
| Requested (r : request)
| Pprinted (t : trade)
| TrollboxCallback (message_type message_number username message reputation : json)
| TickerCallback (u : ticker_update)
| OrderBookCallback (modifications : list modification)
    (removals : list removal) (trades : list trade) (kwargs : dict json).

(** A configuration file as each of the three readers sees it.
    - [ini_view]: [None] when [ConfigParser.read] raises; otherwise what
      [config_parser.get(section, option)] gives, [None] standing for an
      exception.
    - [json_view]: [None] when opening, decoding or [json.loads] raises;
      otherwise the decoded document.
    - [source_view]: [None] when loading the file as a module raises;
      otherwise the attributes of the module, [None] standing for a
      missing attribute. *)
Record config_file : Type := mk_config_file {
  ini_view : option (string -> string -> option string);
  json_view : option json;
  source_view : option (string -> option json) }.

Record world : Type := mk_world {
  clock : nat -> float;            (* the successive values of time.time() *)
  ticks : nat;                     (* how many of them were read *)
  reply : request -> result json;  (* json.loads of the response's text *)
  files : string -> config_file;
  trace : list event }.

(** Computations: a state and exception monad over the world. *)
Definition M (A : Type) : Type := world -> result A * world.

Definition ret {A} (a : A) : M A := fun w => (Ok a, w).

Definition raise {A} (e : exn) : M A := fun w => (Raised e, w).

Definition bind {A B} (m : M A) (k : A -> M B) : M B :=
  fun w =>
    match m w with
    | (Ok a, w') => k a w'
    | (Raised e, w') => (Raised e, w')
    end.

Definition lift {A} (r : result A) : M A := fun w => (r, w).

Notation "x <- m ;; k" := (bind m (fun x => k))
  (at level 61, m at next level, right associativity).
Notation "' p <- m ;; k" := (bind m (fun x => let p := x in k))
  (at level 61, p pattern, m at next level, right associativity).

Definition emit (e : event) : M unit :=
  fun w => (Ok tt, mk_world (clock w) (ticks w) (reply w) (files w) (trace w ++ [e])).

(** [time.time()] *)
Definition time_time : M float :=
  fun w => (Ok (clock w (ticks w)),
            mk_world (clock w) (S (ticks w)) (reply w) (files w) (trace w)).

(** [json.loads(requests.get(url, params=params).text)] *)
Definition requests_get (url : string) (params : dict pval) : M json :=
  let r := mk_request GET url params [] in
  _ <- emit (Requested r) ;; fun w => (reply w r, w).

(** [json.loads(requests.post(url, data=data, headers=headers).text)] *)
Definition requests_post (url : string) (data : dict pval) (headers : dict string)
  : M json :=
  let r := mk_request POST url data headers in
  _ <- emit (Requested r) ;; fun w => (reply w r, w).

(** Binding on plain results, for the code that touches no world. *)
Definition rbind {A B} (r : result A) (k : A -> result B) : result B :=
  match r with
  | Ok a => k a
  | Raised e => Raised e
  end.

Notation "x <-- r ;; k" := (rbind r (fun x => k))
  (at level 61, r at next level, right associativity).

(** ** class Poloniex *)

Definition EXAMPLES_URL : string := "https://github.com/Pancho/poloniex".
Definition CANDLE_PERIOD_300 : Z := 300.
Definition CANDLE_PERIOD_900 : Z := 900.
Definition CANDLE_PERIOD_1800 : Z := 1800.
Definition CANDLE_PERIOD_7200 : Z := 7200.
Definition CANDLE_PERIOD_14400 : Z := 14400.
Definition CANDLE_PERIOD_86400 : Z := 86400.
Definition CANDLE_PERIODS : list Z :=
  [CANDLE_PERIOD_300; CANDLE_PERIOD_900; CANDLE_PERIOD_1800;
   CANDLE_PERIOD_7200; CANDLE_PERIOD_14400; CANDLE_PERIOD_86400].

(** The attributes of a client once constructed: the key is a [str], the
    secret a [bytes] object. *)
Record Poloniex : Type := mk_Poloniex {
  api_key : string;
  secret : bytes;
  api_endpoint : string;
  private_api_endpoint : string;
  websockets_endpoint : string }.

Definition msg_need_arguments : string :=
  "You need to pass either config_file_path parameter or all of api_key and secret".

Definition msg_no_credentials : string := "No credentials were found".

Definition msg_misconfigured : string :=
  ("While the config file was found, it was not configured correctly. Check for examples here: "
   ++ EXAMPLES_URL)%string.

Definition is_None (v : json) : bool :=
  match v with
  | JNull => true
  | _ => false
  end.

(** *** __get_credentials

    Each [try] block works on the local variables [(api_key, secret)]; it
    either returns them ([true]) or is left by an exception that the bare
    [except] swallows ([false]), in which case the assignments made before
    the exception stay. *)
Definition locals : Type := (json * json)%type.

Definition try_ini (f : config_file) (l : locals) : locals * bool :=
  match ini_view f with
  | None => (l, false)
  | Some get =>
      match get "CONFIG" "apiKey" with
      | None => (l, false)
      | Some k =>
          match get "CONFIG" "secret" with
          | None => ((JStr k, snd l), false)
          | Some s => ((JStr k, JStr s), true)
          end
      end
  end.

Definition try_json (f : config_file) (l : locals) : locals * bool :=
  match json_view f with
  | None => (l, false)
  | Some blob =>
      match py_get blob "apiKey" with
      | Raised _ => (l, false)
      | Ok k =>
          match py_get blob "secret" with
          | Raised _ => ((k, snd l), false)
          | Ok s => ((k, s), true)
          end
      end
  end.

Definition try_source (f : config_file) (l : locals) : locals * bool :=
  match source_view f with
  | None => (l, false)
  | Some attr =>
      match attr "api_key" with
      | None => (l, false)
      | Some k =>
          match attr "secret" with
          | None => ((k, snd l), false)
          | Some s => ((k, s), true)
          end
      end
  end.

Definition get_credentials (config_file_path : string) : M (json * json) :=
  fun w =>
    let f := files w config_file_path in
    let l := (JNull, JNull) in
    let '(l, returned) := try_ini f l in
    if returned then (Ok l, w) else
    let '(l, returned) := try_json f l in
    if returned then (Ok l, w) else
    let '(l, returned) := try_source f l in
    if returned then (Ok l, w) else
    if is_None (fst l) || is_None (snd l)
    then (Raised (Exception msg_misconfigured), w)
    else (Ok l, w).

(** *** __init__ *)

(** [v.encode('utf8')]: only a [str] has the method. *)
Definition encode (v : json) : result bytes :=
  match v with
  | JStr s => Ok (encode_utf8 s)
  | _ => Raised AttributeError
  end.

(** The values compared in the emptiness check, and Python's [==] on
    them: a [bytes] object is never equal to a [str]. *)
Inductive cmpval : Type :=
| VStr (s : string)
| VBytes (b : bytes).

Definition bytes_eqb (a b : bytes) : bool :=
  (List.length a =? List.length b)%nat
  && forallb (fun p => Byte.eqb (fst p) (snd p)) (combine a b).

Definition py_eq (a b : cmpval) : bool :=
  match a, b with
  | VStr s, VStr t => String.eqb s t
  | VBytes x, VBytes y => bytes_eqb x y
  | _, _ => false
  end.

Definition is_none {A} (o : option A) : bool :=
  match o with
  | None => true
  | Some _ => false
  end.

Definition init (config_file_path : option string) (api_key secret : json)
  : M Poloniex :=
  (* None of the parameters are necessary, but to work properly, we need at
     least one pair from one source *)
  _ <- (if is_none config_file_path && (is_None api_key || is_None secret)
        then raise (Exception msg_need_arguments)
        else ret tt) ;;
  ' (self_api_key, self_secret) <-
     match config_file_path with
     | Some path => get_credentials path
     | None => ret (api_key, secret)
     end ;;
  (* Rather do it once instead of at every signing *)
  self_secret <- lift (encode self_secret) ;;
  (* If still not api key and no secret, raise.  The tests run from left to
     right: [self.api_key is None], [self.api_key.strip() == ''],
     [self.secret is None] (false for a [bytes] object) and
     [self.secret.strip() == '']. *)
  match self_api_key with
  | JNull => raise (Exception msg_no_credentials)
  | JStr k =>
      if py_eq (VStr (strip k)) (VStr "")
      then raise (Exception msg_no_credentials)
      else if py_eq (VBytes (strip_bytes self_secret)) (VStr "")
      then raise (Exception msg_no_credentials)
      else ret (mk_Poloniex k self_secret "https://api.poloniex.com/"
                  "https://www.poloniex.com/" "wss://api.poloniex.com/")
  | _ => raise AttributeError
  end.

(** *** __str__, __eq__, __ne__

    [json.dumps] with its defaults ([ensure_ascii] on, items separated by
    a comma and a space) on a list of [str] and [bytes] objects: the
    encoder has no rule for a [bytes] object and raises [TypeError] when
    it meets one. *)

Definition lower_hex_digit (z : Z) : ascii :=
  chr (if z <? 10 then 48 + z else 87 + z).

(** What the encoder writes for one character of a string: the short
    escapes, a backslash and [u00XX] for the other characters outside the printable
    ASCII range, the character itself otherwise. *)
Definition json_escape (c : ascii) : string :=
  let n := code c in
  let escaped (s : string) : string := String (chr 92) s in
  if n =? 34 then escaped (String (chr 34) EmptyString)
  else if n =? 92 then escaped (String (chr 92) EmptyString)
  else if n =? 10 then escaped "n"
  else if n =? 13 then escaped "r"
  else if n =? 9 then escaped "t"
  else if n =? 12 then escaped "f"
  else if n =? 8 then escaped "b"
  else if (n <? 32) || (126 <? n) then
    escaped ("u00" ++ String (lower_hex_digit (n / 16))
                        (String (lower_hex_digit (n mod 16)) EmptyString))%string
  else String c EmptyString.

Definition json_dumps_str (s : string) : string :=
  String (chr 34)
    (String.concat "" (map json_escape (list_ascii_of_string s))
     ++ String (chr 34) EmptyString)%string.

Definition json_dumps_item (v : cmpval) : result string :=
  match v with
  | VStr s => Ok (json_dumps_str s)
  | VBytes _ => Raised TypeError
  end.

Fixpoint json_dumps_items (l : list cmpval) : result (list string) :=
  match l with
  | [] => Ok []
  | v :: l' =>
      s <-- json_dumps_item v ;;
      r <-- json_dumps_items l' ;;
      Ok (s :: r)
  end.

(** [json.dumps(l)] for a list [l]. *)
Definition json_dumps (l : list cmpval) : result string :=
  items <-- json_dumps_items l ;;
  Ok ("[" ++ String.concat ", " items ++ "]")%string.

(** [str(self)] *)
Definition __str__ (self : Poloniex) : result string :=
  json_dumps [VStr (api_key self); VBytes (secret self)].

(** [self == other] *)
Definition __eq__ (self other : Poloniex) : result bool :=
  a <-- __str__ self ;;
  b <-- __str__ other ;;
  Ok (String.eqb a b).

(** [self != other] *)
Definition __ne__ (self other : Poloniex) : result bool :=
  a <-- __str__ self ;;
  b <-- __str__ other ;;
  Ok (negb (String.eqb a b)).

(** *** __prepare_request_data

    The dictionary [params] is updated in place and returned; the model
    returns the updated dictionary. *)
Definition prepare_request_data (self : Poloniex) (params : dict pval)
  : M (dict pval * dict string) :=
  now <- time_time ;;
  nonce <- lift (int_of_float (float_mul_int now 1000)) ;;
  let params := dict_set "nonce" (PInt nonce) params in
  let encoded_params := encode_utf8 (urlencode params) in
  let headers := dict_of_items
    [ ("Sign", Hmac.hexdigest (secret self) encoded_params);
      ("Key", api_key self) ] in
  ret (params, headers).

(** *** The public resources *)

Definition public_url (self : Poloniex) : string :=
  (api_endpoint self ++ "public")%string.

Definition private_url (self : Poloniex) : string :=
  (private_api_endpoint self ++ "tradingApi")%string.

Definition ticker (self : Poloniex) : M json :=
  let params := dict_of_items [("command", PStr "returnTicker")] in
  requests_get (public_url self) params.

Definition daily_volume (self : Poloniex) : M json :=
  let params := dict_of_items [("command", PStr "return24hVolume")] in
  requests_get (public_url self) params.

Definition currencies (self : Poloniex) : M json :=
  let params := dict_of_items [("command", PStr "returnCurrencies")] in
  requests_get (public_url self) params.

Definition order_book (self : Poloniex) (pair : option pval) (depth : pval) : M json :=
  let params := dict_of_items
    [("command", PStr "returnOrderBook"); ("depth", depth)] in
  let params :=
    match pair with
    | Some p => dict_set "currencyPair" p params
    | None => params
    end in
  requests_get (public_url self) params.

Definition trade_history (self : Poloniex) (pair start end_ : pval) : M json :=
  let params := dict_of_items
    [("command", PStr "returnOrderBook"); ("pair", pair);
     ("start", start); ("end", end_)] in
  requests_get (public_url self) params.

Definition chart_data (self : Poloniex) (pair start end_ period : pval) : M json :=
  let params := dict_of_items
    [("command", PStr "returnOrderBook"); ("pair", pair);
     ("start", start); ("end", end_); ("period", period)] in
  requests_get (public_url self) params.

Definition loan_orders (self : Poloniex) (currency : pval) : M json :=
  let params := dict_of_items
    [("command", PStr "returnLoanOrders"); ("currency", currency)] in
  requests_get (public_url self) params.

(** *** The trading resources: sign, then post *)

Definition post_signed (self : Poloniex) (params : dict pval) : M json :=
  ' (params, headers) <- prepare_request_data self params ;;
  requests_post (private_url self) params headers.

Definition balances (self : Poloniex) : M json :=
  post_signed self (dict_of_items [("command", PStr "returnBalances")]).

Definition complete_balances (self : Poloniex) : M json :=
  post_signed self (dict_of_items [("command", PStr "returnCompleteBalances")]).

Definition deposit_addresses (self : Poloniex) : M json :=
  post_signed self (dict_of_items [("command", PStr "returnDepositAddresses")]).

Definition new_deposit_address (self : Poloniex) (currency : pval) : M json :=
  post_signed self (dict_of_items
    [("command", PStr "generateNewAddress"); ("currency", currency)]).

Definition deposits_and_withdrawals (self : Poloniex) (start end_ : pval) : M json :=
  post_signed self (dict_of_items
    [("command", PStr "returnDepositsWithdrawals"); ("start", start); ("end", end_)]).

Definition open_orders (self : Poloniex) (pair : pval) : M json :=
  post_signed self (dict_of_items
    [("command", PStr "returnOpenOrders"); ("currencyPair", pair)]).

Definition user_trade_history (self : Poloniex) (start end_ pair : pval) : M json :=
  post_signed self (dict_of_items
    [("command", PStr "returnTradeHistory"); ("currencyPair", pair);
     ("start", start); ("end", end_)]).

Definition order_trades (self : Poloniex) (order_id : pval) : M json :=
  post_signed self (dict_of_items
    [("command", PStr "returnOrderTrades"); ("orderNumber", order_id)]).

Definition cancel_order (self : Poloniex) (order_id : pval) : M json :=
  post_signed self (dict_of_items
    [("command", PStr "cancelOrder"); ("orderNumber", order_id)]).

Definition buy (self : Poloniex)
  (currency_pair rate amount post_only fill_or_kill immediate_or_cancel : pval)
  : M json :=
  post_signed self (dict_of_items
    [("command", PStr "buy"); ("currencyPair", currency_pair);
     ("rate", rate); ("amount", amount); ("fillOrKill", fill_or_kill);
     ("immediateOrCancel", immediate_or_cancel); ("postOnly", post_only)]).

Definition sell (self : Poloniex)
  (currency_pair rate amount post_only fill_or_kill immediate_or_cancel : pval)
  : M json :=
  post_signed self (dict_of_items
    [("command", PStr "sell"); ("currencyPair", currency_pair);
     ("rate", rate); ("amount", amount); ("fillOrKill", fill_or_kill);
     ("immediateOrCancel", immediate_or_cancel); ("postOnly", post_only)]).

Definition fee_info (self : Poloniex) : M json :=
  post_signed self (dict_of_items [("command", PStr "returnFeeInfo")]).

Definition available_balances (self : Poloniex) (account : pval) : M json :=
  post_signed self (dict_of_items
    [("command", PStr "returnAvailableAccountBalances"); ("account", account)]).

(** ** The wrappers of the push feed

    A wrapper receives the positional arguments [args] and the keyword
    arguments [kwargs] of one message. *)

(** [args[i]] *)
Definition index (args : list json) (i : nat) : result json :=
  match nth_error args i with
  | Some v => Ok v
  | None => Raised IndexError
  end.

(** The [wrapper] that [trollbox_wrapper(callback)] returns. *)
Definition trollbox_wrapper (args : list json) (kwargs : dict json) : M unit :=
  message_type <- lift (index args 0) ;;
  message_number <- lift (index args 1) ;;
  username <- lift (index args 2) ;;
  message <- lift (index args 3) ;;
  reputation <- lift (index args 4) ;;
  emit (TrollboxCallback message_type message_number username message reputation).

(** [Decimal(args[i])] *)
Definition Decimal_at (args : list json) (i : nat) : result decimal :=
  v <-- index args i ;; Decimal v.

(** The [wrapper] that [ticker_wrapper(callback)] returns. *)
Definition ticker_wrapper (args : list json) (kwargs : dict json) : M unit :=
  currency_pair <- lift (index args 0) ;;
  last <- lift (Decimal_at args 1) ;;
  lowest_ask <- lift (Decimal_at args 2) ;;
  highest_bid <- lift (Decimal_at args 3) ;;
  change <- lift (Decimal_at args 4) ;;
  base_volume <- lift (Decimal_at args 5) ;;
  quote_volume <- lift (Decimal_at args 6) ;;
  raw_frozen <- lift (index args 7) ;;
  let is_frozen := eq_int raw_frozen 1 in
  high <- lift (Decimal_at args 8) ;;
  low <- lift (Decimal_at args 9) ;;
  emit (TickerCallback
          (mk_ticker_update currency_pair last lowest_ask highest_bid change
             base_volume quote_volume is_frozen high low)).

(** [Decimal(data.get(k))] *)
Definition Decimal_get (data : json) (k : string) : result decimal :=
  v <-- py_get data k ;; Decimal v.

(** The three lists the order book wrapper fills. *)
Definition books : Type :=
  (list modification * list removal * list trade)%type.

(** The body of the loop [for arg in args] of the order book wrapper. *)
Definition order_book_step (acc : books) (arg : json) : M books :=
  let '(modifications, removals, trades) := acc in
  data <- lift (py_get arg "data") ;;
  tag <- lift (py_get arg "type") ;;
  if eq_str tag "orderBookModify" then
    blob <- lift (amount <-- Decimal_get data "amount" ;;
                  rate <-- Decimal_get data "rate" ;;
                  type <-- py_get data "type" ;;
                  Ok (mk_modification amount rate type)) ;;
    ret (modifications ++ [blob], removals, trades)
  else
    tag <- lift (py_get arg "type") ;;
    if eq_str tag "orderBookRemove" then
      blob <- lift (rate <-- Decimal_get data "rate" ;;
                    type <-- py_get data "type" ;;
                    Ok (mk_removal rate type)) ;;
      ret (modifications, removals ++ [blob], trades)
    else (* New trade *)
      blob <- lift (tradeID <-- py_get data "tradeID" ;;
                    rate <-- Decimal_get data "rate" ;;
                    amount <-- Decimal_get data "amount" ;;
                    total <-- Decimal_get data "total" ;;
                    date <-- (d <-- py_get data "date" ;; strptime d) ;;
                    type <-- py_get data "type" ;;
                    Ok (mk_trade tradeID rate amount total date type)) ;;
      _ <- emit (Pprinted blob) ;;
      ret (modifications, removals, trades ++ [blob]).

Fixpoint order_book_loop (acc : books) (args : list json) : M books :=
  match args with
  | [] => ret acc
  | arg :: args' =>
      acc' <- order_book_step acc arg ;;
      order_book_loop acc' args'
  end.

(** The [wrapper] that [order_book_wrapper(callback)] returns. *)
Definition order_book_wrapper (args : list json) (kwargs : dict json) : M unit :=
  ' (modifications, removals, trades) <- order_book_loop ([], [], []) args ;;
  emit (OrderBookCallback modifications removals trades kwargs).

(** ** Vocabulary of the specification *)

(** [log es w]: the world [w] after the events [es]. *)
Definition log (es : list event) (w : world) : world :=
  mk_world (clock w) (ticks w) (reply w) (files w) (trace w ++ es).

(** [tick w]: the world [w] after one reading of the clock. *)
Definition tick (w : world) : world :=
  mk_world (clock w) (S (ticks w)) (reply w) (files w) (trace w).

(** The nonce a signing in world [w] mints: the clock's next reading, in
    milliseconds, truncated. *)
Definition nonce_at (w : world) : result Z :=
  int_of_float (float_mul_int (clock w (ticks w)) 1000).

(** Signing twice in a row; the second call receives the dictionary the
    first one has updated, as [params] is one object in the source. *)
Definition sign_twice (self : Poloniex) (params : dict pval)
  : M ((dict pval * dict string) * (dict pval * dict string)) :=
  first <- prepare_request_data self params ;;
  second <- prepare_request_data self (fst first) ;;
  ret (first, second).

(** Characters that [quote_plus] leaves alone: unreserved and ASCII. *)
Definition safe_char (c : ascii) : bool := always_safe (code c) && (code c <? 128).

Fixpoint all_chars (p : ascii -> bool) (s : string) : bool :=
  match s with
  | EmptyString => true
  | String c s' => p c && all_chars p s'
  end.

(** The first character of a UTF-8 byte sequence, for code points below
    256, and the bytes after it. *)
Definition first_char (bs : bytes) : option (ascii * bytes) :=
  match bs with
  | [] => None
  | b :: r =>
      if byte_to_Z b <? 128 then Some (chr (byte_to_Z b), r)
      else match r with
           | b2 :: r' => Some (chr ((byte_to_Z b - 192) * 64 + (byte_to_Z b2 - 128)), r')
           | [] => None
           end
  end.

(** Network activity in a trace: the HTTP requests. *)
Definition is_network (e : event) : bool :=
  match e with
  | Requested _ => true
  | _ => false
  end.


(** [decimal_is d p q]: the decimal [d] is exactly the fraction [p / q]. *)
Definition decimal_is (d : decimal) (p q : Z) : Prop :=
  match d with
  | DFinite s c e =>
      let v := if s then - Z.of_N c else Z.of_N c in
      if 0 <=? e then v * 10 ^ e * q = p else v * q = p * 10 ^ (- e)
  | _ => False
  end.

(** One entry of an order book batch once normalized: the three kinds of
    the specification. *)
Inductive entry : Type :=
| Modification (m : modification)
| Removal (r : removal)
| TradePrint (t : trade).

(** What the wrapper makes of one entry, without the lists and without
    the printing: the tag decides the kind, the fields of that kind are
    parsed. *)
Definition normalize_entry (arg : json) : result entry :=
  data <-- py_get arg "data" ;;
  tag <-- py_get arg "type" ;;
  if eq_str tag "orderBookModify" then
    amount <-- Decimal_get data "amount" ;;
    rate <-- Decimal_get data "rate" ;;
    type <-- py_get data "type" ;;
    Ok (Modification (mk_modification amount rate type))
  else if eq_str tag "orderBookRemove" then
    rate <-- Decimal_get data "rate" ;;
    type <-- py_get data "type" ;;
    Ok (Removal (mk_removal rate type))
  else
    tradeID <-- py_get data "tradeID" ;;
    rate <-- Decimal_get data "rate" ;;
    amount <-- Decimal_get data "amount" ;;
    total <-- Decimal_get data "total" ;;
    date <-- (d <-- py_get data "date" ;; strptime d) ;;
    type <-- py_get data "type" ;;
    Ok (TradePrint (mk_trade tradeID rate amount total date type)).

Fixpoint normalize_all (args : list json) : result (list entry) :=
  match args with
  | [] => Ok []
  | arg :: args' =>
      e <-- normalize_entry arg ;;
      es <-- normalize_all args' ;;
      Ok (e :: es)
  end.

Fixpoint modifications_of (es : list entry) : list modification :=
  match es with
  | [] => []
  | Modification m :: es' => m :: modifications_of es'
  | _ :: es' => modifications_of es'
  end.

Fixpoint removals_of (es : list entry) : list removal :=
  match es with
  | [] => []
  | Removal r :: es' => r :: removals_of es'
  | _ :: es' => removals_of es'
  end.

Fixpoint trades_of (es : list entry) : list trade :=
  match es with
  | [] => []
  | TradePrint t :: es' => t :: trades_of es'
  | _ :: es' => trades_of es'
  end.

(** The three lists after one more entry, and what the loop prints for
    it. *)
Definition add_entry (acc : books) (e : entry) : books :=
  let '(modifications, removals, trades) := acc in
  match e with
  | Modification m => (modifications ++ [m], removals, trades)
  | Removal r => (modifications, removals ++ [r], trades)
  | TradePrint t => (modifications, removals, trades ++ [t])
  end.

Definition printed (e : entry) : list event :=
  match e with
  | TradePrint t => [Pprinted t]
  | _ => []
  end.


(** The tag of a raw entry, as the wrapper tests it. *)
Inductive kind : Type := KModify | KRemove | KTrade.

Definition kind_of_tag (tag : json) : kind :=
  if eq_str tag "orderBookModify" then KModify
  else if eq_str tag "orderBookRemove" then KRemove
  else KTrade.


(** The fields the wrapper parses as numbers for an entry of each kind. *)
Definition numeric_fields (k : kind) : list string :=
  match k with
  | KModify => ["amount"; "rate"]
  | KRemove => ["rate"]
  | KTrade => ["rate"; "amount"; "total"]
  end.

(** A string that is not a numeral of the decimal grammar. *)
Definition malformed_number (v : json) : Prop :=
  exists s, v = JStr s /\ Decimal_of_str s = Raised InvalidOperation.

(** A string that is not a date in the format [%Y-%m-%d %H:%M:%S]. *)
Definition malformed_date (v : json) : Prop :=
  exists s, v = JStr s /\ strptime_str s = Raised ValueError.

(** An entry with a malformed number or date in one of the fields its
    kind carries. *)
Definition malformed_entry (arg : json) : Prop :=
  exists d tag,
    py_get arg "data" = Ok (JDict d) /\ py_get arg "type" = Ok tag /\
    ((exists k v, In k (numeric_fields (kind_of_tag tag)) /\
                  dict_get k d = Some v /\ malformed_number v)
     \/ (kind_of_tag tag = KTrade /\
         exists v, dict_get "date" d = Some v /\ malformed_date v)).




(** The credential loader in the words of the specification: an ordered
    list of readers, each with an optional result; the first result
    wins. *)
Definition read_ini (f : config_file) : option (json * json) :=
  match ini_view f with
  | Some get =>
      match get "CONFIG" "apiKey", get "CONFIG" "secret" with
      | Some k, Some s => Some (JStr k, JStr s)
      | _, _ => None
      end
  | None => None
  end.

Definition read_json (f : config_file) : option (json * json) :=
  match json_view f with
  | Some (JDict d) =>
      Some (match dict_get "apiKey" d with Some k => k | None => JNull end,
            match dict_get "secret" d with Some s => s | None => JNull end)
  | _ => None
  end.

Definition read_source (f : config_file) : option (json * json) :=
  match source_view f with
  | Some attr =>
      match attr "api_key", attr "secret" with
      | Some k, Some s => Some (k, s)
      | _, _ => None
      end
  | None => None
  end.

Definition first_success {A} (attempts : list (option A)) : option A :=
  fold_right (fun a rest => match a with Some x => Some x | None => rest end)
    None attempts.

(** The calls of the public API, each with its arguments, and the method
    that makes each. *)
Inductive public_call : Type :=
| Ticker
| DailyVolume
| Currencies
| OrderBook (pair : option pval) (depth : pval)
| TradeHistory (pair start end_ : pval)
| ChartData (pair start end_ period : pval)
| LoanOrders (currency : pval).

Definition call_public (self : Poloniex) (c : public_call) : M json :=
  match c with
  | Ticker => ticker self
  | DailyVolume => daily_volume self
  | Currencies => currencies self
  | OrderBook pair_ depth => order_book self pair_ depth
  | TradeHistory pair_ start end_ => trade_history self pair_ start end_
  | ChartData pair_ start end_ period => chart_data self pair_ start end_ period
  | LoanOrders currency => loan_orders self currency
  end.

(** The query of each public call, item by item. *)
Definition public_params (c : public_call) : dict pval :=
  match c with
  | Ticker => [("command", PStr "returnTicker")]
  | DailyVolume => [("command", PStr "return24hVolume")]
  | Currencies => [("command", PStr "returnCurrencies")]
  | OrderBook pair_ depth =>
      [("command", PStr "returnOrderBook"); ("depth", depth)]
      ++ match pair_ with
         | Some p => [("currencyPair", p)]
         | None => []
         end
  | TradeHistory pair_ start end_ =>
      [("command", PStr "returnOrderBook"); ("pair", pair_);
       ("start", start); ("end", end_)]
  | ChartData pair_ start end_ period =>
      [("command", PStr "returnOrderBook"); ("pair", pair_);
       ("start", start); ("end", end_); ("period", period)]
  | LoanOrders currency =>
      [("command", PStr "returnLoanOrders"); ("currency", currency)]
  end.

(** The calls of the trading API, each with its arguments, and the method
    that makes each. *)
Inductive trading_call : Type :=
| Balances
| CompleteBalances
| DepositAddresses
| NewDepositAddress (currency : pval)
| DepositsAndWithdrawals (start end_ : pval)
| OpenOrders (pair : pval)
| UserTradeHistory (start end_ pair : pval)
| OrderTrades (order_id : pval)
| CancelOrder (order_id : pval)
| Buy (currency_pair rate amount post_only fill_or_kill immediate_or_cancel : pval)
| Sell (currency_pair rate amount post_only fill_or_kill immediate_or_cancel : pval)
| FeeInfo
| AvailableBalances (account : pval).

Definition call_trading (self : Poloniex) (c : trading_call) : M json :=
  match c with
  | Balances => balances self
  | CompleteBalances => complete_balances self
  | DepositAddresses => deposit_addresses self
  | NewDepositAddress currency => new_deposit_address self currency
  | DepositsAndWithdrawals start end_ => deposits_and_withdrawals self start end_
  | OpenOrders pair_ => open_orders self pair_
  | UserTradeHistory start end_ pair_ => user_trade_history self start end_ pair_
  | OrderTrades order_id => order_trades self order_id
  | CancelOrder order_id => cancel_order self order_id
  | Buy currency_pair rate amount post_only fill_or_kill immediate_or_cancel =>
      buy self currency_pair rate amount post_only fill_or_kill immediate_or_cancel
  | Sell currency_pair rate amount post_only fill_or_kill immediate_or_cancel =>
      sell self currency_pair rate amount post_only fill_or_kill immediate_or_cancel
  | FeeInfo => fee_info self
  | AvailableBalances account => available_balances self account
  end.

(** The form of each trading call before it is signed, item by item. *)
Definition trading_params (c : trading_call) : dict pval :=
  match c with
  | Balances => [("command", PStr "returnBalances")]
  | CompleteBalances => [("command", PStr "returnCompleteBalances")]
  | DepositAddresses => [("command", PStr "returnDepositAddresses")]
  | NewDepositAddress currency =>
      [("command", PStr "generateNewAddress"); ("currency", currency)]
  | DepositsAndWithdrawals start end_ =>
      [("command", PStr "returnDepositsWithdrawals"); ("start", start); ("end", end_)]
  | OpenOrders pair_ =>
      [("command", PStr "returnOpenOrders"); ("currencyPair", pair_)]
  | UserTradeHistory start end_ pair_ =>
      [("command", PStr "returnTradeHistory"); ("currencyPair", pair_);
       ("start", start); ("end", end_)]
  | OrderTrades order_id =>
      [("command", PStr "returnOrderTrades"); ("orderNumber", order_id)]
  | CancelOrder order_id =>
      [("command", PStr "cancelOrder"); ("orderNumber", order_id)]
  | Buy currency_pair rate amount post_only fill_or_kill immediate_or_cancel =>
      [("command", PStr "buy"); ("currencyPair", currency_pair);
       ("rate", rate); ("amount", amount); ("fillOrKill", fill_or_kill);
       ("immediateOrCancel", immediate_or_cancel); ("postOnly", post_only)]
  | Sell currency_pair rate amount post_only fill_or_kill immediate_or_cancel =>
      [("command", PStr "sell"); ("currencyPair", currency_pair);
       ("rate", rate); ("amount", amount); ("fillOrKill", fill_or_kill);
       ("immediateOrCancel", immediate_or_cancel); ("postOnly", post_only)]
  | FeeInfo => [("command", PStr "returnFeeInfo")]
  | AvailableBalances account =>
      [("command", PStr "returnAvailableAccountBalances"); ("account", account)]
  end.

(** A form posted to the trading endpoint under the client's key, with
    the signature of that very form. *)
Definition signed_request (self : Poloniex) (data : dict pval) : request :=
  mk_request POST (private_url self) data
    [("Sign", Hmac.hexdigest (secret self) (encode_utf8 (urlencode data)));
     ("Key", api_key self)].

(** The arguments of the ticker callback for a message, without the
    call. *)
Definition ticker_fields (args : list json) : result ticker_update :=
  currency_pair <-- index args 0 ;;
  last <-- Decimal_at args 1 ;;
  lowest_ask <-- Decimal_at args 2 ;;
  highest_bid <-- Decimal_at args 3 ;;
  change <-- Decimal_at args 4 ;;
  base_volume <-- Decimal_at args 5 ;;
  quote_volume <-- Decimal_at args 6 ;;
  raw_frozen <-- index args 7 ;;
  high <-- Decimal_at args 8 ;;
  low <-- Decimal_at args 9 ;;
  Ok (mk_ticker_update currency_pair last lowest_ask highest_bid change
        base_volume quote_volume (eq_int raw_frozen 1) high low).

(** The positions of a ticker message that are converted to decimals. *)
Definition ticker_numeric : list nat := [1; 2; 3; 4; 5; 6; 8; 9]%nat.

(** An entry of the wrong shape: not a dictionary, or a dictionary whose
    ["data"] is absent or is not a dictionary. *)
Definition is_dict (v : json) : bool :=
  match v with
  | JDict _ => true
  | _ => false
  end.

Definition wrong_shape (arg : json) : bool :=
  match py_get arg "data" with
  | Ok data => negb (is_dict data)
  | Raised _ => true
  end.

(** The fields the wrapper converts for an entry of each kind, in the
    order in which it converts them. *)
Definition parsed_fields (k : kind) : list string :=
  match k with
  | KModify => ["amount"; "rate"]
  | KRemove => ["rate"]
  | KTrade => ["rate"; "amount"; "total"; "date"]
  end.

(** The value [v] of the field [name] converts: to a date for ["date"],
    to a decimal for the others. *)
Definition field_converts (name : string) (v : json) : bool :=
  if String.eqb name "date"
  then match strptime v with Ok _ => true | Raised _ => false end
  else match Decimal v with Ok _ => true | Raised _ => false end.

(** The number that a string of digits spells, continuing from [acc]. *)
Fixpoint read_digits (acc : N) (s : string) : N :=
  match s with
  | EmptyString => acc
  | String c s' => read_digits (acc * 10 + Z.to_N (digit_val c))%N s'
  end.

(** A date and time of the calendar: every field in its range. *)
Definition date_in_range (t : datetime) : bool :=
  (1 <=? year t) && (year t <=? 9999)
  && (1 <=? month t) && (month t <=? 12)
  && (1 <=? day t) && (day t <=? days_in_month (year t) (month t))
  && (0 <=? hour t) && (hour t <=? 23)
  && (0 <=? minute t) && (minute t <=? 59)
  && (0 <=? second t) && (second t <=? 59).

(** Every match that the parser [p] gives satisfies [P]. *)
Definition results_in {A} (P : A -> Prop) (p : parser A) : Prop :=
  forall s a r, In (a, r) (p s) -> P a.

(** The digits of [hexdigest]. *)
Definition is_lower_hex (c : ascii) : bool :=
  let n := code c in
  ((48 <=? n) && (n <=? 57)) || ((97 <=? n) && (n <=? 102)).

(** Reading a query string back, as a server does: the items are
    separated by [&], each is split at its first [=], [+] stands for a
    space and [%XX] for the byte of that number. *)
Definition hex_val (c : ascii) : Z :=
  let n := code c in
  if n <? 58 then n - 48 else if n <? 71 then n - 55 else n - 87.

Definition finish (key : option bytes) (cur : bytes) : bytes * bytes :=
  match key with
  | Some k => (k, rev cur)
  | None => (rev cur, [])
  end.

Fixpoint parse_query (s : string) (key : option bytes) (cur : bytes)
  : list (bytes * bytes) :=
  match s with
  | EmptyString => [finish key cur]
  | String c r =>
      if (c =? "&")%char then finish key cur :: parse_query r None []
      else if (c =? "=")%char && is_none key then parse_query r (Some (rev cur)) []
      else if (c =? "+")%char then parse_query r key (byte_of_Z 32 :: cur)
      else if (c =? "%")%char then
        match r with
        | String h (String l r') =>
            parse_query r' key (byte_of_Z (16 * hex_val h + hex_val l) :: cur)
        | _ => parse_query r key (byte_of_Z (code c) :: cur)
        end
      else parse_query r key (byte_of_Z (code c) :: cur)
  end.

Definition read_query (s : string) : list (bytes * bytes) :=
  match s with
  | EmptyString => []
  | _ => parse_query s None []
  end.

(** An item of a mapping as it is written in the query string: the key
    and the text of the value, as bytes. *)
Definition rendered (kv : string * pval) : bytes * bytes :=
  (encode_utf8 (fst kv), encode_utf8 (pval_str (snd kv))).

(** The credentials the constructor works with: those of the
    configuration file when a path is given, the arguments otherwise. *)
Definition resolved (path : option string) (api_key secret : json) (w : world)
  : option (json * json) :=
  match path with
  | Some p =>
      first_success [read_ini (files w p); read_json (files w p);
                     read_source (files w p)]
  | None => Some (api_key, secret)
  end.

(** The client for a key and a secret. *)
Definition client (k : string) (s : bytes) : Poloniex :=
  mk_Poloniex k s "https://api.poloniex.com/" "https://www.poloniex.com/"
    "wss://api.poloniex.com/".

(** ** Vocabulary for the arithmetic of the nonce *)

(** The clock reading [m * 2^e] in milliseconds, as a number of
    [2^-1074]. *)
Definition millis (m : positive) (e : Z) : Z := Z.pos m * 1000 * 2 ^ (e + 1074).

(** [M / 2^n] rounded to the nearest integer, ties to the even one. *)
Definition rne (M n : Z) : Z :=
  let q := M / 2 ^ n in
  let rem := M mod 2 ^ n in
  let half := 2 ^ (n - 1) in
  if rem <? half then q
  else if half <? rem then q + 1
  else if Z.even q then q else q + 1.

(** The integer part of [N * 2^f]. *)
Definition floor_scale (N f : Z) : Z :=
  if 0 <=? f then N * 2 ^ f else N / 2 ^ (- f).

(** The unit of the format for a number of [Z.log2 W + 1] bits on the
    scale where the smallest subnormal is [2^43]. *)
Definition unit_exp (W : Z) : Z := Z.max (Z.log2 W + 1 - 53) 43.

(** A number rounded to the format, on the same scale. *)
Definition rounded (W : Z) : Z := rne W (unit_exp W) * 2 ^ unit_exp W.

(** The mantissa of the float 1000.0, whose exponent is -43. *)
Definition thousand : positive := 8796093022208000.

(** The float [2^1010]. *)
Definition two_pow_1010 : float := S754_finite false 4503599627370496 958.

(** A reading of the clock that is a binary64 number, finite and below
    [2^1010] in absolute value. *)
Definition clock_in_range (t : float) : bool :=
  valid_binary prec emax t && SFltb (SFabs t) two_pow_1010.


(** ** Sample inputs *)

(** 1500000000.1234 and 1500000000.1236: two readings of the clock in the
    same millisecond. *)
Definition t_1234 : float := S754_finite false 6291456000517577 (-22).
Definition t_1236 : float := S754_finite false 6291456000518416 (-22).

Definition sample_clock (n : nat) : float :=
  match n with
  | O => t_1234
  | _ => t_1236
  end.

(** A clock that reads 1.0, then 2.0. *)
Definition slow_clock (n : nat) : float :=
  match n with
  | O => S754_finite false 4503599627370496 (-52)
  | _ => S754_finite false 4503599627370496 (-51)
  end.

(** A clock that is set back: 2.0, then 1.0. *)
Definition backward_clock (n : nat) : float :=
  match n with
  | O => S754_finite false 4503599627370496 (-51)
  | _ => S754_finite false 4503599627370496 (-52)
  end.

Definition no_file : config_file := mk_config_file None None None.

Definition sample_world (c : nat -> float) : world :=
  mk_world c 0 (fun _ => Ok JNull) (fun _ => no_file) [].

Definition sample_client : Poloniex :=
  mk_Poloniex "key" (bytes_of_string "secret") "https://api.poloniex.com/"
    "https://www.poloniex.com/" "wss://api.poloniex.com/".

Definition sample_params : dict pval :=
  [("command", PStr "returnBalances"); ("nonce", PInt 5)].

Definition sample_ticker (frozen : json) : list json :=
  [JStr "BTC_ETH"; JStr "0.05"; JStr "0.051"; JStr "0.049"; JStr "0.01";
   JStr "120.5"; JStr "2400.3"; frozen; JStr "0.06"; JStr "0.04"].

Definition sample_modify : json :=
  JDict [("type", JStr "orderBookModify");
         ("data", JDict [("amount", JStr "1.5"); ("rate", JStr "0.05")])].

Definition sample_remove : json :=
  JDict [("type", JStr "orderBookRemove");
         ("data", JDict [("rate", JStr "0.04")])].

Definition sample_trade : json :=
  JDict [("data", JDict [("tradeID", JStr "77"); ("rate", JStr "0.05");
                         ("amount", JStr "1.5"); ("total", JStr "0.075");
                         ("date", JStr "2020-01-01 00:00:00")])].

Definition sample_batch : list json := [sample_modify; sample_remove; sample_trade].

Definition bad_remove : json :=
  JDict [("type", JStr "orderBookRemove");
         ("data", JDict [("rate", JStr "0,04")])].

Definition bad_batch : list json := [sample_modify; bad_remove; sample_trade].

(** The float nearest to 0.05. *)
Definition float_0_05 : float := S754_finite false 7205759403792794 (-57).

(** The [command] parameter of each request in a trace. *)
Definition commands_sent (es : list event) : list (option pval) :=
  flat_map (fun e => match e with
                     | Requested r => [dict_get "command" (req_params r)]
                     | _ => []
                     end) es.

(** An INI file with an [apiKey] and no [secret] in its [CONFIG]
    section, which is neither JSON nor Python. *)
Definition ini_without_secret : config_file :=
  mk_config_file
    (Some (fun section option =>
             if String.eqb section "CONFIG" && String.eqb option "apiKey"
             then Some "key" else None))
    None None.

(** A JSON file without [secret]. *)
Definition json_without_secret : config_file :=
  mk_config_file None (Some (JDict [("apiKey", JStr "key")])) None.

Definition world_with_file (f : config_file) : world :=
  mk_world slow_clock 0 (fun _ => Ok JNull) (fun _ => f) [].




(** A removal without a rate. *)
Definition remove_without_rate : json :=
  JDict [("type", JStr "orderBookRemove"); ("data", JDict [])].

(** ** Proof steps used more than once *)

(** Splits on every condition of the goal. *)
Ltac case_ifs :=
  repeat match goal with
         | |- context [if ?b then _ else _] => destruct b
         end.


(** * Properties *)

(** ** Test vectors for the hash and the MAC *)

Example sha512_abc :
  Hmac.hex (Sha512.digest (bytes_of_string "abc")) =
  "ddaf35a193617abacc417349ae20413112e6fa4e89a97ea20a9eeee64b55d39a2192992a274fc1a836ba3c23a3feebbd454d4423643ce80e2a9ac94fa54ca49f".
Proof. vm_compute. reflexivity. Qed.

Example sha512_empty :
  Hmac.hex (Sha512.digest []) =
  "cf83e1357eefb8bdf1542850d66d8007d620e4050b5715dc83f4a921d36ce9ce47d0d13c5d85f2b0ff8318d2877eec2f63b931bd47417a81a538327af927da3e".
Proof. vm_compute. reflexivity. Qed.

Example hmac_sha512_fox :
  Hmac.hexdigest (bytes_of_string "key")
    (bytes_of_string "The quick brown fox jumps over the lazy dog") =
  "b42af09057bac1e2d41708e48a902e09b5ff7f12ab428a4fe86653c73dd248fb82f948a549f7b791a5b41915ee4d1ec3935357e4e2317250d0372afa2ebeeb3a".
Proof. vm_compute. reflexivity. Qed.

Example hmac_sha512_long_key :
  Hmac.hexdigest (repeat "k"%byte 200) (repeat "a"%byte 300) =
  "171a0467b7963a74c5d05ab79762f9f60c4f0a516ae6b0483bee9b3d302e3489a5b6fb2884b16e82f8d35781205d1f566b26dc683365037714fe6eca56df918b".
Proof. vm_compute. reflexivity. Qed.

(** ** The world and its trace *)

Lemma log_nil (w : world) : log [] w = w.
Proof. destruct w; unfold log; simpl; now rewrite app_nil_r. Qed.

Lemma log_log (es1 es2 : list event) (w : world) :
  log es2 (log es1 w) = log (es1 ++ es2) w.
Proof. unfold log; simpl; now rewrite app_assoc. Qed.

Lemma requests_get_run (url : string) (params : dict pval) (w : world) :
  requests_get url params w =
  (reply w (mk_request GET url params []),
   log [Requested (mk_request GET url params [])] w).
Proof. reflexivity. Qed.

Lemma requests_post_run url (data : dict pval) (headers : dict string) (w : world) :
  requests_post url data headers w =
  (reply w (mk_request POST url data headers),
   log [Requested (mk_request POST url data headers)] w).
Proof. reflexivity. Qed.

(** ** The commands of the public resources *)

(** C9, as the code has it: [trade_history] and [chart_data] send one GET
    request to the public resource with [command = returnOrderBook],
    whatever their arguments; [loan_orders] sends
    [command = returnLoanOrders]. *)
Theorem public_commands (self : Poloniex) (pair start end_ period currency : pval)
    (w : world) :
  (exists r,
      trade_history self pair start end_ w = (reply w r, log [Requested r] w)
      /\ req_verb r = GET /\ req_url r = public_url self
      /\ dict_get "command" (req_params r) = Some (PStr "returnOrderBook"))
  /\ (exists r,
      chart_data self pair start end_ period w = (reply w r, log [Requested r] w)
      /\ req_verb r = GET /\ req_url r = public_url self
      /\ dict_get "command" (req_params r) = Some (PStr "returnOrderBook"))
  /\ (exists r,
      loan_orders self currency w = (reply w r, log [Requested r] w)
      /\ req_verb r = GET /\ req_url r = public_url self
      /\ dict_get "command" (req_params r) = Some (PStr "returnLoanOrders")).
Proof.
  repeat split; eexists; (split; [apply requests_get_run | repeat split]).
Qed.

(** C9 as stated fails for [loan_orders]: the command it sends is not
    [returnOrderBook]. *)
Lemma loan_orders_sends_returnLoanOrders :
  commands_sent
    (trace (snd (loan_orders sample_client (PStr "BTC") (sample_world slow_clock))))
  = [Some (PStr "returnLoanOrders")]
  /\ commands_sent
       (trace (snd (loan_orders sample_client (PStr "BTC") (sample_world slow_clock))))
     <> [Some (PStr "returnOrderBook")].
Proof. split; [reflexivity | discriminate]. Qed.

(** ** Loading the credentials *)

Lemma try_ini_read_ini (f : config_file) (l : locals) :
  match read_ini f with
  | Some c => try_ini f l = (c, true)
  | None => snd (try_ini f l) = false /\ snd (fst (try_ini f l)) = snd l
  end.
Proof.
  unfold read_ini, try_ini.
  destruct (ini_view f) as [get|]; [|now split].
  destruct (get "CONFIG" "apiKey"); [|now split].
  destruct (get "CONFIG" "secret"); [reflexivity | now split].
Qed.

Lemma try_json_read_json (f : config_file) (l : locals) :
  match read_json f with
  | Some c => try_json f l = (c, true)
  | None => snd (try_json f l) = false /\ snd (fst (try_json f l)) = snd l
  end.
Proof.
  unfold read_json, try_json.
  destruct (json_view f) as [blob|]; [|now split].
  destruct blob; simpl; now try split.
Qed.

Lemma try_source_read_source (f : config_file) (l : locals) :
  match read_source f with
  | Some c => try_source f l = (c, true)
  | None => snd (try_source f l) = false /\ snd (fst (try_source f l)) = snd l
  end.
Proof.
  unfold read_source, try_source.
  destruct (source_view f) as [attr|]; [|now split].
  destruct (attr "api_key"); [|now split].
  destruct (attr "secret"); [reflexivity | now split].
Qed.

(** The loader is the ordered fallback of the specification; its last
    test never lets a pair through, because no [try] block that fails has
    assigned [secret]. *)
Lemma get_credentials_run (path : string) (w : world) :
  get_credentials path w =
  (match first_success [read_ini (files w path); read_json (files w path);
                        read_source (files w path)] with
   | Some c => Ok c
   | None => Raised (Exception msg_misconfigured)
   end, w).
Proof.
  unfold get_credentials, first_success; simpl.
  set (f := files w path).
  pose proof (try_ini_read_ini f (JNull, JNull)) as Hi.
  destruct (read_ini f) as [c|]; [now rewrite Hi|].
  destruct (try_ini f (JNull, JNull)) as [l1 r1]; simpl in Hi.
  destruct Hi as [-> H1].
  pose proof (try_json_read_json f l1) as Hj.
  destruct (read_json f) as [c|]; [now rewrite Hj|].
  destruct (try_json f l1) as [l2 r2]; simpl in Hj.
  destruct Hj as [-> H2].
  pose proof (try_source_read_source f l2) as Hs.
  destruct (read_source f) as [c|]; [now rewrite Hs|].
  destruct (try_source f l2) as [l3 r3]; simpl in Hs.
  destruct Hs as [-> H3].
  replace (snd l3) with JNull by congruence.
  now rewrite orb_true_r.
Qed.

(** C8: the loader tries INI, then JSON, then the source file, and stops
    at the first that succeeds; an INI file with [apiKey] and without
    [secret] is not a success, so the JSON reader and then the source
    reader decide; the configuration error is raised exactly when all
    three fail.  The world is left as it was. *)
Theorem get_credentials_fallback (path : string) (w : world) :
  let f := files w path in
  get_credentials path w =
    (match read_ini f with
     | Some c => Ok c
     | None =>
         match read_json f with
         | Some c => Ok c
         | None =>
             match read_source f with
             | Some c => Ok c
             | None => Raised (Exception msg_misconfigured)
             end
         end
     end, w)
  /\ (forall get k,
        ini_view f = Some get ->
        get "CONFIG" "apiKey" = Some k -> get "CONFIG" "secret" = None ->
        get_credentials path w =
          (match read_json f with
           | Some c => Ok c
           | None =>
               match read_source f with
               | Some c => Ok c
               | None => Raised (Exception msg_misconfigured)
               end
           end, w))
  /\ ((exists e, fst (get_credentials path w) = Raised e) <->
      read_ini f = None /\ read_json f = None /\ read_source f = None)
  /\ (forall e, fst (get_credentials path w) = Raised e ->
                e = Exception msg_misconfigured).
Proof.
  intros f. rewrite get_credentials_run. fold f. unfold first_success; simpl.
  split; [now destruct (read_ini f), (read_json f), (read_source f)|]. split.
  - intros get k Hv Hk Hs.
    assert (Hi : read_ini f = None) by (unfold read_ini; now rewrite Hv, Hk, Hs).
    rewrite Hi. now destruct (read_json f), (read_source f).
  - split.
    + split.
      * intros [e He]. destruct (read_ini f), (read_json f), (read_source f);
          simpl in He; try discriminate; auto.
      * intros (-> & -> & ->). now eexists.
    + intros e. destruct (read_ini f), (read_json f), (read_source f);
        simpl; intros He; try discriminate; congruence.
Qed.

(** The scenario of C8 on a concrete file: the INI reader finds [apiKey]
    and no [secret], the other two readers fail, the loader raises. *)
Example ini_without_secret_raises :
  get_credentials "config.ini" (world_with_file ini_without_secret) =
  (Raised (Exception msg_misconfigured), world_with_file ini_without_secret).
Proof. reflexivity. Qed.

(** ** Constructing the client *)

Lemma init_with_arguments (api_key secret : json) (w : world) :
  is_None api_key || is_None secret = false ->
  init None api_key secret w =
  match encode secret with
  | Raised e => (Raised e, w)
  | Ok b =>
      match api_key with
      | JStr k =>
          if String.eqb (strip k) ""
          then (Raised (Exception msg_no_credentials), w)
          else (Ok (mk_Poloniex k b "https://api.poloniex.com/"
                      "https://www.poloniex.com/" "wss://api.poloniex.com/"), w)
      | JNull => (Raised (Exception msg_no_credentials), w)
      | _ => (Raised AttributeError, w)
      end
  end.
Proof.
  intros H. unfold init, bind, lift, ret, raise. simpl. rewrite H. simpl.
  destruct (encode secret) as [b|e]; [|reflexivity].
  destruct api_key; try reflexivity.
  simpl. now destruct (String.eqb (strip s) "").
Qed.

(** Without a path and without one of the two arguments the constructor
    raises at once; the world, and so the trace, is untouched. *)
Lemma init_needs_arguments (api_key secret : json) (w : world) :
  is_None api_key || is_None secret = true ->
  init None api_key secret w = (Raised (Exception msg_need_arguments), w).
Proof.
  intros H. unfold init, bind, raise. simpl. now rewrite H.
Qed.

(** The constructor never touches the trace: whatever it is given, it
    sends nothing. *)
Lemma init_trace (path : option string) (api_key secret : json) (w : world) :
  snd (init path api_key secret w) = w.
Proof.
  unfold init, bind, lift, ret, raise.
  destruct path as [p|]; simpl.
  - rewrite get_credentials_run.
    destruct (first_success _) as [[k s]|]; [|reflexivity].
    destruct (encode s); [|reflexivity].
    destruct k; try reflexivity.
    simpl. now case_ifs.
  - destruct (is_None api_key || is_None secret); [reflexivity|]. simpl.
    destruct (encode secret); [|reflexivity].
    destruct api_key; try reflexivity.
    simpl. now case_ifs.
Qed.

(** An absent or blank key makes the constructor fail. *)
Lemma init_rejects_blank_key (path : option string) (api_key secret : json) (w : world) :
  (api_key = JNull \/ exists k, api_key = JStr k /\ strip k = "") ->
  path = None ->
  exists e, init path api_key secret w = (Raised e, w).
Proof.
  intros Hk ->.
  destruct (is_None api_key || is_None secret) eqn:Hn.
  - rewrite init_needs_arguments by assumption. now eexists.
  - rewrite init_with_arguments by assumption.
    destruct (encode secret); [|now eexists].
    destruct Hk as [-> | (k & -> & Hs)]; [now eexists|].
    rewrite Hs. now eexists.
Qed.

(** C7 at the failing input: with a key and an empty secret, and no path,
    the constructor returns a client whose secret is the empty byte
    string.  The test [self.secret.strip() == ''] compares a [bytes]
    object with a [str], which is never equal. *)
Theorem init_accepts_empty_secret (w : world) :
  init None (JStr "key") (JStr "") w =
  (Ok (mk_Poloniex "key" [] "https://api.poloniex.com/"
         "https://www.poloniex.com/" "wss://api.poloniex.com/"), w).
Proof. reflexivity. Qed.

(** The same for any key that is not blank and any secret, blank or not. *)
Lemma init_accepts_any_secret (k s : string) (w : world) :
  strip k <> "" ->
  init None (JStr k) (JStr s) w =
  (Ok (mk_Poloniex k (encode_utf8 s) "https://api.poloniex.com/"
         "https://www.poloniex.com/" "wss://api.poloniex.com/"), w).
Proof.
  intros H. rewrite init_with_arguments by reflexivity. simpl.
  apply String.eqb_neq in H. now rewrite H.
Qed.

(** C10: when the INI reader fails and the file is a JSON object that
    lacks [apiKey] or [secret], the loader returns [None] for what is
    missing, whatever the source reader would have made of the file, and
    raises nothing; the constructor then fails on its own: with an
    [AttributeError] when the secret is [None], with the exception of the
    emptiness check when only the key is. *)
Theorem json_missing_key (path : string) (w : world) (iv : option (string -> string -> option string))
    (d : list (string * json)) (sv : option (string -> option json))
    (a s : json) :
  files w path = mk_config_file iv (Some (JDict d)) sv ->
  read_ini (files w path) = None ->
  dict_get "apiKey" d = None \/ dict_get "secret" d = None ->
  get_credentials path w =
    (Ok (match dict_get "apiKey" d with Some k => k | None => JNull end,
         match dict_get "secret" d with Some x => x | None => JNull end), w)
  /\ (dict_get "secret" d = None ->
      init (Some path) a s w = (Raised AttributeError, w))
  /\ (forall x, dict_get "apiKey" d = None -> dict_get "secret" d = Some (JStr x) ->
      init (Some path) a s w = (Raised (Exception msg_no_credentials), w))
  /\ (exists e, init (Some path) a s w = (Raised e, w)
                /\ e <> Exception msg_misconfigured).
Proof.
  intros Hf Hi Hm.
  assert (Hg : get_credentials path w =
    (Ok (match dict_get "apiKey" d with Some k => k | None => JNull end,
         match dict_get "secret" d with Some x => x | None => JNull end), w)).
  { rewrite get_credentials_run. unfold first_success; simpl.
    rewrite Hi. unfold read_json. now rewrite Hf. }
  split; [exact Hg|].
  assert (Hinit : init (Some path) a s w =
    (let k := match dict_get "apiKey" d with Some k => k | None => JNull end in
     let x := match dict_get "secret" d with Some x => x | None => JNull end in
     match encode x with
     | Raised e => (Raised e, w)
     | Ok b =>
         match k with
         | JNull => (Raised (Exception msg_no_credentials), w)
         | JStr k' =>
             if String.eqb (strip k') ""
             then (Raised (Exception msg_no_credentials), w)
             else (Ok (mk_Poloniex k' b "https://api.poloniex.com/"
                         "https://www.poloniex.com/" "wss://api.poloniex.com/"), w)
         | _ => (Raised AttributeError, w)
         end
     end)).
  { unfold init, bind, lift, ret, raise. simpl. rewrite Hg. simpl.
    destruct (encode _); [|reflexivity].
    destruct (match dict_get "apiKey" d with Some k => k | None => JNull end);
      try reflexivity.
    simpl. now destruct (String.eqb (strip s0) ""). }
  rewrite Hinit. simpl.
  split; [|split].
  - intros ->. reflexivity.
  - intros x -> ->. reflexivity.
  - assert (He : forall x, match encode x with
                            | Raised e => e = AttributeError
                            | Ok _ => True
                            end) by (now destruct x).
    destruct Hm as [Hk | Hs].
    + rewrite Hk.
      specialize (He (match dict_get "secret" d with Some x => x | None => JNull end)).
      destruct (encode _); eexists; (split; [reflexivity|]).
      * unfold msg_no_credentials, msg_misconfigured. discriminate.
      * subst. discriminate.
    + rewrite Hs. simpl. eexists; (split; [reflexivity | discriminate]).
Qed.

(** C10 on a concrete file: a JSON object with [apiKey] only. *)
Lemma json_missing_key_witness :
  get_credentials "config.json" (world_with_file json_without_secret) =
    (Ok (JStr "key", JNull), world_with_file json_without_secret)
  /\ init (Some "config.json") JNull JNull (world_with_file json_without_secret) =
     (Raised AttributeError, world_with_file json_without_secret).
Proof.
  pose proof (json_missing_key "config.json" (world_with_file json_without_secret)
                None [("apiKey", JStr "key")] None JNull JNull
                eq_refl eq_refl (or_intror eq_refl)) as (H1 & H2 & _).
  split; [exact H1 | exact (H2 eq_refl)].
Defined.

(** ** The ticker wrapper *)

(** C4: on the ticker message of the specification, with any value in
    the eighth position, the wrapper calls the callback once;
    [is_frozen] is the truth value of "the eighth value equals 1", so
    [False] for 0; [last] is the decimal 5E-2, exactly 1/20, which the
    nearest float's decimal expansion is not. *)
Theorem ticker_sample (frozen : json) (kwargs : dict json) (w : world) :
  ticker_wrapper (sample_ticker frozen) kwargs w =
    (Ok tt,
     log [TickerCallback
            (mk_ticker_update (JStr "BTC_ETH")
               (DFinite false 5 (-2)) (DFinite false 51 (-3))
               (DFinite false 49 (-3)) (DFinite false 1 (-2))
               (DFinite false 1205 (-1)) (DFinite false 24003 (-1))
               (eq_int frozen 1)
               (DFinite false 6 (-2)) (DFinite false 4 (-2)))] w)
  /\ eq_int (JInt 0) 1 = false
  /\ eq_int (JInt 1) 1 = true
  /\ decimal_is (DFinite false 5 (-2)) 1 20
  /\ Decimal (JFloat float_0_05) <> Ok (DFinite false 5 (-2))
  /\ ~ decimal_is (Decimal_of_float float_0_05) 1 20.
Proof.
  split; [reflexivity|].
  split; [reflexivity|].
  split; [reflexivity|].
  split; [reflexivity|].
  split; [discriminate|].
  vm_compute. discriminate.
Qed.

(** Whatever the message, when the ticker wrapper returns it has called
    the callback exactly once, with [is_frozen] telling whether the
    eighth argument equals 1. *)
Lemma ticker_frozen_flag (args : list json) (kwargs : dict json) (w w' : world) :
  ticker_wrapper args kwargs w = (Ok tt, w') ->
  exists u v,
    w' = log [TickerCallback u] w
    /\ nth_error args 7 = Some v
    /\ is_frozen u = eq_int v 1.
Proof.
  unfold ticker_wrapper, bind, lift, emit, Decimal_at, index, rbind.
  intros H.
  do 10 (destruct args as [|? args]; [cbn in H;
    repeat match type of H with
           | context [Decimal ?v] => destruct (Decimal v); cbn in H
           end; discriminate|]).
  cbn in H.
  repeat match type of H with
         | context [Decimal ?v] => destruct (Decimal v); cbn in H
         end; try discriminate.
  injection H as <-. do 2 eexists. repeat split.
Qed.

(** ** The order book wrapper *)

(** One turn of the loop normalizes one entry, appends it to its list and
    prints it if it is a trade; an exception leaves the world as it is. *)
Lemma order_book_step_run (acc : books) (arg : json) (w : world) :
  order_book_step acc arg w =
  match normalize_entry arg with
  | Ok e => (Ok (add_entry acc e), log (printed e) w)
  | Raised x => (Raised x, w)
  end.
Proof.
  destruct acc as [[ms rs] ts].
  unfold order_book_step, normalize_entry, bind, lift, rbind, ret, emit.
  destruct (py_get arg "data") as [data|]; [|reflexivity].
  destruct (py_get arg "type") as [tag|]; [|reflexivity].
  destruct (eq_str tag "orderBookModify").
  - destruct (Decimal_get data "amount"); [|reflexivity].
    destruct (Decimal_get data "rate"); [|reflexivity].
    destruct (py_get data "type"); [|reflexivity].
    simpl. now rewrite log_nil.
  - destruct (eq_str tag "orderBookRemove").
    + destruct (Decimal_get data "rate"); [|reflexivity].
      destruct (py_get data "type"); [|reflexivity].
      simpl. now rewrite log_nil.
    + destruct (py_get data "tradeID"); [|reflexivity].
      destruct (Decimal_get data "rate"); [|reflexivity].
      destruct (Decimal_get data "amount"); [|reflexivity].
      destruct (Decimal_get data "total"); [|reflexivity].
      destruct (py_get data "date") as [d|]; [|reflexivity].
      simpl. destruct (strptime d); [|reflexivity].
      destruct (py_get data "type"); reflexivity.
Qed.

Lemma add_entry_fold (es : list entry) (ms : list modification)
    (rs : list removal) (ts : list trade) :
  fold_left add_entry es (ms, rs, ts) =
  (ms ++ modifications_of es, rs ++ removals_of es, ts ++ trades_of es).
Proof.
  revert ms rs ts. induction es as [|e es IH]; intros; simpl.
  - now rewrite !app_nil_r.
  - destruct e; simpl; rewrite IH, <- app_assoc; reflexivity.
Qed.

Lemma printed_flat_map (es : list entry) :
  flat_map printed es = map Pprinted (trades_of es).
Proof.
  induction es as [|[m|r|t] es IH]; simpl; congruence.
Qed.

(** The loop over a batch every entry of which normalizes. *)
Lemma order_book_loop_ok (args : list json) (es : list entry) (acc : books) (w : world) :
  normalize_all args = Ok es ->
  order_book_loop acc args w =
  (Ok (fold_left add_entry es acc), log (flat_map printed es) w).
Proof.
  revert es acc w. induction args as [|arg args IH]; intros es acc w H; simpl in *.
  - injection H as <-. simpl. now rewrite log_nil.
  - unfold bind. rewrite order_book_step_run.
    destruct (normalize_entry arg) as [e|]; [|discriminate]. simpl in H.
    destruct (normalize_all args) as [es'|]; [|discriminate]. simpl in H.
    injection H as <-. rewrite (IH es') by reflexivity.
    simpl. now rewrite log_log.
Qed.

(** The loop over a batch with an entry that does not normalize: the
    exception of the first such entry leaves the loop; only the printing
    of the trades before it has happened. *)
Lemma order_book_loop_raised (args : list json) (x : exn) (acc : books) (w : world) :
  normalize_all args = Raised x ->
  exists ts, order_book_loop acc args w = (Raised x, log (map Pprinted ts) w).
Proof.
  revert acc w. induction args as [|arg args IH]; intros acc w H; simpl in *.
  - discriminate.
  - unfold bind. rewrite order_book_step_run.
    destruct (normalize_entry arg) as [e|y]; simpl in H.
    + destruct (normalize_all args) as [es'|y]; [discriminate|]. simpl in H.
      injection H as ->.
      destruct (IH (add_entry acc e) (log (printed e) w) eq_refl) as [ts Hts].
      rewrite Hts, log_log.
      exists (trades_of [e] ++ ts).
      rewrite map_app, <- printed_flat_map. simpl. now rewrite app_nil_r.
    + injection H as ->. exists []. simpl. now rewrite log_nil.
Qed.


















(** The same batch, run: the exception is [InvalidOperation]; the trade
    after the bad entry is never reached, nothing is printed, nothing is
    called. *)
Example bad_batch_run :
  order_book_wrapper bad_batch [("seq", JInt 7)] (sample_world slow_clock) =
  (Raised InvalidOperation, sample_world slow_clock).
Proof. reflexivity. Qed.


(** The exception of a batch with a malformed entry is not always a
    parse error: a removal without a rate, placed before the removal
    with the malformed rate, raises [TypeError] first. *)
Example missing_rate_hides_the_parse_error :
  Exists malformed_entry [remove_without_rate; bad_remove]
  /\ order_book_wrapper [remove_without_rate; bad_remove] [] (sample_world slow_clock) =
     (Raised TypeError, sample_world slow_clock).
Proof.
  split; [|reflexivity].
  apply Exists_cons_tl, Exists_cons_hd.
  exists [("rate", JStr "0,04")], (JStr "orderBookRemove").
  split; [reflexivity|]. split; [reflexivity|]. left.
  exists "rate", (JStr "0,04"). split; [simpl; tauto|]. split; [reflexivity|].
  exists "0,04". split; reflexivity.
Qed.

(** ** Dictionaries *)

Lemma dict_get_set_same {V} (k : string) (v : V) (d : dict V) :
  dict_get k (dict_set k v d) = Some v.
Proof.
  induction d as [|[k' v'] d IH]; simpl.
  - now rewrite String.eqb_refl.
  - destruct (String.eqb k k') eqn:E; simpl; rewrite E; auto.
Qed.

Lemma dict_get_set_other {V} (k k' : string) (v : V) (d : dict V) :
  k' <> k -> dict_get k' (dict_set k v d) = dict_get k' d.
Proof.
  intros Hne. induction d as [|[k0 v0] d IH]; simpl.
  - apply String.eqb_neq in Hne. now rewrite Hne.
  - destruct (String.eqb k k0) eqn:E; simpl.
    + apply String.eqb_eq in E. subst k0.
      apply String.eqb_neq in Hne. now rewrite Hne.
    + now rewrite IH.
Qed.

Lemma dict_set_set {V} (k : string) (v1 v2 : V) (d : dict V) :
  dict_set k v2 (dict_set k v1 d) = dict_set k v2 d.
Proof.
  induction d as [|[k' v'] d IH]; simpl.
  - now rewrite String.eqb_refl.
  - destruct (String.eqb k k') eqn:E; simpl; rewrite E; congruence.
Qed.

(** Assigning to a key keeps the items before and after it; a new key
    goes last. *)
Lemma dict_set_split {V} (k : string) (d : dict V) :
  exists pre post, forall v, dict_set k v d = pre ++ (k, v) :: post.
Proof.
  induction d as [|[k' v'] d (pre & post & IH)]; simpl.
  - now exists [], [].
  - destruct (String.eqb k k') eqn:E.
    + apply String.eqb_eq in E. subst k'. now exists [], d.
    + exists ((k', v') :: pre), post. intros v. now rewrite IH.
Qed.

Lemma keys_dict_set {V} (k : string) (v : V) (d : dict V) :
  keys (dict_set k v d) =
  if existsb (String.eqb k) (keys d) then keys d else keys d ++ [k].
Proof.
  unfold keys. induction d as [|[k' v'] d IH]; simpl; [reflexivity|].
  destruct (String.eqb k k') eqn:E; simpl.
  - apply String.eqb_eq in E. now subst.
  - rewrite IH. now destruct (existsb _ _).
Qed.

(** ** The encoding of the nonce *)

Lemma append_assoc (a b c : string) : ((a ++ b) ++ c = a ++ (b ++ c))%string.
Proof. induction a; simpl; congruence. Qed.

Lemma append_inv_head (a b c : string) : (a ++ b = a ++ c)%string -> b = c.
Proof. induction a; simpl; intros H; [assumption|]. injection H. auto. Qed.

Lemma length_append (a b : string) :
  String.length (a ++ b) = (String.length a + String.length b)%nat.
Proof. induction a; simpl; congruence. Qed.

Lemma append_inv_tail (a b c : string) : (a ++ c = b ++ c)%string -> a = b.
Proof.
  revert b. induction a as [|x a IH]; intros [|y b] H; simpl in *.
  - reflexivity.
  - apply (f_equal String.length) in H. simpl in H. rewrite length_append in H. lia.
  - apply (f_equal String.length) in H. simpl in H. rewrite length_append in H. lia.
  - injection H as -> H. f_equal. now apply IH.
Qed.

Lemma str_of_int_inj (n m : Z) : str_of_int n = str_of_int m -> n = m.
Proof.
  unfold str_of_int. intros H.
  apply DecimalZ.to_int_inj.
  assert (Hnn : forall z, Z.to_int z <> Decimal.Pos Decimal.Nil
                          /\ Z.to_int z <> Decimal.Neg Decimal.Nil).
  { intros [|p|p]; simpl; split; try discriminate;
      intros E; injection E; apply DecimalPos.Unsigned.to_uint_nonnil. }
  apply (f_equal DecimalString.NilZero.int_of_string) in H.
  rewrite !DecimalString.NilZero.isi in H by apply Hnn.
  congruence.
Qed.

Lemma concat_cons (sep x : string) (l : list string) :
  String.concat sep (x :: l) =
  match l with
  | [] => x
  | _ => (x ++ sep ++ String.concat sep l)%string
  end.
Proof. now destruct l. Qed.

Lemma append_nil_r (s : string) : (s ++ "")%string = s.
Proof. induction s; simpl; congruence. Qed.

Lemma concat_empty_sep_cons (x : string) (l : list string) :
  String.concat "" (x :: l) = (x ++ String.concat "" l)%string.
Proof. destruct l; simpl; [now rewrite append_nil_r | reflexivity]. Qed.

(** Joining a list with one element singled out: what is before and what
    is after that element does not depend on it. *)
Lemma concat_middle (sep : string) (l1 l2 : list string) :
  exists a b, forall x,
    String.concat sep (l1 ++ x :: l2) = (a ++ x ++ b)%string.
Proof.
  induction l1 as [|y l1 (a & b & IH)].
  - exists "". destruct l2 as [|z l2].
    + exists "". intros x. simpl. now rewrite append_nil_r.
    + exists (sep ++ String.concat sep (z :: l2))%string. intros x. reflexivity.
  - exists (y ++ sep ++ a)%string, b. intros x.
    change ((y :: l1) ++ x :: l2) with (y :: (l1 ++ x :: l2)).
    rewrite concat_cons, IH.
    destruct (l1 ++ x :: l2) eqn:E; [now destruct l1|].
    now rewrite !append_assoc.
Qed.

Lemma quote_safe_char (c : ascii) :
  safe_char c = true -> map quote_byte (utf8_char c) = [String c EmptyString].
Proof.
  destruct c as [[] [] [] [] [] [] [] []]; vm_compute; intros H;
    first [reflexivity | discriminate H].
Qed.

(** [quote_plus] leaves a string of unreserved ASCII characters as it
    is. *)
Lemma quote_plus_safe (s : string) :
  all_chars safe_char s = true -> quote_plus s = s.
Proof.
  unfold quote_plus. induction s as [|c s IH]; simpl; [reflexivity|].
  intros H. apply andb_prop in H as [Hc Hs].
  rewrite map_app, quote_safe_char by assumption.
  simpl app. rewrite concat_empty_sep_cons, IH by assumption. reflexivity.
Qed.

Lemma str_of_uint_safe (d : Decimal.uint) :
  all_chars safe_char (DecimalString.NilEmpty.string_of_uint d) = true.
Proof. induction d; simpl; auto. Qed.

Lemma str_of_int_safe (n : Z) : all_chars safe_char (str_of_int n) = true.
Proof.
  unfold str_of_int, DecimalString.NilZero.string_of_int,
    DecimalString.NilZero.string_of_uint.
  destruct (Z.to_int n) as [d|d]; destruct d; simpl;
    try reflexivity; apply str_of_uint_safe.
Qed.

Lemma first_char_utf8 (c : ascii) (r : bytes) :
  first_char (utf8_char c ++ r) = Some (c, r).
Proof.
  destruct c as [[] [] [] [] [] [] [] []]; reflexivity.
Qed.

Lemma encode_utf8_inj (s t : string) : encode_utf8 s = encode_utf8 t -> s = t.
Proof.
  revert t. induction s as [|c s IH]; intros [|c' t] H; simpl in H.
  - reflexivity.
  - apply (f_equal first_char) in H. rewrite first_char_utf8 in H. discriminate.
  - apply (f_equal first_char) in H. rewrite first_char_utf8 in H. discriminate.
  - apply (f_equal first_char) in H. rewrite !first_char_utf8 in H.
    injection H as -> H. f_equal. now apply IH.
Qed.

(** Two parameter mappings that differ in the nonce only have different
    encodings. *)
Lemma urlencode_nonce_inj (params : dict pval) (n m : Z) :
  urlencode (dict_set "nonce" (PInt n) params) =
  urlencode (dict_set "nonce" (PInt m) params) -> n = m.
Proof.
  destruct (dict_set_split "nonce" params) as (pre & post & Hs).
  rewrite !Hs. unfold urlencode. rewrite !map_app. simpl map.
  destruct (concat_middle "&" (map urlencode_item pre) (map urlencode_item post))
    as (a & b & Hc).
  rewrite !Hc. intros H.
  apply append_inv_head, append_inv_tail in H.
  unfold urlencode_item in H; simpl fst in H; simpl snd in H.
  apply append_inv_head, append_inv_head in H.
  simpl pval_str in H. rewrite !quote_plus_safe in H by apply str_of_int_safe.
  now apply str_of_int_inj.
Qed.

(** ** The float product behind the nonce *)

Lemma iter_f_comm {A} (f : A -> A) (n : nat) (y : A) :
  Nat.iter n f (f y) = f (Nat.iter n f y).
Proof. induction n; simpl; congruence. Qed.

Lemma iter_pos_nat {A} (f : A -> A) (p : positive) (x : A) :
  iter_pos f p x = Nat.iter (Pos.to_nat p) f x.
Proof.
  revert x. induction p as [p IH|p IH|]; intros x; cbn [iter_pos].
  - rewrite !IH, Pos2Nat.inj_xI.
    replace (S (2 * Pos.to_nat p)) with (Pos.to_nat p + S (Pos.to_nat p))%nat by lia.
    rewrite Nat.iter_add. cbn [Nat.iter nat_rect]. now rewrite iter_f_comm.
  - rewrite !IH, Pos2Nat.inj_xO.
    replace (2 * Pos.to_nat p)%nat with (Pos.to_nat p + Pos.to_nat p)%nat by lia.
    now rewrite Nat.iter_add.
  - reflexivity.
Qed.

Lemma shr_1_nonneg (m : Z) (r s : bool) :
  0 <= m ->
  shr_1 (Build_shr_record m r s) = Build_shr_record (m / 2) (Z.odd m) (r || s).
Proof.
  intros H. rewrite <- Z.div2_div.
  destruct m as [|[p|p|]|p]; try reflexivity. lia.
Qed.

(** After [k+1] shifts: the quotient, the last bit shifted out, and
    whether anything was shifted out before it. *)
Lemma shr_iter (M : Z) (k : nat) :
  0 <= M ->
  Nat.iter (S k) shr_1 (Build_shr_record M false false) =
  Build_shr_record (M / 2 ^ Z.of_nat (S k))
    (Z.odd (M / 2 ^ Z.of_nat k))
    (negb (M mod 2 ^ Z.of_nat k =? 0)).
Proof.
  intros HM. induction k as [|k IH].
  - cbn [Nat.iter nat_rect]. rewrite shr_1_nonneg by assumption.
    change (2 ^ Z.of_nat 1) with 2. change (2 ^ Z.of_nat 0) with 1.
    now rewrite Z.div_1_r, Z.mod_1_r.
  - rewrite Nat.iter_succ, IH, shr_1_nonneg by (apply Z.div_pos; [lia | apply Z.pow_pos_nonneg; lia]).
    f_equal.
    + rewrite Z.div_div by (try apply Z.pow_pos_nonneg; lia).
      f_equal. rewrite (Nat2Z.inj_succ (S k)), Z.pow_succ_r by lia. lia.
    + rewrite (Nat2Z.inj_succ k), Z.pow_succ_r by lia.
      rewrite Z.mul_comm, Z.rem_mul_r by (try apply Z.pow_nonzero; lia).
      assert (Hp : 0 < 2 ^ Z.of_nat k) by (apply Z.pow_pos_nonneg; lia).
      pose proof (Z.mod_pos_bound M (2 ^ Z.of_nat k) Hp).
      pose proof (Z.mod_pos_bound (M / 2 ^ Z.of_nat k) 2 ltac:(lia)).
      rewrite Zodd_mod.
      destruct (Z.eqb_spec ((M / 2 ^ Z.of_nat k) mod 2) 1);
      destruct (Z.eqb_spec (M mod 2 ^ Z.of_nat k) 0); simpl;
      symmetry; [apply negb_true_iff | apply negb_true_iff | apply negb_false_iff | apply negb_true_iff];
      try apply Z.eqb_neq; try apply Z.eqb_eq; nia.
Qed.

Lemma digits2_log2 (p : positive) : Z.pos (digits2_pos p) = Z.log2 (Z.pos p) + 1.
Proof.
  induction p as [p IH|p IH|]; simpl digits2_pos; try reflexivity.
  - rewrite Pos2Z.inj_succ, IH.
    change (Z.pos p~1) with (2 * Z.pos p + 1). rewrite Z.log2_succ_double; lia.
  - rewrite Pos2Z.inj_succ, IH.
    change (Z.pos p~0) with (2 * Z.pos p). rewrite Z.log2_double; lia.
Qed.

Lemma fexp_eq (k : Z) : fexp prec emax k = Z.max (k - 53) (-1074).
Proof. reflexivity. Qed.

Lemma round_shr (M : Z) (p : positive) :
  0 <= M ->
  let mrs := iter_pos shr_1 p (Build_shr_record M false false) in
  shr_m mrs = M / 2 ^ Z.pos p
  /\ round_nearest_even (shr_m mrs) (loc_of_shr_record mrs) = rne M (Z.pos p).
Proof.
  intros HM mrs. subst mrs. rewrite iter_pos_nat.
  destruct (Pos2Nat.is_succ p) as [k Hk]. rewrite Hk.
  rewrite shr_iter by assumption.
  assert (En : Z.pos p = Z.of_nat (S k)) by (rewrite <- Hk; now rewrite positive_nat_Z).
  rewrite En. split; [reflexivity|].
  unfold rne. cbn [shr_m loc_of_shr_record].
  replace (Z.of_nat (S k) - 1) with (Z.of_nat k) by lia.
  set (a := Z.of_nat k).
  assert (Ha : 0 <= a) by (unfold a; lia).
  replace (Z.of_nat (S k)) with (Z.succ a) by (unfold a; lia).
  assert (Hp : 0 < 2 ^ a) by (apply Z.pow_pos_nonneg; lia).
  assert (Hrem : M mod 2 ^ Z.succ a = M mod 2 ^ a + 2 ^ a * ((M / 2 ^ a) mod 2)).
  { rewrite Z.pow_succ_r, Z.mul_comm by lia. apply Z.rem_mul_r; lia. }
  rewrite Hrem.
  pose proof (Z.mod_pos_bound M (2 ^ a) Hp) as B1.
  pose proof (Z.mod_pos_bound (M / 2 ^ a) 2 ltac:(lia)) as B2.
  rewrite Zodd_mod.
  destruct (Z.eqb_spec ((M / 2 ^ a) mod 2) 1) as [E1|E1].
  - rewrite E1, Z.mul_1_r.
    destruct (Z.eqb_spec (M mod 2 ^ a) 0) as [E0|E0]; simpl.
    + rewrite E0, Z.add_0_l, Z.ltb_irrefl. reflexivity.
    + replace (M mod 2 ^ a + 2 ^ a <? 2 ^ a) with false by (symmetry; apply Z.ltb_ge; lia).
      replace (2 ^ a <? M mod 2 ^ a + 2 ^ a) with true by (symmetry; apply Z.ltb_lt; lia).
      reflexivity.
  - assert (E2 : (M / 2 ^ a) mod 2 = 0) by lia.
    rewrite E2, Z.mul_0_r, Z.add_0_r.
    replace (M mod 2 ^ a <? 2 ^ a) with true by (symmetry; apply Z.ltb_lt; lia).
    now destruct (Z.eqb_spec (M mod 2 ^ a) 0).
Qed.

Lemma rne_bounds (M n : Z) :
  0 <= M -> 0 < n -> M / 2 ^ n <= rne M n <= M / 2 ^ n + 1.
Proof.
  intros. unfold rne.
  destruct (_ <? _); [lia|]. destruct (_ <? _); [lia|]. destruct (Z.even _); lia.
Qed.

Lemma floor_scale_shift (N f : Z) :
  0 <= N -> floor_scale (2 * N) f = floor_scale N (f + 1).
Proof.
  intros HN. unfold floor_scale.
  destruct (Z.leb_spec 0 f); destruct (Z.leb_spec 0 (f + 1)); try lia.
  - rewrite Z.pow_add_r by lia. change (2 ^ 1) with 2. lia.
  - assert (f = -1) by lia. subst. simpl (- -1). simpl (-1 + 1).
    change (2 ^ 1) with 2. change (2 ^ 0) with 1.
    rewrite Z.mul_comm, Z.div_mul by lia. lia.
  - replace (- f) with (- (f + 1) + 1) by lia.
    rewrite Z.pow_add_r by lia. change (2 ^ 1) with 2.
    rewrite (Z.mul_comm (2 ^ _) 2).
    rewrite Z.div_mul_cancel_l; try lia.
    all: try (apply Z.pow_nonzero; lia).
Qed.

Lemma int_of_float_finite (m : positive) (e : Z) :
  int_of_float (S754_finite false m e) = Ok (floor_scale (Z.pos m) e).
Proof. reflexivity. Qed.

(** The second normalization of [binary_round_aux]: it keeps the value;
    only a mantissa of [2^53], the carry of the rounding, is shifted. *)
Lemma renormalize_int (q1 e' z : Z) :
  0 <= q1 <= 2 ^ 53 -> -1074 <= e' ->
  int_of_float
    (let '(mrs, e'') := shr_fexp prec emax q1 e' loc_Exact in
     match shr_m mrs with
     | 0 => S754_zero false
     | Z.pos m =>
         if e'' <=? emax - prec then S754_finite false m e'' else S754_infinity false
     | Z.neg _ => S754_nan
     end) = Ok z ->
  z = floor_scale q1 e'.
Proof.
  intros Hq1 He'. unfold shr_fexp.
  destruct q1 as [|m1|m1]; try lia.
  - cbn [Zdigits2 shr_record_of_loc].
    assert (Hs : shr (Build_shr_record 0 false false) e' (fexp prec emax (0 + e') - e')
                 = (Build_shr_record 0 false false, e')).
    { unfold shr. rewrite fexp_eq.
      destruct (Z.max (0 + e' - 53) (-1074) - e') eqn:En2; try reflexivity. lia. }
    rewrite Hs. cbn [shr_m]. intros H. cbn in H. injection H as <-.
    unfold floor_scale. now destruct (0 <=? e').
  - cbn [Zdigits2 shr_record_of_loc]. rewrite digits2_log2.
    pose proof (Z.log2_spec (Z.pos m1) ltac:(lia)) as [Hl1 Hl2].
    destruct (Z.eq_dec (Z.pos m1) (2 ^ 53)) as [Hc|Hc].
    + assert (Hm : m1 = 9007199254740992%positive) by (injection Hc; auto).
      subst m1.
      change (Z.log2 (Z.pos 9007199254740992)) with 53.
      replace (fexp prec emax (53 + 1 + e') - e') with 1 by (rewrite fexp_eq; lia).
      change (shr (Build_shr_record (Z.pos 9007199254740992) false false) e' 1)
        with (Build_shr_record (Z.pos 4503599627370496) false false, e' + 1).
      cbn [shr_m].
      destruct (e' + 1 <=? emax - prec); [|discriminate].
      rewrite int_of_float_finite. intros H; injection H as <-.
      change (Z.pos 9007199254740992) with (2 * Z.pos 4503599627370496).
      now rewrite floor_scale_shift by lia.
    + assert (Hlog : Z.log2 (Z.pos m1) <= 52).
      { apply Z.lt_succ_r. apply (Z.pow_lt_mono_r_iff 2); try lia.
        all: try (change (Z.succ 52) with 53; lia). }
      assert (Hs : shr (Build_shr_record (Z.pos m1) false false) e'
                     (fexp prec emax (Z.log2 (Z.pos m1) + 1 + e') - e')
                   = (Build_shr_record (Z.pos m1) false false, e')).
      { unfold shr. rewrite fexp_eq.
        destruct (Z.max (Z.log2 (Z.pos m1) + 1 + e' - 53) (-1074) - e') eqn:En2;
          try reflexivity. lia. }
      rewrite Hs. cbn [shr_m].
      destruct (e' <=? emax - prec); [|discriminate].
      rewrite int_of_float_finite. intros H; now injection H as <-.
Qed.

(** The product rounded, as a number: when the exact product [M * 2^E]
    has more bits than the format holds, the result is [M / 2^n] rounded
    to nearest-even, at the exponent [E + n]. *)
Lemma round_aux_int (M : positive) (E z : Z) :
  let n := fexp prec emax (Z.pos (digits2_pos M) + E) - E in
  0 < n ->
  int_of_float (binary_round_aux prec emax false (Z.pos M) E loc_Exact) = Ok z ->
  z = floor_scale (rne (Z.pos M) n) (E + n).
Proof.
  intros n Hn.
  unfold binary_round_aux, shr_fexp at 1. cbn [Zdigits2 shr_record_of_loc].
  fold n. unfold shr at 1.
  destruct n as [|p|p] eqn:En; try lia.
  destruct (round_shr (Z.pos M) p ltac:(lia)) as [Hq Hr].
  rewrite Hr. rewrite <- En in *.
  assert (He' : E + n = Z.max (Z.pos (digits2_pos M) + E - 53) (-1074)).
  { unfold n. rewrite fexp_eq. lia. }
  rewrite digits2_log2 in He'.
  pose proof (Z.log2_spec (Z.pos M) ltac:(lia)) as [_ HM].
  apply renormalize_int; [|lia].
  pose proof (rne_bounds (Z.pos M) n ltac:(lia) Hn) as B.
  assert (0 <= Z.pos M / 2 ^ n) by (apply Z.div_pos; [lia | apply Z.pow_pos_nonneg; lia]).
  split; [lia|].
  assert (Z.pos M / 2 ^ n < 2 ^ 53); [|lia].
  apply Z.div_lt_upper_bound; [apply Z.pow_pos_nonneg; lia|].
  rewrite <- Z.pow_add_r by lia.
  eapply Z.lt_le_trans; [exact HM|]. apply Z.pow_le_mono_r; lia.
Qed.

Lemma rne_mono (W1 W2 G : Z) :
  0 < G -> 0 <= W1 <= W2 -> rne W1 G <= rne W2 G.
Proof.
  intros HG HW.
  assert (Hp : 0 < 2 ^ G) by (apply Z.pow_pos_nonneg; lia).
  assert (Hq : W1 / 2 ^ G <= W2 / 2 ^ G) by (apply Z.div_le_mono; lia).
  pose proof (rne_bounds W1 G ltac:(lia) HG) as B1.
  pose proof (rne_bounds W2 G ltac:(lia) HG) as B2.
  destruct (Z.eq_dec (W1 / 2 ^ G) (W2 / 2 ^ G)) as [E|E]; [|lia].
  assert (Hr : W1 mod 2 ^ G <= W2 mod 2 ^ G).
  { rewrite !Z.mod_eq by lia. rewrite E. lia. }
  unfold rne. rewrite E.
  repeat match goal with
         | |- context [?a <? ?b] => destruct (Z.ltb_spec a b)
         end; try lia; destruct (Z.even (W2 / 2 ^ G)); lia.
Qed.

(** The rounded value does not pass a multiple of the unit that the
    exact value does not pass. *)
Lemma rne_le_multiple (W G t : Z) :
  0 < G -> 0 <= W -> W <= t * 2 ^ G -> rne W G <= t.
Proof.
  intros HG HW Ht.
  assert (Hp : 0 < 2 ^ G) by (apply Z.pow_pos_nonneg; lia).
  assert (Hh : 0 < 2 ^ (G - 1)) by (apply Z.pow_pos_nonneg; lia).
  pose proof (Z.mod_pos_bound W (2 ^ G) Hp) as Bm.
  pose proof (Z.div_mod W (2 ^ G) ltac:(lia)) as Hd.
  unfold rne.
  destruct (Z.ltb_spec (W mod 2 ^ G) (2 ^ (G - 1))).
  - apply Z.div_le_upper_bound; [lia|]. rewrite Z.mul_comm. exact Ht.
  - assert (W / 2 ^ G < t); [|destruct (_ <? _); [|destruct (Z.even _)]; lia].
    apply Z.div_lt_upper_bound; [lia|].
    assert (W <> t * 2 ^ G); [|lia].
    intros ->. rewrite Z.mod_mul in H by lia. lia.
Qed.

Lemma rne_ge_multiple (W G t : Z) :
  0 < G -> 0 <= W -> t * 2 ^ G <= W -> t <= rne W G.
Proof.
  intros HG HW Ht.
  assert (Hp : 0 < 2 ^ G) by (apply Z.pow_pos_nonneg; lia).
  pose proof (rne_bounds W G HW HG).
  assert (t <= W / 2 ^ G); [|lia].
  apply Z.div_le_lower_bound; [lia|]. rewrite Z.mul_comm. exact Ht.
Qed.

Lemma rounded_mono (W1 W2 : Z) :
  2 ^ 43 <= W1 -> W1 <= W2 -> rounded W1 <= rounded W2.
Proof.
  intros H1 H12. unfold rounded, unit_exp.
  assert (HW1 : 0 < W1) by (pose proof (Z.pow_pos_nonneg 2 43); lia).
  assert (HL : Z.log2 W1 <= Z.log2 W2) by (apply Z.log2_le_mono; lia).
  assert (HL1 : 43 <= Z.log2 W1) by (apply Z.log2_le_pow2; lia).
  pose proof (Z.log2_spec W1 HW1) as [_ U1].
  pose proof (Z.log2_spec W2 ltac:(lia)) as [U2 _].
  set (L1 := Z.log2 W1) in *. set (L2 := Z.log2 W2) in *.
  destruct (Z.eq_dec (Z.max (L1 + 1 - 53) 43) (Z.max (L2 + 1 - 53) 43)) as [E|E].
  - rewrite <- E. apply Z.mul_le_mono_nonneg_r; [apply Z.pow_nonneg; lia|].
    apply rne_mono; lia.
  - assert (HL12 : L1 + 1 <= L2) by lia.
    set (G1 := Z.max (L1 + 1 - 53) 43) in *.
    set (G2 := Z.max (L2 + 1 - 53) 43) in *.
    apply Z.le_trans with (2 ^ (L1 + 1)).
    + replace (2 ^ (L1 + 1)) with (2 ^ (L1 + 1 - G1) * 2 ^ G1)
        by (rewrite <- Z.pow_add_r by lia; f_equal; lia).
      apply Z.mul_le_mono_nonneg_r; [apply Z.pow_nonneg; lia|].
      apply rne_le_multiple; try lia.
      rewrite <- Z.pow_add_r by lia.
      replace (L1 + 1 - G1 + G1) with (Z.succ L1) by lia. lia.
    + apply Z.le_trans with (2 ^ L2); [apply Z.pow_le_mono_r; lia|].
      replace (2 ^ L2) with (2 ^ (L2 - G2) * 2 ^ G2)
        by (rewrite <- Z.pow_add_r by lia; f_equal; lia).
      apply Z.mul_le_mono_nonneg_r; [apply Z.pow_nonneg; lia|].
      apply rne_ge_multiple; try lia.
      rewrite <- Z.pow_add_r by lia.
      replace (L2 - G2 + G2) with L2 by lia. lia.
Qed.

Lemma rne_scale (M n a : Z) :
  0 <= a -> 0 < n -> rne (M * 2 ^ a) (n + a) = rne M n.
Proof.
  intros Ha Hn. unfold rne.
  assert (Hpa : 0 < 2 ^ a) by (apply Z.pow_pos_nonneg; lia).
  assert (Hpn : 0 < 2 ^ n) by (apply Z.pow_pos_nonneg; lia).
  rewrite (Z.pow_add_r 2 n a) by lia.
  rewrite Z.div_mul_cancel_r by lia.
  rewrite Z.mul_mod_distr_r by lia.
  replace (n + a - 1) with (n - 1 + a) by lia.
  rewrite (Z.pow_add_r 2 (n - 1) a) by lia.
  assert (Hlt : forall x y, (x * 2 ^ a <? y * 2 ^ a) = (x <? y)).
  { intros x y. destruct (Z.ltb_spec x y); [apply Z.ltb_lt | apply Z.ltb_ge]; nia. }
  now rewrite !Hlt.
Qed.

Lemma floor_scale_div (N f B : Z) :
  0 <= B -> 0 <= f + B -> floor_scale N f = N * 2 ^ (f + B) / 2 ^ B.
Proof.
  intros HB Hf. unfold floor_scale.
  assert (Hp : 0 < 2 ^ B) by (apply Z.pow_pos_nonneg; lia).
  destruct (Z.leb_spec 0 f).
  - rewrite Z.pow_add_r, Z.mul_assoc, Z.div_mul by lia. reflexivity.
  - replace B with (f + B + - f) at 2 by lia.
    rewrite (Z.pow_add_r 2 (f + B) (- f)) by lia.
    rewrite (Z.mul_comm (2 ^ (f + B)) (2 ^ (- f))).
    rewrite Z.div_mul_cancel_r; try lia;
      apply Z.pow_nonzero; lia.
Qed.

(** The mantissa and the exponent of a valid float. *)
Lemma bounded_spec (m : positive) (e : Z) :
  bounded prec emax m e = true ->
  -1074 <= e /\ Z.log2 (Z.pos m) <= 52 /\ (Z.log2 (Z.pos m) = 52 \/ e = -1074).
Proof.
  unfold bounded, canonical_mantissa. intros H.
  apply andb_prop in H as [H _]. apply Z.eqb_eq in H.
  rewrite fexp_eq, digits2_log2 in H. lia.
Qed.

(** [int(x * 1000)] for a valid positive float [x = m * 2^e], on the
    scale of [2^-1117]. *)
Lemma mul_1000_int (m : positive) (e z : Z) :
  bounded prec emax m e = true ->
  int_of_float (float_mul_int (S754_finite false m e) 1000) = Ok z ->
  z = rounded (Z.pos m * Z.pos thousand * 2 ^ (e + 1074)) / 2 ^ 1117.
Proof.
  intros Hb. destruct (bounded_spec m e Hb) as (He & Hl & Hn).
  unfold float_mul_int.
  change (float_of_int 1000) with (S754_finite false thousand (-43)).
  cbn [SFmul xorb]. intros Hz.
  set (M := (m * thousand)%positive) in *.
  set (E := e + -43) in *.
  assert (HM : Z.pos M = Z.pos m * Z.pos thousand) by reflexivity.
  assert (Hlog : Z.log2 (Z.pos m) + 52 <= Z.log2 (Z.pos M)).
  { rewrite HM. change 52 with (Z.log2 (Z.pos thousand)).
    apply Z.log2_mul_below; lia. }
  set (n := fexp prec emax (Z.pos (digits2_pos M) + E) - E).
  assert (Hn' : n = Z.max (Z.log2 (Z.pos M) + 1 + E - 53) (-1074) - E).
  { unfold n. now rewrite fexp_eq, digits2_log2. }
  assert (Hpos : 0 < n) by (unfold E in *; lia).
  apply round_aux_int in Hz; [|exact Hpos]. fold n in Hz. subst z.
  assert (Ha : 0 <= e + 1074) by lia.
  rewrite (floor_scale_div _ _ 1117) by (unfold E in *; lia).
  unfold rounded. f_equal.
  assert (Hu : unit_exp (Z.pos m * Z.pos thousand * 2 ^ (e + 1074)) = E + n + 1117).
  { unfold unit_exp. rewrite <- HM, Z.log2_mul_pow2 by lia. unfold E in *. lia. }
  rewrite Hu. f_equal.
  rewrite <- HM. replace (E + n + 1117) with (n + (e + 1074)) by (unfold E; lia).
  symmetry. apply rne_scale; lia.
Qed.

(** The order of two valid positive floats is the order of their
    values. *)
Lemma SFleb_values (m1 m2 : positive) (e1 e2 : Z) :
  bounded prec emax m1 e1 = true -> bounded prec emax m2 e2 = true ->
  SFleb (S754_finite false m1 e1) (S754_finite false m2 e2) = true ->
  Z.pos m1 * 2 ^ (e1 + 1074) <= Z.pos m2 * 2 ^ (e2 + 1074).
Proof.
  intros B1 B2.
  destruct (bounded_spec m1 e1 B1) as (He1 & Hl1 & Hn1).
  destruct (bounded_spec m2 e2 B2) as (He2 & Hl2 & Hn2).
  unfold SFleb, SFcompare.
  destruct (Z.compare_spec e1 e2) as [->|Hlt|Hgt].
  - intros H.
    assert ((m1 <= m2)%positive).
    { change (Pos.compare_cont Eq m1 m2) with (m1 ?= m2)%positive in H.
      apply Pos.compare_le_iff. intros G. rewrite G in H. discriminate. }
    apply Z.mul_le_mono_nonneg_r; [apply Z.pow_nonneg|]; lia.
  - intros _.
    pose proof (Z.log2_spec (Z.pos m1) ltac:(lia)) as [_ U1].
    pose proof (Z.log2_spec (Z.pos m2) ltac:(lia)) as [L2 _].
    assert (Z.log2 (Z.pos m2) = 52) as E2 by lia. rewrite E2 in L2.
    assert (Z.pos m1 < 2 ^ 53).
    { eapply Z.lt_le_trans; [exact U1|]. apply Z.pow_le_mono_r; lia. }
    set (a := e1 + 1074). set (d := e2 - e1 - 1).
    replace (e2 + 1074) with (d + 1 + a) by (unfold a, d; lia).
    rewrite (Z.pow_add_r 2 (d + 1) a), (Z.pow_add_r 2 d 1) by (unfold a, d; lia).
    change (2 ^ 1) with 2.
    assert (0 < 2 ^ a) by (apply Z.pow_pos_nonneg; unfold a; lia).
    assert (1 <= 2 ^ d) by (apply (Z.pow_le_mono_r 2 0); unfold d; lia).
    change (2 ^ 53) with (2 ^ 52 * 2) in *.
    generalize dependent (2 ^ a). generalize dependent (2 ^ d).
    intros Q HQ P HP.
    assert (Z.pos m1 * P <= 2 ^ 52 * 2 * P) by nia.
    assert (2 ^ 52 * 2 * P <= Z.pos m2 * 2 * P) by nia.
    assert (Z.pos m2 * 2 * P <= Z.pos m2 * (Q * 2 * P)) by nia.
    lia.
  - discriminate.
Qed.

(** A clock that does not go back gives nonces that do not go back. *)
Lemma nonce_mono (t1 t2 : float) (z1 z2 : Z) :
  valid_binary prec emax t1 = true -> valid_binary prec emax t2 = true ->
  SFltb (S754_zero false) t1 = true ->
  SFleb t1 t2 = true ->
  int_of_float (float_mul_int t1 1000) = Ok z1 ->
  int_of_float (float_mul_int t2 1000) = Ok z2 ->
  z1 <= z2.
Proof.
  intros V1 V2 P1 L H1 H2.
  destruct t1 as [s1|s1| |[|] m1 e1]; try discriminate P1; try discriminate H1.
  destruct t2 as [s2|s2| |[|] m2 e2]; try discriminate L; try discriminate H2.
  simpl in V1, V2.
  pose proof (SFleb_values m1 m2 e1 e2 V1 V2 L) as HW.
  destruct (bounded_spec m1 e1 V1) as (He1 & _).
  apply mul_1000_int in H1; [|exact V1].
  apply mul_1000_int in H2; [|exact V2].
  subst z1 z2.
  apply Z.div_le_mono; [reflexivity|].
  assert (0 < 2 ^ (e1 + 1074)) by (apply Z.pow_pos_nonneg; lia).
  apply rounded_mono.
  - change (2 ^ 43) with (1 * 2 ^ 43 * 1).
    assert (2 ^ 43 <= Z.pos thousand) by (vm_compute; discriminate).
    nia.
  - rewrite <- !Z.mul_assoc, !(Z.mul_comm (Z.pos thousand)), !Z.mul_assoc.
    apply Z.mul_le_mono_nonneg_r; lia.
Qed.

(** The second normalization never fails below the largest exponent. *)
Lemma renormalize_defined (s : bool) (q1 e' : Z) :
  0 <= q1 <= 2 ^ 53 -> -1074 <= e' -> e' < 971 ->
  exists z,
    int_of_float
      (let '(mrs, e'') := shr_fexp prec emax q1 e' loc_Exact in
       match shr_m mrs with
       | 0 => S754_zero s
       | Z.pos m =>
           if e'' <=? emax - prec then S754_finite s m e'' else S754_infinity s
       | Z.neg _ => S754_nan
       end) = Ok z.
Proof.
  intros Hq1 He' Hmax. unfold shr_fexp.
  destruct q1 as [|m1|m1]; try lia.
  - cbn [Zdigits2 shr_record_of_loc].
    assert (Hs : shr (Build_shr_record 0 false false) e' (fexp prec emax (0 + e') - e')
                 = (Build_shr_record 0 false false, e')).
    { unfold shr. rewrite fexp_eq.
      destruct (Z.max (0 + e' - 53) (-1074) - e') eqn:En2; try reflexivity. lia. }
    rewrite Hs. cbn [shr_m]. now exists 0.
  - cbn [Zdigits2 shr_record_of_loc]. rewrite digits2_log2.
    pose proof (Z.log2_spec (Z.pos m1) ltac:(lia)) as [Hl1 Hl2].
    destruct (Z.eq_dec (Z.pos m1) (2 ^ 53)) as [Hc|Hc].
    + assert (Hm : m1 = 9007199254740992%positive) by (injection Hc; auto).
      subst m1.
      change (Z.log2 (Z.pos 9007199254740992)) with 53.
      replace (fexp prec emax (53 + 1 + e') - e') with 1 by (rewrite fexp_eq; lia).
      change (shr (Build_shr_record (Z.pos 9007199254740992) false false) e' 1)
        with (Build_shr_record (Z.pos 4503599627370496) false false, e' + 1).
      cbn [shr_m].
      replace (e' + 1 <=? emax - prec) with true
        by (symmetry; apply Z.leb_le; change (emax - prec) with 971; lia).
      destruct s; eexists; reflexivity.
    + assert (Hlog : Z.log2 (Z.pos m1) <= 52).
      { apply Z.lt_succ_r. apply (Z.pow_lt_mono_r_iff 2); try lia.
        all: try (change (Z.succ 52) with 53; lia). }
      assert (Hs : shr (Build_shr_record (Z.pos m1) false false) e'
                     (fexp prec emax (Z.log2 (Z.pos m1) + 1 + e') - e')
                   = (Build_shr_record (Z.pos m1) false false, e')).
      { unfold shr. rewrite fexp_eq.
        destruct (Z.max (Z.log2 (Z.pos m1) + 1 + e' - 53) (-1074) - e') eqn:En2;
          try reflexivity. lia. }
      rewrite Hs. cbn [shr_m].
      replace (e' <=? emax - prec) with true
        by (symmetry; apply Z.leb_le; change (emax - prec) with 971; lia).
      destruct s; eexists; reflexivity.
Qed.

Lemma round_aux_defined (s : bool) (M : positive) (E : Z) :
  let n := fexp prec emax (Z.pos (digits2_pos M) + E) - E in
  0 < n -> E + n < 971 ->
  exists z, int_of_float (binary_round_aux prec emax s (Z.pos M) E loc_Exact) = Ok z.
Proof.
  intros n Hn Hmax.
  unfold binary_round_aux, shr_fexp at 1. cbn [Zdigits2 shr_record_of_loc].
  fold n. unfold shr at 1.
  destruct n as [|p|p] eqn:En; try lia.
  destruct (round_shr (Z.pos M) p ltac:(lia)) as [Hq Hr].
  rewrite Hr. rewrite <- En in *.
  assert (He' : E + n = Z.max (Z.pos (digits2_pos M) + E - 53) (-1074)).
  { unfold n. rewrite fexp_eq. lia. }
  rewrite digits2_log2 in He'.
  pose proof (Z.log2_spec (Z.pos M) ltac:(lia)) as [_ HM].
  apply renormalize_defined; [|lia|lia].
  pose proof (rne_bounds (Z.pos M) n ltac:(lia) Hn) as B.
  assert (0 <= Z.pos M / 2 ^ n) by (apply Z.div_pos; [lia | apply Z.pow_pos_nonneg; lia]).
  split; [lia|].
  assert (Z.pos M / 2 ^ n < 2 ^ 53); [|lia].
  apply Z.div_lt_upper_bound; [apply Z.pow_pos_nonneg; lia|].
  rewrite <- Z.pow_add_r by lia.
  eapply Z.lt_le_trans; [exact HM|]. apply Z.pow_le_mono_r; lia.
Qed.

(** [int(t * 1000)] is defined for every valid float below [2^1010]. *)
Lemma nonce_defined (t : float) :
  clock_in_range t = true ->
  exists z, int_of_float (float_mul_int t 1000) = Ok z.
Proof.
  unfold clock_in_range. intros H. apply andb_prop in H as [V R].
  destruct t as [s|s| |s m e]; try discriminate R.
  - exists 0. now destruct s.
  - simpl in V. destruct (bounded_spec m e V) as (He & Hl & Hn).
    assert (Hemax : e <= 958).
    { unfold SFltb, SFabs, two_pow_1010, SFcompare in R.
      destruct (Z.compare_spec e 958); first [lia | discriminate]. }
    unfold float_mul_int.
    change (float_of_int 1000) with (S754_finite false thousand (-43)).
    cbn [SFmul]. 
    set (M := (m * thousand)%positive).
    set (E := e + -43).
    assert (HM : Z.pos M = Z.pos m * Z.pos thousand) by reflexivity.
    assert (Hlog : Z.log2 (Z.pos m) + 52 <= Z.log2 (Z.pos M)).
    { rewrite HM. change 52 with (Z.log2 (Z.pos thousand)).
      apply Z.log2_mul_below; lia. }
    assert (Hlog' : Z.log2 (Z.pos M) <= Z.log2 (Z.pos m) + 52 + 1).
    { rewrite HM. change 52 with (Z.log2 (Z.pos thousand)).
      apply Z.log2_mul_above; lia. }
    assert (Hn' : fexp prec emax (Z.pos (digits2_pos M) + E) - E
                  = Z.max (Z.log2 (Z.pos M) + 1 + E - 53) (-1074) - E).
    { now rewrite fexp_eq, digits2_log2. }
    apply round_aux_defined; rewrite Hn'; unfold E; lia.
Qed.

(** ** The request signer *)

Lemma prepare_request_data_run (self : Poloniex) (params : dict pval) (w : world) :
  prepare_request_data self params w =
  match nonce_at w with
  | Ok nonce =>
      let params' := dict_set "nonce" (PInt nonce) params in
      (Ok (params',
           [("Sign", Hmac.hexdigest (secret self) (encode_utf8 (urlencode params')));
            ("Key", api_key self)]),
       tick w)
  | Raised x => (Raised x, tick w)
  end.
Proof.
  unfold prepare_request_data, nonce_at, bind, time_time, lift, ret, tick.
  simpl. now destruct (int_of_float _).
Qed.

(** The signer's result for the nonce that the clock gives. *)
Lemma prepare_request_data_at (self : Poloniex) (params : dict pval) (w : world)
    (nonce : Z) :
  nonce_at w = Ok nonce ->
  let params' := dict_set "nonce" (PInt nonce) params in
  let sign := Hmac.hexdigest (secret self) (encode_utf8 (urlencode params')) in
  let headers := [("Sign", sign); ("Key", api_key self)] in
  prepare_request_data self params w = (Ok (params', headers), tick w)
  /\ dict_get "nonce" params' = Some (PInt nonce)
  /\ (forall k, k <> "nonce" -> dict_get k params' = dict_get k params)
  /\ keys params' =
       (if existsb (String.eqb "nonce") (keys params)
        then keys params else keys params ++ ["nonce"])
  /\ (exists pre post,
        params' = pre ++ ("nonce", PInt nonce) :: post
        /\ forall v, dict_set "nonce" v params = pre ++ ("nonce", v) :: post)
  /\ dict_get "Key" headers = Some (api_key self)
  /\ dict_get "Sign" headers = Some sign
  /\ trace (tick w) = trace w.
Proof.
  intros Hn params' sign headers.
  split; [rewrite prepare_request_data_run, Hn; reflexivity|].
  split; [apply dict_get_set_same|].
  split; [intros k Hk; now apply dict_get_set_other|].
  split; [apply keys_dict_set|].
  split.
  - destruct (dict_set_split "nonce" params) as (pre & post & Hs).
    exists pre, post. split; [apply Hs | exact Hs].
  - repeat split.
Qed.

(** C1: for every mapping and every client, when the clock reads a
    binary64 number in range, the signer returns; what it returns is the
    mapping it was given with ["nonce"] set to the number minted from the
    clock, in place if the key was there and at the end otherwise, every
    other entry as it was; the headers are [Key], the API key, and
    [Sign], the hexadecimal HMAC-SHA512, under the secret, of the UTF-8
    bytes of the URL-encoded final mapping.  It reads the clock once and
    does nothing else. *)
Theorem prepare_request_data_spec (self : Poloniex) (params : dict pval) (w : world) :
  clock_in_range (clock w (ticks w)) = true ->
  exists nonce,
    nonce_at w = Ok nonce
    /\
    let params' := dict_set "nonce" (PInt nonce) params in
    let sign := Hmac.hexdigest (secret self) (encode_utf8 (urlencode params')) in
    let headers := [("Sign", sign); ("Key", api_key self)] in
    prepare_request_data self params w = (Ok (params', headers), tick w)
    /\ dict_get "nonce" params' = Some (PInt nonce)
    /\ (forall k, k <> "nonce" -> dict_get k params' = dict_get k params)
    /\ keys params' =
         (if existsb (String.eqb "nonce") (keys params)
          then keys params else keys params ++ ["nonce"])
    /\ (exists pre post,
          params' = pre ++ ("nonce", PInt nonce) :: post
          /\ forall v, dict_set "nonce" v params = pre ++ ("nonce", v) :: post)
    /\ dict_get "Key" headers = Some (api_key self)
    /\ dict_get "Sign" headers = Some sign
    /\ trace (tick w) = trace w.
Proof.
  intros Hc. destruct (nonce_defined _ Hc) as [nonce Hn].
  exists nonce. split; [exact Hn|].
  exact (prepare_request_data_at self params w nonce Hn).
Qed.

(** C1 on a request for the balances, signed when the clock reads 1.0. *)
Lemma prepare_request_data_spec_witness :
  exists nonce,
    nonce_at (sample_world slow_clock) = Ok nonce
    /\ dict_get "nonce"
         (match fst (prepare_request_data sample_client sample_params
                       (sample_world slow_clock)) with
          | Ok (params', _) => params'
          | Raised _ => []
          end) = Some (PInt nonce).
Proof.
  destruct (prepare_request_data_spec sample_client sample_params
              (sample_world slow_clock) eq_refl) as (nonce & Hn & Hr & H2 & _).
  exists nonce. split; [exact Hn|]. rewrite Hr. exact H2.
Defined.

(** The same request, computed: the nonce 5 that came in is replaced, and
    the signature is the one Python's [hmac] gives for this message and
    this secret. *)
Example signed_sample :
  fst (prepare_request_data sample_client sample_params (sample_world slow_clock)) =
  Ok ([("command", PStr "returnBalances"); ("nonce", PInt 1000)],
      [("Sign", "bf178741188d243b97d03bdfe507f68d7c1870613d7fcadf694548742fc8e840325160893dc6c8b31e3c8d4a9d1deea4b3cd4423a120bd176bbd7cbdb0e5782c");
       ("Key", "key")]).
Proof. vm_compute. reflexivity. Qed.

Lemma sign_twice_run (self : Poloniex) (params : dict pval) (w : world) (n1 n2 : Z) :
  nonce_at w = Ok n1 -> nonce_at (tick w) = Ok n2 ->
  let p1 := dict_set "nonce" (PInt n1) params in
  let p2 := dict_set "nonce" (PInt n2) params in
  sign_twice self params w =
  (Ok ((p1, [("Sign", Hmac.hexdigest (secret self) (encode_utf8 (urlencode p1)));
             ("Key", api_key self)]),
       (p2, [("Sign", Hmac.hexdigest (secret self) (encode_utf8 (urlencode p2)));
             ("Key", api_key self)])),
   tick (tick w)).
Proof.
  intros H1 H2. unfold sign_twice, bind, ret.
  rewrite prepare_request_data_run, H1. simpl.
  rewrite prepare_request_data_run, H2. simpl.
  now rewrite dict_set_set.
Qed.

(** C2, as the code has it: two signings in a row return the nonces
    minted from the two readings of the clock.  When these two numbers
    differ, the two mappings differ and so do the two byte strings that
    are signed; when they are equal, which is the case of two readings
    in the same millisecond, the second signing repeats the first: same
    nonce, same signature.  The second nonce is not smaller than the
    first as long as the clock, reading positive binary64 numbers, has
    not gone back. *)
Theorem sign_twice_nonces (self : Poloniex) (params : dict pval) (w : world) (n1 n2 : Z) :
  nonce_at w = Ok n1 -> nonce_at (tick w) = Ok n2 ->
  (valid_binary prec emax (clock w (ticks w)) = true ->
   valid_binary prec emax (clock w (S (ticks w))) = true ->
   SFltb (S754_zero false) (clock w (ticks w)) = true ->
   SFleb (clock w (ticks w)) (clock w (S (ticks w))) = true ->
   n1 <= n2)
  /\
  exists p1 h1 p2 h2,
    sign_twice self params w = (Ok ((p1, h1), (p2, h2)), tick (tick w))
    /\ dict_get "nonce" p1 = Some (PInt n1)
    /\ dict_get "nonce" p2 = Some (PInt n2)
    /\ dict_get "Sign" h1 =
         Some (Hmac.hexdigest (secret self) (encode_utf8 (urlencode p1)))
    /\ dict_get "Sign" h2 =
         Some (Hmac.hexdigest (secret self) (encode_utf8 (urlencode p2)))
    /\ (n1 <> n2 ->
        p1 <> p2 /\ encode_utf8 (urlencode p1) <> encode_utf8 (urlencode p2))
    /\ (n1 = n2 -> p1 = p2 /\ h1 = h2).
Proof.
  intros H1 H2. split.
  { intros V1 V2 P L. exact (nonce_mono _ _ n1 n2 V1 V2 P L H1 H2). }
  do 4 eexists.
  split; [apply (sign_twice_run self params w n1 n2 H1 H2)|].
  split; [apply dict_get_set_same|].
  split; [apply dict_get_set_same|].
  split; [reflexivity|]. split; [reflexivity|]. split.
  - intros Hne. split.
    + intros E. apply Hne. apply (f_equal (dict_get "nonce")) in E.
      rewrite !dict_get_set_same in E. congruence.
    + intros E. apply Hne. apply encode_utf8_inj in E.
      now apply (urlencode_nonce_inj params).
  - intros ->. split; reflexivity.
Qed.

(** C2 on a clock that reads 1.0 and then 2.0: the nonces are 1000 and
    2000. *)
Lemma sign_twice_nonces_witness :
  (valid_binary prec emax (slow_clock 0) = true ->
   valid_binary prec emax (slow_clock 1) = true ->
   SFltb (S754_zero false) (slow_clock 0) = true ->
   SFleb (slow_clock 0) (slow_clock 1) = true ->
   1000 <= 2000)
  /\
  exists p1 h1 p2 h2,
    sign_twice sample_client sample_params (sample_world slow_clock) =
      (Ok ((p1, h1), (p2, h2)), tick (tick (sample_world slow_clock)))
    /\ dict_get "nonce" p1 = Some (PInt 1000)
    /\ dict_get "nonce" p2 = Some (PInt 2000)
    /\ dict_get "Sign" h1 =
         Some (Hmac.hexdigest (secret sample_client) (encode_utf8 (urlencode p1)))
    /\ dict_get "Sign" h2 =
         Some (Hmac.hexdigest (secret sample_client) (encode_utf8 (urlencode p2)))
    /\ (1000 <> 2000 ->
        p1 <> p2 /\ encode_utf8 (urlencode p1) <> encode_utf8 (urlencode p2))
    /\ (1000 = 2000 -> p1 = p2 /\ h1 = h2).
Proof.
  exact (sign_twice_nonces sample_client sample_params (sample_world slow_clock)
           1000 2000 eq_refl eq_refl).
Defined.

(** The hypotheses on the clock hold of the sample: 1.0 and 2.0 are
    valid, positive and in order. *)
Example slow_clock_in_order :
  valid_binary prec emax (slow_clock 0) = true
  /\ valid_binary prec emax (slow_clock 1) = true
  /\ SFltb (S754_zero false) (slow_clock 0) = true
  /\ SFleb (slow_clock 0) (slow_clock 1) = true.
Proof. repeat split. Qed.

(** When the clock is set back between two signings, from 2.0 to 1.0,
    the nonce goes down, from 2000 to 1000. *)
Example nonce_decreases_with_the_clock :
  exists p1 h1 p2 h2,
    fst (sign_twice sample_client sample_params (sample_world backward_clock)) =
      Ok ((p1, h1), (p2, h2))
    /\ dict_get "nonce" p1 = Some (PInt 2000)
    /\ dict_get "nonce" p2 = Some (PInt 1000).
Proof.
  pose proof (sign_twice_run sample_client sample_params (sample_world backward_clock)
                2000 1000 eq_refl eq_refl) as H.
  simpl in H. do 4 eexists. rewrite H. repeat split.
Qed.

(** C2 as stated fails: the clock reads 1500000000.1234 and then, later,
    1500000000.1236; the two signings in a row carry the same nonce and
    the same signature. *)
Lemma nonce_repeats_within_a_millisecond :
  SFltb (sample_clock 0) (sample_clock 1) = true
  /\ exists p h,
       fst (sign_twice sample_client sample_params (sample_world sample_clock)) =
         Ok ((p, h), (p, h))
       /\ dict_get "nonce" p = Some (PInt 1500000000123).
Proof.
  split; [reflexivity|].
  pose proof (sign_twice_run sample_client sample_params (sample_world sample_clock)
                1500000000123 1500000000123 eq_refl eq_refl) as H.
  simpl in H. do 2 eexists. rewrite H. split; reflexivity.
Qed.

(** C3, as the code has it: the result of signing is determined by the
    mapping, the credentials and the nonce read from the clock; a value
    that the mapping already has under ["nonce"] plays no part; and the
    signature is the same whenever the secret and the bytes of the final
    mapping are. *)
Theorem signature_deterministic (self : Poloniex) (params : dict pval)
    (w w' : world) (n : Z) :
  nonce_at w = Ok n -> nonce_at w' = Ok n ->
  fst (prepare_request_data self params w) = fst (prepare_request_data self params w')
  /\ (forall v,
        fst (prepare_request_data self (dict_set "nonce" v params) w) =
        fst (prepare_request_data self params w))
  /\ (forall self' params' p h p' h',
        secret self' = secret self ->
        fst (prepare_request_data self params w) = Ok (p, h) ->
        fst (prepare_request_data self' params' w') = Ok (p', h') ->
        encode_utf8 (urlencode p') = encode_utf8 (urlencode p) ->
        dict_get "Sign" h' = dict_get "Sign" h).
Proof.
  intros H1 H2. rewrite !prepare_request_data_run, H1, H2. simpl.
  split; [reflexivity|]. split.
  - intros v. rewrite prepare_request_data_run, H1. simpl. now rewrite dict_set_set.
  - intros self' params' p h p' h' Hs Hp Hp'.
    rewrite prepare_request_data_run, H2 in Hp'. simpl in Hp'.
    injection Hp as <- <-. injection Hp' as <- <-.
    intros E. simpl. now rewrite Hs, E.
Qed.

(** C3 on the sample request, signed in two worlds whose clocks read
    1.0. *)
Lemma signature_deterministic_witness :
  fst (prepare_request_data sample_client sample_params (sample_world slow_clock)) =
  fst (prepare_request_data sample_client sample_params
         (world_with_file json_without_secret)).
Proof.
  exact (proj1 (signature_deterministic sample_client sample_params
                  (sample_world slow_clock) (world_with_file json_without_secret)
                  1000 eq_refl eq_refl)).
Defined.

(** C3 as stated fails: the same mapping, with its nonce 5, signed with
    the same secret when the clock reads 1.0 and again when it reads
    2.0, gets two different signatures; the nonce 5 is in neither
    message. *)
Lemma resigning_changes_signature :
  let w := sample_world slow_clock in
  match fst (prepare_request_data sample_client sample_params w),
        fst (prepare_request_data sample_client sample_params (tick w)) with
  | Ok (p1, h1), Ok (p2, h2) =>
      dict_get "nonce" p1 = Some (PInt 1000)
      /\ dict_get "nonce" p2 = Some (PInt 2000)
      /\ dict_get "Sign" h1 <> dict_get "Sign" h2
  | _, _ => False
  end.
Proof. vm_compute. repeat split. discriminate. Qed.

(** ** The outcome of the constructor *)

Lemma init_run (path : option string) (api_key secret : json) (w : world) :
  init path api_key secret w =
  (if is_none path && (is_None api_key || is_None secret)
   then Raised (Exception msg_need_arguments)
   else
     match resolved path api_key secret w with
     | None => Raised (Exception msg_misconfigured)
     | Some (key, sec) =>
         match encode sec with
         | Raised e => Raised e
         | Ok b =>
             match key with
             | JNull => Raised (Exception msg_no_credentials)
             | JStr t =>
                 if String.eqb (strip t) ""
                 then Raised (Exception msg_no_credentials)
                 else Ok (client t b)
             | _ => Raised AttributeError
             end
         end
     end, w).
Proof.
  destruct path as [p|].
  - unfold init, bind, lift, ret, raise, resolved. cbn [is_none andb].
    rewrite get_credentials_run.
    destruct (first_success _) as [[key sec]|]; [|reflexivity].
    destruct (encode sec); [|reflexivity].
    destruct key; try reflexivity.
    simpl. now destruct (String.eqb (strip s) "").
  - destruct (is_None api_key || is_None secret) eqn:E.
    + now rewrite init_needs_arguments.
    + rewrite init_with_arguments by assumption. simpl.
      destruct (encode secret); [|reflexivity].
      destruct api_key; try reflexivity.
      now destruct (String.eqb (strip s) "").
Qed.

(** X1: on credentials that are values of a JSON document ([None],
    booleans, numbers, strings, lists and dictionaries), the constructor
    returns a client exactly when the two credentials it works with
    (those of the file when a path is given, the arguments otherwise) are
    strings and the key is not blank.  The client then holds the key as
    it was given, without stripping, and the UTF-8 bytes of the secret,
    which may be empty or blank.  When a path is given the arguments
    [api_key] and [secret] are not looked at. *)
Theorem init_succeeds_iff (path : option string) (api_key secret : json)
    (w : world) (self : Poloniex) :
  (fst (init path api_key secret w) = Ok self <->
   exists key sec,
     resolved path api_key secret w = Some (JStr key, JStr sec)
     /\ strip key <> ""
     /\ self = client key (encode_utf8 sec))
  /\ (forall p api_key' secret',
        init (Some p) api_key' secret' w = init (Some p) api_key secret w).
Proof.
  split.
  - rewrite init_run. cbn [fst]. split.
    + intros H.
      destruct (is_none path && (is_None api_key || is_None secret)) eqn:E;
        [discriminate|].
      destruct (resolved path api_key secret w) as [[key sec]|]; [|discriminate].
      destruct sec; try discriminate. simpl in H.
      destruct key; try discriminate.
      destruct (String.eqb_spec (strip s0) ""); [discriminate|].
      injection H as <-. now exists s0, s.
    + intros (key & sec & Hr & Hk & ->).
      rewrite Hr. simpl.
      destruct (String.eqb_spec (strip key) ""); [contradiction|].
      destruct path as [p|]; [reflexivity|].
      simpl in Hr. injection Hr as -> ->. reflexivity.
  - intros p api_key' secret'. now rewrite !init_run.
Qed.

(** ** Comparing clients *)

(** X2: [str(client)] raises [TypeError] for every client, and so do
    [client == other] and [client != other]: the constructor has turned
    the secret into a [bytes] object, which [json.dumps] cannot write.
    The same list with the secret as a string is written without
    error. *)
Theorem clients_cannot_be_compared (self other : Poloniex) :
  __str__ self = Raised TypeError
  /\ __eq__ self other = Raised TypeError
  /\ __ne__ self other = Raised TypeError
  /\ (forall s, exists t, json_dumps [VStr (api_key self); VStr s] = Ok t).
Proof.
  repeat split. intros s. eexists. reflexivity.
Qed.

(** ** The form of the signature *)

Lemma hex_byte_lower (b : byte) :
  all_chars is_lower_hex (Hmac.hex [b]) = true.
Proof. destruct b; reflexivity. Qed.

Lemma hex_lower (bs : bytes) : all_chars is_lower_hex (Hmac.hex bs) = true.
Proof.
  induction bs as [|b bs IH]; [reflexivity|].
  pose proof (hex_byte_lower b) as Hb.
  cbn [Hmac.hex all_chars] in *.
  apply andb_prop in Hb as [H1 Hb]. apply andb_prop in Hb as [H2 _].
  now rewrite H1, H2, IH.
Qed.

Lemma hex_length (bs : bytes) :
  String.length (Hmac.hex bs) = (2 * List.length bs)%nat.
Proof.
  induction bs as [|b bs IH]; [reflexivity|].
  cbn [Hmac.hex String.length List.length]. rewrite IH. lia.
Qed.

Lemma sha512_length (msg : bytes) : List.length (Sha512.digest msg) = 64%nat.
Proof.
  unfold Sha512.digest, Sha512.digest_Z.
  destruct (fold_left Sha512.compress _ _) as [[[[[[[a b] c] d] e] f] g] h].
  rewrite length_map. reflexivity.
Qed.

(** X3: whatever the secret, the parameters and the clock, the [Sign]
    header that the signer returns is a string of 128 lower-case
    hexadecimal digits, and the headers are [Sign] and [Key], in this
    order, and nothing else. *)
Theorem sign_header_form (self : Poloniex) (params : dict pval) (w : world)
    (params' : dict pval) (headers : dict string) :
  fst (prepare_request_data self params w) = Ok (params', headers) ->
  keys headers = ["Sign"; "Key"]
  /\ exists sign,
       dict_get "Sign" headers = Some sign
       /\ String.length sign = 128%nat
       /\ all_chars is_lower_hex sign = true.
Proof.
  rewrite prepare_request_data_run.
  destruct (nonce_at w) as [nonce|]; [|discriminate].
  cbv zeta. intros H. injection H as <- <-.
  split; [reflexivity|]. eexists. split; [reflexivity|]. split.
  - unfold Hmac.hexdigest, Hmac.digest. now rewrite hex_length, sha512_length.
  - apply hex_lower.
Qed.

(** X3 on the sample request signed when the clock reads 1.0. *)
Lemma sign_header_form_witness :
  exists sign,
    dict_get "Sign"
      [("Sign", "bf178741188d243b97d03bdfe507f68d7c1870613d7fcadf694548742fc8e840325160893dc6c8b31e3c8d4a9d1deea4b3cd4423a120bd176bbd7cbdb0e5782c");
       ("Key", "key")] = Some sign
    /\ String.length sign = 128%nat
    /\ all_chars is_lower_hex sign = true.
Proof.
  refine (proj2 (sign_header_form sample_client sample_params (sample_world slow_clock)
                   [("command", PStr "returnBalances"); ("nonce", PInt 1000)] _ _)).
  vm_compute. reflexivity.
Defined.

(** ** Reading the signed message back *)

Lemma parse_quote_byte (b : byte) (r : string) (key : option bytes) (cur : bytes) :
  parse_query (quote_byte b ++ r) key cur = parse_query r key (b :: cur).
Proof. destruct key; destruct b; reflexivity. Qed.

Lemma parse_quoted (bs : bytes) (r : string) (key : option bytes) (cur : bytes) :
  parse_query (String.concat "" (map quote_byte bs) ++ r) key cur =
  parse_query r key (rev bs ++ cur).
Proof.
  revert cur. induction bs as [|b bs IH]; intros cur.
  - reflexivity.
  - cbn [map]. rewrite concat_empty_sep_cons, append_assoc, parse_quote_byte, IH.
    cbn [rev]. now rewrite <- app_assoc.
Qed.

Lemma parse_item (kv : string * pval) (r : string) :
  parse_query (urlencode_item kv ++ r) None [] =
  match r with
  | EmptyString => [rendered kv]
  | String c r' =>
      if (c =? "&")%char then rendered kv :: parse_query r' None []
      else parse_query (urlencode_item kv ++ r) None []
  end.
Proof.
  destruct r as [|c r']; [|destruct (Ascii.eqb_spec c "&"); [subst c|reflexivity]];
    unfold urlencode_item, quote_plus, rendered;
    rewrite !append_assoc, parse_quoted; cbn [append parse_query Ascii.eqb Bool.eqb andb is_none];
    rewrite parse_quoted; cbn [parse_query Ascii.eqb Bool.eqb finish];
    now rewrite !app_nil_r, !rev_involutive.
Qed.

Lemma urlencode_cons (kv : string * pval) (l : dict pval) :
  urlencode (kv :: l) =
  match l with
  | [] => urlencode_item kv
  | _ => (urlencode_item kv ++ String "&" (urlencode l))%string
  end.
Proof. unfold urlencode. cbn [map]. rewrite concat_cons. now destruct l. Qed.

Lemma parse_query_urlencode (kv : string * pval) (l : dict pval) :
  parse_query (urlencode (kv :: l)) None [] = map rendered (kv :: l).
Proof.
  revert kv. induction l as [|kv' l IH]; intros kv.
  - rewrite urlencode_cons. rewrite <- (append_nil_r (urlencode_item kv)).
    now rewrite parse_item.
  - rewrite urlencode_cons, parse_item. cbn [Ascii.eqb Bool.eqb].
    rewrite IH. reflexivity.
Qed.

Lemma urlencode_item_not_empty (kv : string * pval) (r : string) :
  (urlencode_item kv ++ r)%string <> "".
Proof.
  unfold urlencode_item. rewrite append_assoc.
  destruct (quote_plus (fst kv)); discriminate.
Qed.

Lemma read_query_urlencode (params : dict pval) :
  read_query (urlencode params) = map rendered params.
Proof.
  destruct params as [|kv l]; [reflexivity|].
  rewrite <- parse_query_urlencode. unfold read_query.
  destruct (urlencode (kv :: l)) eqn:E; [|reflexivity].
  exfalso. rewrite urlencode_cons in E.
  destruct l.
  - apply (urlencode_item_not_empty kv ""). now rewrite append_nil_r.
  - now apply (urlencode_item_not_empty kv) in E.
Qed.

Lemma rendered_urlencode_item (kv kv' : string * pval) :
  rendered kv = rendered kv' -> urlencode_item kv = urlencode_item kv'.
Proof.
  unfold rendered, urlencode_item. intros H. injection H as Hk Hv.
  apply encode_utf8_inj in Hk. apply encode_utf8_inj in Hv.
  now rewrite Hk, Hv.
Qed.

(** X4: the message that is signed can be read back.  Splitting the
    URL-encoded mapping at [&] and [=] and undoing the escapes gives the
    items of the mapping, in order, each as the bytes of its key and of
    the text of its value; so two mappings get the same signed bytes
    exactly when they have the same keys and the same value texts in the
    same order (the integer 5 and the string 5 are written alike). *)
Theorem signed_message_unambiguous (p q : dict pval) :
  read_query (urlencode p) = map rendered p
  /\ (encode_utf8 (urlencode p) = encode_utf8 (urlencode q) <->
      map rendered p = map rendered q).
Proof.
  split; [apply read_query_urlencode|]. split.
  - intros H. apply encode_utf8_inj in H.
    now rewrite <- (read_query_urlencode p), <- (read_query_urlencode q), H.
  - intros H. f_equal. unfold urlencode. f_equal.
    revert q H. induction p as [|kv p IH]; intros [|kv' q] H; try discriminate.
    + reflexivity.
    + cbn [map] in *.
      pose proof (f_equal (@List.hd _ (rendered kv)) H) as Hkv.
      pose proof (f_equal (@List.tl _) H) as Ht.
      cbn [List.hd List.tl] in Hkv, Ht.
      now rewrite (rendered_urlencode_item _ _ Hkv), (IH q Ht).
Qed.

(** ** The nonce and the clock *)

Lemma rounded_between (W lo hi u' : Z) :
  0 <= W -> 0 <= u' -> unit_exp W <= u' ->
  lo * 2 ^ u' <= W -> W <= hi * 2 ^ u' ->
  lo * 2 ^ u' <= rounded W <= hi * 2 ^ u'.
Proof.
  intros HW Hu' Hu Hlo Hhi. unfold rounded.
  set (u := unit_exp W) in *.
  assert (Hu43 : 43 <= u) by (unfold u, unit_exp; lia).
  assert (Hp : 2 ^ u' = 2 ^ (u' - u) * 2 ^ u).
  { rewrite <- Z.pow_add_r by lia. f_equal. lia. }
  assert (Hpos : 0 < 2 ^ u) by (apply Z.pow_pos_nonneg; lia).
  rewrite Hp in *. rewrite !Z.mul_assoc in *.
  split.
  - apply Z.mul_le_mono_nonneg_r; [lia|].
    apply rne_ge_multiple; [lia|lia|exact Hlo].
  - apply Z.mul_le_mono_nonneg_r; [lia|].
    apply rne_le_multiple; [lia|lia|exact Hhi].
Qed.

(** X5: the nonce is the clock in milliseconds to within one.  For a
    positive reading [t = m * 2^e] with [1000 * t] below [2^53], the
    number [int(t * 1000)] lies strictly between [1000 * t - 1] and
    [1000 * t + 1]: the rounding of the product can lift it to the next
    whole millisecond, and never moves it further. *)
Theorem nonce_within_a_millisecond (m : positive) (e z : Z) :
  bounded prec emax m e = true ->
  millis m e < 2 ^ 53 * 2 ^ 1074 ->
  int_of_float (float_mul_int (S754_finite false m e) 1000) = Ok z ->
  (z - 1) * 2 ^ 1074 < millis m e < (z + 1) * 2 ^ 1074.
Proof.
  intros Hb HM Hz.
  apply mul_1000_int in Hz; [|assumption].
  destruct (bounded_spec m e Hb) as (He & _ & _).
  unfold millis in *.
  set (M := Z.pos m * 1000 * 2 ^ (e + 1074)) in *.
  assert (HW : Z.pos m * Z.pos thousand * 2 ^ (e + 1074) = M * 2 ^ 43).
  { unfold M, thousand. change (Z.pos 8796093022208000) with (1000 * 2 ^ 43). ring. }
  rewrite HW in Hz.
  assert (HK : 2 ^ 1117 = 2 ^ 1074 * 2 ^ 43).
  { rewrite <- Z.pow_add_r by lia. reflexivity. }
  assert (HM0 : 0 < M).
  { unfold M. assert (0 < 2 ^ (e + 1074)) by (apply Z.pow_pos_nonneg; lia). nia. }
  assert (H43 : 0 < 2 ^ 43) by reflexivity.
  assert (HD : 0 < 2 ^ 1074) by (apply Z.pow_pos_nonneg; lia).
  assert (H53 : 0 < 2 ^ 53) by reflexivity.
  assert (HWlt : M * 2 ^ 43 < 2 ^ 1170).
  { replace (2 ^ 1170) with (2 ^ 53 * 2 ^ 1074 * 2 ^ 43)
      by (rewrite <- !Z.pow_add_r by lia; reflexivity).
    apply Z.mul_lt_mono_pos_r; assumption. }
  assert (Hu : unit_exp (M * 2 ^ 43) <= 1117).
  { unfold unit_exp.
    assert (Z.log2 (M * 2 ^ 43) < 1170) by (apply Z.log2_lt_pow2; lia).
    lia. }
  set (f := M / 2 ^ 1074).
  set (c := (M + 2 ^ 1074 - 1) / 2 ^ 1074).
  assert (Hf : f * 2 ^ 1074 <= M).
  { unfold f. rewrite Z.mul_comm. apply Z.mul_div_le. assumption. }
  assert (Hf' : M < (f + 1) * 2 ^ 1074).
  { unfold f. pose proof (Z.mod_pos_bound M (2 ^ 1074) HD).
    pose proof (Z.div_mod M (2 ^ 1074)). lia. }
  assert (Hc : M <= c * 2 ^ 1074).
  { unfold c. pose proof (Z.mod_pos_bound (M + 2 ^ 1074 - 1) (2 ^ 1074) HD).
    pose proof (Z.div_mod (M + 2 ^ 1074 - 1) (2 ^ 1074)). lia. }
  assert (Hc' : c * 2 ^ 1074 < M + 2 ^ 1074).
  { unfold c. pose proof (Z.mod_pos_bound (M + 2 ^ 1074 - 1) (2 ^ 1074) HD).
    pose proof (Z.div_mod (M + 2 ^ 1074 - 1) (2 ^ 1074)). lia. }
  destruct (rounded_between (M * 2 ^ 43) f c 1117) as [Hlo Hhi];
    [lia|lia|exact Hu| | |].
  - rewrite HK, Z.mul_assoc. apply Z.mul_le_mono_nonneg_r; lia.
  - rewrite HK, Z.mul_assoc. apply Z.mul_le_mono_nonneg_r; lia.
  - assert (Hzf : f <= z).
    { rewrite Hz. apply Z.div_le_lower_bound; [apply Z.pow_pos_nonneg; lia|].
      rewrite (Z.mul_comm (2 ^ 1117) f). exact Hlo. }
    assert (Hzc : z <= c).
    { rewrite Hz. apply Z.div_le_upper_bound; [apply Z.pow_pos_nonneg; lia|].
      rewrite (Z.mul_comm (2 ^ 1117) c). exact Hhi. }
    clearbody f c M. clear - Hzf Hzc Hf' Hc' HD.
    revert Hf' Hc' HD. generalize (2 ^ 1074). intros D Hf' Hc' HD. nia.
Qed.

(** X5 on the reading 1500000000.1234, whose nonce is 1500000000123. *)
Lemma nonce_within_a_millisecond_witness :
  (1500000000123 - 1) * 2 ^ 1074 < millis 6291456000517577 (-22)
  < (1500000000123 + 1) * 2 ^ 1074.
Proof.
  apply nonce_within_a_millisecond; reflexivity.
Defined.

(** The reading 0.29, the float just below 29/100: [int(0.29 * 1000)] is
    290 although the reading is less than 290 milliseconds. *)
Example nonce_rounds_up :
  int_of_float (float_mul_int (S754_finite false 5224175567749775 (-54)) 1000) = Ok 290
  /\ millis 5224175567749775 (-54) < 290 * 2 ^ 1074.
Proof. split; reflexivity. Qed.

(** ** The calls of the public API *)

(** X6: each of the seven public methods sends one GET request to the
    public endpoint and nothing else: the query is the command of the
    method followed by its arguments (for the order book, [currencyPair]
    only when a pair is given), there are no headers and no nonce, the
    clock is not read, and the result is what the reply decodes to, or
    the exception of the request.  Neither the key nor the secret of the
    client plays a part. *)
Theorem public_calls_unsigned (self : Poloniex) (c : public_call) (w : world) :
  let r := mk_request GET (public_url self) (public_params c) [] in
  call_public self c w = (reply w r, log [Requested r] w)
  /\ dict_get "nonce" (public_params c) = None
  /\ (forall self',
        api_endpoint self' = api_endpoint self ->
        call_public self' c w = call_public self c w).
Proof.
  assert (H : forall s, call_public s c w =
                        (reply w (mk_request GET (public_url s) (public_params c) []),
                         log [Requested (mk_request GET (public_url s) (public_params c) [])] w)).
  { intros s. destruct c as [ | | | [p|] depth | | | ]; reflexivity. }
  split; [apply H|]. split.
  - destruct c as [ | | | [p|] depth | | | ]; reflexivity.
  - intros self' E. rewrite !H. unfold public_url. now rewrite E.
Qed.

(** ** The calls of the trading API *)

Lemma post_signed_run (self : Poloniex) (params : dict pval) (w : world) :
  post_signed self params w =
  match nonce_at w with
  | Ok nonce =>
      let r := signed_request self (dict_set "nonce" (PInt nonce) params) in
      (reply w r, log [Requested r] (tick w))
  | Raised x => (Raised x, tick w)
  end.
Proof.
  unfold post_signed, bind. rewrite prepare_request_data_run.
  destruct (nonce_at w); reflexivity.
Qed.

Lemma call_trading_run (self : Poloniex) (c : trading_call) (w : world) :
  call_trading self c w = post_signed self (trading_params c) w.
Proof. destruct c; reflexivity. Qed.

Lemma trading_params_nonce (c : trading_call) (v : pval) :
  dict_set "nonce" v (trading_params c) = trading_params c ++ [("nonce", v)].
Proof. destruct c; reflexivity. Qed.

(** X7: when the clock reads a binary64 number in range, each of the
    thirteen trading methods reads it once and sends one POST request to
    the trading endpoint.  The form sent is the command of the method,
    its arguments and, last, the nonce minted from the clock; the [Sign]
    header is the HMAC-SHA512, under the secret, of the URL-encoding of
    that same form, and [Key] is the API key.  The result is what the
    reply decodes to, or the exception of the request. *)
Theorem trading_calls_signed (self : Poloniex) (c : trading_call) (w : world) :
  clock_in_range (clock w (ticks w)) = true ->
  exists nonce,
    nonce_at w = Ok nonce
    /\ let r := signed_request self (trading_params c ++ [("nonce", PInt nonce)]) in
       call_trading self c w = (reply w r, log [Requested r] (tick w)).
Proof.
  intros Hc. destruct (nonce_defined _ Hc) as [nonce Hn].
  exists nonce. split; [exact Hn|].
  rewrite call_trading_run, post_signed_run.
  unfold nonce_at in *. rewrite Hn. cbv zeta.
  now rewrite trading_params_nonce.
Qed.

(** X7 on the cancellation of order 42 when the clock reads 1.0. *)
Lemma trading_calls_signed_witness :
  exists nonce,
    nonce_at (sample_world slow_clock) = Ok nonce
    /\ let r := signed_request sample_client
                  (trading_params (CancelOrder (PInt 42)) ++ [("nonce", PInt nonce)]) in
       call_trading sample_client (CancelOrder (PInt 42)) (sample_world slow_clock) =
       (reply (sample_world slow_clock) r,
        log [Requested r] (tick (sample_world slow_clock))).
Proof.
  exact (trading_calls_signed sample_client (CancelOrder (PInt 42))
           (sample_world slow_clock) eq_refl).
Defined.

(** X8: whatever the clock reads and whatever the server answers, a
    trading method reads the clock once and sends at most one request.
    When no nonce can be minted (the product is infinite or not a
    number) the method raises that error and nothing is sent.  Otherwise
    the one request is a POST to the trading endpoint that carries the
    nonce, the command of the method, the API key and the signature of
    exactly the form that is sent; its reply, or its exception, is the
    result, and the request is not repeated. *)
Theorem trading_call_never_unsigned (self : Poloniex) (c : trading_call) (w : world) :
  let res := fst (call_trading self c w) in
  let w' := snd (call_trading self c w) in
  ticks w' = S (ticks w)
  /\ ((exists x, nonce_at w = Raised x /\ res = Raised x /\ trace w' = trace w)
      \/ (exists nonce data,
            nonce_at w = Ok nonce
            /\ dict_get "nonce" data = Some (PInt nonce)
            /\ dict_get "command" data = dict_get "command" (trading_params c)
            /\ trace w' = trace w ++ [Requested (signed_request self data)]
            /\ res = reply w (signed_request self data)
            /\ req_verb (signed_request self data) = POST
            /\ req_url (signed_request self data) = private_url self
            /\ dict_get "Key" (req_headers (signed_request self data)) =
                 Some (api_key self)
            /\ dict_get "Sign" (req_headers (signed_request self data)) =
                 Some (Hmac.hexdigest (secret self)
                         (encode_utf8 (urlencode
                            (req_params (signed_request self data))))))).
Proof.
  cbv zeta. rewrite call_trading_run, post_signed_run.
  destruct (nonce_at w) as [nonce|x] eqn:Hn.
  - cbv zeta. split; [reflexivity|]. right.
    exists nonce, (dict_set "nonce" (PInt nonce) (trading_params c)).
    split; [reflexivity|].
    split; [apply dict_get_set_same|].
    split; [now apply dict_get_set_other|].
    repeat split.
  - split; [reflexivity|]. left. exists x. repeat split.
Qed.

(** ** The trollbox wrapper *)

(** X9: the trollbox wrapper hands the first five positional arguments
    of a message to the callback, unchanged and in order; further
    positional arguments and all keyword arguments are dropped.  With
    fewer than five positional arguments it raises [IndexError] and the
    callback is not called. *)
Theorem trollbox_wrapper_forwards (args : list json) (kwargs : dict json) (w : world) :
  match args with
  | a0 :: a1 :: a2 :: a3 :: a4 :: _ =>
      trollbox_wrapper args kwargs w =
      (Ok tt, log [TrollboxCallback a0 a1 a2 a3 a4] w)
  | _ => trollbox_wrapper args kwargs w = (Raised IndexError, w)
  end.
Proof.
  destruct args as [|a0 [|a1 [|a2 [|a3 [|a4 rest]]]]]; reflexivity.
Qed.

(** ** The ticker wrapper, on every message *)

Lemma ticker_wrapper_run (args : list json) (kwargs : dict json) (w : world) :
  ticker_wrapper args kwargs w =
  match ticker_fields args with
  | Ok u => (Ok tt, log [TickerCallback u] w)
  | Raised e => (Raised e, w)
  end.
Proof.
  unfold ticker_wrapper, ticker_fields, bind, lift, rbind.
  destruct (index args 0); [|reflexivity].
  destruct (Decimal_at args 1); [|reflexivity].
  destruct (Decimal_at args 2); [|reflexivity].
  destruct (Decimal_at args 3); [|reflexivity].
  destruct (Decimal_at args 4); [|reflexivity].
  destruct (Decimal_at args 5); [|reflexivity].
  destruct (Decimal_at args 6); [|reflexivity].
  destruct (index args 7); [|reflexivity].
  destruct (Decimal_at args 8); [|reflexivity].
  destruct (Decimal_at args 9); reflexivity.
Qed.

Lemma ticker_fields_ok (args : list json) (u : ticker_update) :
  ticker_fields args = Ok u <->
  index args 0 = Ok (currency_pair u)
  /\ Decimal_at args 1 = Ok (last u)
  /\ Decimal_at args 2 = Ok (lowest_ask u)
  /\ Decimal_at args 3 = Ok (highest_bid u)
  /\ Decimal_at args 4 = Ok (change u)
  /\ Decimal_at args 5 = Ok (base_volume u)
  /\ Decimal_at args 6 = Ok (quote_volume u)
  /\ (exists v, index args 7 = Ok v /\ is_frozen u = eq_int v 1)
  /\ Decimal_at args 8 = Ok (high u)
  /\ Decimal_at args 9 = Ok (low u).
Proof.
  unfold ticker_fields, rbind. split.
  - intros H.
    destruct (index args 0); [|discriminate].
    destruct (Decimal_at args 1); [|discriminate].
    destruct (Decimal_at args 2); [|discriminate].
    destruct (Decimal_at args 3); [|discriminate].
    destruct (Decimal_at args 4); [|discriminate].
    destruct (Decimal_at args 5); [|discriminate].
    destruct (Decimal_at args 6); [|discriminate].
    destruct (index args 7) as [v|]; [|discriminate].
    destruct (Decimal_at args 8); [|discriminate].
    destruct (Decimal_at args 9); [|discriminate].
    injection H as <-. simpl. repeat split. exists v. now split.
  - intros (H0 & H1 & H2 & H3 & H4 & H5 & H6 & (v & H7 & Hf) & H8 & H9).
    rewrite H0, H1, H2, H3, H4, H5, H6, H7, H8, H9, <- Hf.
    now destruct u.
Qed.

Lemma index_app (args extra : list json) (i : nat) :
  (i < List.length args)%nat -> index (args ++ extra) i = index args i.
Proof. intros H. unfold index. now rewrite nth_error_app1. Qed.

Lemma index_short (args : list json) (i : nat) :
  (List.length args <= i)%nat -> index args i = Raised IndexError.
Proof.
  intros H. unfold index.
  now rewrite (proj2 (nth_error_None args i) H).
Qed.

Lemma index_defined (args : list json) (i : nat) (v : json) :
  index args i = Ok v -> (i < List.length args)%nat.
Proof.
  unfold index. intros H. apply nth_error_Some.
  destruct (nth_error args i); [discriminate|discriminate].
Qed.

Lemma index_long (args : list json) (i : nat) :
  (i < List.length args)%nat -> exists v, index args i = Ok v.
Proof.
  intros H. unfold index. apply nth_error_Some in H.
  destruct (nth_error args i) as [v|]; [now exists v|contradiction].
Qed.

Lemma ticker_fields_app (args extra : list json) :
  (10 <= List.length args)%nat -> ticker_fields (args ++ extra) = ticker_fields args.
Proof.
  intros H. unfold ticker_fields, Decimal_at.
  now rewrite !index_app by lia.
Qed.

Lemma index_raises (args : list json) (i : nat) (e : exn) :
  index args i = Raised e -> e = IndexError.
Proof.
  unfold index. destruct (nth_error args i); [discriminate|congruence].
Qed.

Lemma ticker_fields_short (args : list json) :
  (List.length args < 10)%nat ->
  (forall i v, In i ticker_numeric -> nth_error args i = Some v ->
               exists d, Decimal v = Ok d) ->
  ticker_fields args = Raised IndexError.
Proof.
  intros Hlen Hd.
  assert (Hstep : forall i, In i ticker_numeric ->
            Decimal_at args i = Raised IndexError
            \/ ((i < List.length args)%nat /\ exists d, Decimal_at args i = Ok d)).
  { intros i Hi. unfold Decimal_at, index, rbind.
    destruct (nth_error args i) as [v|] eqn:E; [right|now left].
    split; [apply nth_error_Some; congruence|]. cbn. now apply (Hd i). }
  unfold ticker_fields.
  destruct (index args 0) as [v0|] eqn:E0;
    [|apply index_raises in E0; now subst].
  cbn [rbind].
  destruct (Hstep 1%nat) as [->|[_ [d1 ->]]]; [simpl; tauto|reflexivity|]. cbn [rbind].
  destruct (Hstep 2%nat) as [->|[_ [d2 ->]]]; [simpl; tauto|reflexivity|]. cbn [rbind].
  destruct (Hstep 3%nat) as [->|[_ [d3 ->]]]; [simpl; tauto|reflexivity|]. cbn [rbind].
  destruct (Hstep 4%nat) as [->|[_ [d4 ->]]]; [simpl; tauto|reflexivity|]. cbn [rbind].
  destruct (Hstep 5%nat) as [->|[_ [d5 ->]]]; [simpl; tauto|reflexivity|]. cbn [rbind].
  destruct (Hstep 6%nat) as [->|[_ [d6 ->]]]; [simpl; tauto|reflexivity|]. cbn [rbind].
  destruct (index args 7) as [v7|] eqn:E7;
    [|apply index_raises in E7; now subst].
  cbn [rbind].
  destruct (Hstep 8%nat) as [->|[_ [d8 ->]]]; [simpl; tauto|reflexivity|]. cbn [rbind].
  destruct (Hstep 9%nat) as [->|[H9 _]]; [simpl; tauto|reflexivity|lia].
Qed.

(** X10: on every message the ticker wrapper either calls the callback
    once or raises and leaves the world as it was; it never calls the
    callback with part of the values.  It calls the callback exactly when
    the message has at least ten positional arguments and those at
    positions 1 to 6, 8 and 9 convert to decimals; the callback then
    receives the first argument unchanged, these eight decimals in order
    and the flag [args[7] == 1].  Positional arguments after the tenth
    and all keyword arguments are ignored.  A message of fewer than ten
    arguments, those that are converted being convertible, raises
    [IndexError]. *)
Theorem ticker_wrapper_all_or_nothing (args : list json) (kwargs : dict json) (w : world) :
  ((exists u,
      ticker_wrapper args kwargs w = (Ok tt, log [TickerCallback u] w)
      /\ index args 0 = Ok (currency_pair u)
      /\ Decimal_at args 1 = Ok (last u)
      /\ Decimal_at args 2 = Ok (lowest_ask u)
      /\ Decimal_at args 3 = Ok (highest_bid u)
      /\ Decimal_at args 4 = Ok (change u)
      /\ Decimal_at args 5 = Ok (base_volume u)
      /\ Decimal_at args 6 = Ok (quote_volume u)
      /\ (exists v, index args 7 = Ok v /\ is_frozen u = eq_int v 1)
      /\ Decimal_at args 8 = Ok (high u)
      /\ Decimal_at args 9 = Ok (low u))
   \/ (exists e, ticker_wrapper args kwargs w = (Raised e, w)))
  /\ ((exists w', ticker_wrapper args kwargs w = (Ok tt, w')) <->
      ((10 <= List.length args)%nat
       /\ forall i, In i ticker_numeric -> exists d, Decimal_at args i = Ok d))
  /\ (forall extra kwargs',
        (10 <= List.length args)%nat ->
        ticker_wrapper (args ++ extra) kwargs' w = ticker_wrapper args kwargs w)
  /\ ((List.length args < 10)%nat ->
      (forall i v, In i ticker_numeric -> nth_error args i = Some v ->
                   exists d, Decimal v = Ok d) ->
      ticker_wrapper args kwargs w = (Raised IndexError, w)).
Proof.
  split; [|split; [|split]].
  - rewrite ticker_wrapper_run.
    destruct (ticker_fields args) as [u|e] eqn:E.
    + left. exists u. split; [reflexivity|]. now apply ticker_fields_ok.
    + right. now exists e.
  - rewrite ticker_wrapper_run. split.
    + intros [w' H].
      destruct (ticker_fields args) as [u|e] eqn:E; [|discriminate].
      apply ticker_fields_ok in E.
      destruct E as (H0 & H1 & H2 & H3 & H4 & H5 & H6 & _ & H8 & H9).
      split.
      * unfold Decimal_at, rbind in H9.
        destruct (index args 9) eqn:E9; [|discriminate].
        apply index_defined in E9. lia.
      * intros i Hi. simpl in Hi.
        repeat (destruct Hi as [<-|Hi]; [eexists; eassumption|]).
        contradiction.
    + intros [Hlen Hd].
      destruct (index_long args 0) as [v0 E0]; [lia|].
      destruct (index_long args 7) as [v7 E7]; [lia|].
      destruct (Hd 1%nat) as [d1 E1]; [simpl; tauto|].
      destruct (Hd 2%nat) as [d2 E2]; [simpl; tauto|].
      destruct (Hd 3%nat) as [d3 E3]; [simpl; tauto|].
      destruct (Hd 4%nat) as [d4 E4]; [simpl; tauto|].
      destruct (Hd 5%nat) as [d5 E5]; [simpl; tauto|].
      destruct (Hd 6%nat) as [d6 E6]; [simpl; tauto|].
      destruct (Hd 8%nat) as [d8 E8]; [simpl; tauto|].
      destruct (Hd 9%nat) as [d9 E9]; [simpl; tauto|].
      unfold ticker_fields.
      rewrite E0, E1, E2, E3, E4, E5, E6, E7, E8, E9. simpl.
      eexists. reflexivity.
  - intros extra kwargs' Hlen.
    now rewrite !ticker_wrapper_run, ticker_fields_app.
  - intros Hlen Hd.
    now rewrite ticker_wrapper_run, ticker_fields_short.
Qed.

(** ** The decimals of the feed *)

Lemma read_digits_app (a b : string) (acc : N) :
  read_digits acc (a ++ b) = read_digits (read_digits acc a) b.
Proof.
  revert acc. induction a as [|c a IH]; intros acc; [reflexivity|].
  simpl. apply IH.
Qed.

Lemma take_digits_all (a r : string) (acc : N) (n : nat) :
  all_chars is_digit a = true ->
  match r with
  | EmptyString => True
  | String c _ => is_digit c = false
  end ->
  take_digits (a ++ r) acc n = (read_digits acc a, (n + String.length a)%nat, r).
Proof.
  revert acc n. induction a as [|c a IH]; intros acc n Ha Hr.
  - simpl. rewrite Nat.add_0_r. destruct r as [|c r]; [reflexivity|].
    simpl. now rewrite Hr.
  - simpl in Ha. apply andb_prop in Ha as [Hc Ha].
    simpl. rewrite Hc, (IH _ _ Ha Hr). f_equal. f_equal. lia.
Qed.

Lemma digit_not_space (c : ascii) : is_digit c = true -> is_space c = false.
Proof.
  destruct c as [[] [] [] [] [] [] [] []]; try discriminate; reflexivity.
Qed.

Lemma digit_not_underscore (c : ascii) : is_digit c = true -> Ascii.eqb c "_" = false.
Proof.
  destruct c as [[] [] [] [] [] [] [] []]; try discriminate; reflexivity.
Qed.

(** The characters of a plain numeral: the digits and the point. *)
Lemma rstrip_numeral (s : string) :
  all_chars (fun c => is_digit c || Ascii.eqb c ".") s = true -> rstrip s = s.
Proof.
  induction s as [|c s IH]; [reflexivity|].
  simpl. intros H. apply andb_prop in H as [Hc Hs]. rewrite (IH Hs).
  assert (Hsp : is_space c = false).
  { apply orb_prop in Hc as [Hc|Hc]; [now apply digit_not_space|].
    apply Ascii.eqb_eq in Hc. now subst. }
  destruct s; [now rewrite Hsp|reflexivity].
Qed.

Lemma lstrip_numeral (s : string) :
  all_chars (fun c => is_digit c || Ascii.eqb c ".") s = true -> lstrip s = s.
Proof.
  destruct s as [|c s]; [reflexivity|].
  simpl. intros H. apply andb_prop in H as [Hc _].
  apply orb_prop in Hc as [Hc|Hc].
  - now rewrite (digit_not_space c Hc).
  - apply Ascii.eqb_eq in Hc. now subst.
Qed.

Lemma remove_underscore_numeral (s : string) :
  all_chars (fun c => is_digit c || Ascii.eqb c ".") s = true ->
  remove_char "_" s = s.
Proof.
  induction s as [|c s IH]; [reflexivity|].
  simpl. intros H. apply andb_prop in H as [Hc Hs]. rewrite (IH Hs).
  apply orb_prop in Hc as [Hc|Hc].
  - now rewrite (digit_not_underscore c Hc).
  - apply Ascii.eqb_eq in Hc. now subst.
Qed.

Lemma all_chars_app (p : ascii -> bool) (a b : string) :
  all_chars p (a ++ b) = all_chars p a && all_chars p b.
Proof.
  induction a as [|c a IH]; [reflexivity|].
  simpl. now rewrite IH, andb_assoc.
Qed.

Lemma all_chars_weaken (p q : ascii -> bool) (s : string) :
  (forall c, p c = true -> q c = true) ->
  all_chars p s = true -> all_chars q s = true.
Proof.
  intros Hpq. induction s as [|c s IH]; [reflexivity|].
  simpl. intros H. apply andb_prop in H as [Hc Hs].
  now rewrite (Hpq c Hc), (IH Hs).
Qed.

Lemma parse_finite_numeral (a b : string) :
  all_chars is_digit a = true -> all_chars is_digit b = true ->
  a <> "" \/ b <> "" ->
  parse_finite (a ++ "." ++ b) =
  Some (read_digits 0 (a ++ b), - Z.of_nat (String.length b)).
Proof.
  intros Ha Hb Hne. unfold parse_finite.
  rewrite (take_digits_all a ("." ++ b) 0 0 Ha) by reflexivity.
  cbn [append].
  rewrite <- (append_nil_r b) at 1.
  rewrite (take_digits_all b "" _ 0 Hb) by exact I.
  rewrite read_digits_app. cbn [Nat.add parse_exponent].
  destruct (Nat.eqb_spec (String.length a + String.length b) 0) as [E|E].
  - exfalso. destruct a, b; simpl in E; try discriminate.
    destruct Hne as [H|H]; now apply H.
  - reflexivity.
Qed.

Lemma Decimal_of_str_numeral (a b : string) :
  all_chars is_digit a = true -> all_chars is_digit b = true ->
  a <> "" \/ b <> "" ->
  Decimal_of_str (a ++ "." ++ b) =
  Ok (DFinite false (read_digits 0 (a ++ b)) (- Z.of_nat (String.length b))).
Proof.
  intros Ha Hb Hne.
  assert (Hall : all_chars (fun c => is_digit c || Ascii.eqb c ".") (a ++ "." ++ b) = true).
  { rewrite !all_chars_app.
    rewrite (all_chars_weaken is_digit _ a), (all_chars_weaken is_digit _ b);
      try assumption; try (intros c Hc; now rewrite Hc).
    reflexivity. }
  unfold Decimal_of_str, strip.
  rewrite (lstrip_numeral _ Hall), (rstrip_numeral _ Hall),
    (remove_underscore_numeral _ Hall).
  assert (Hsign : (let '(sign, r) :=
                     match (a ++ "." ++ b)%string with
                     | String "-" r => (true, r)
                     | String "+" r => (false, r)
                     | _ => (false, (a ++ "." ++ b)%string)
                     end in (sign, r)) = (false, (a ++ "." ++ b)%string)).
  { destruct a as [|c a]; [reflexivity|].
    simpl in Ha. apply andb_prop in Ha as [Hc _].
    destruct c as [[] [] [] [] [] [] [] []]; try discriminate Hc; reflexivity. }
  destruct (match (a ++ "." ++ b)%string with
            | String "-" r => (true, r)
            | String "+" r => (false, r)
            | _ => (false, (a ++ "." ++ b)%string)
            end) as [sign r].
  injection Hsign as -> ->.
  change (a ++ String "." b)%string with (a ++ "." ++ b)%string.
  now rewrite (parse_finite_numeral a b Ha Hb Hne).
Qed.

(** X15: a plain numeral of the feed is converted exactly.  For a string
    made of digits, a point and digits, with a digit somewhere, the
    conversion that the ticker and the order book wrappers apply returns
    the decimal whose coefficient is the number that the digits spell and
    whose exponent is minus the number of digits after the point: the
    value of the numeral, with no binary rounding. *)
Theorem feed_numeral_exact (a b : string) (args : list json) (i : nat)
    (d : list (string * json)) (k : string) :
  all_chars is_digit a = true ->
  all_chars is_digit b = true ->
  a <> "" \/ b <> "" ->
  let s := (a ++ "." ++ b)%string in
  let x := DFinite false (read_digits 0 (a ++ b)) (- Z.of_nat (String.length b)) in
  (nth_error args i = Some (JStr s) -> Decimal_at args i = Ok x)
  /\ (dict_get k d = Some (JStr s) -> Decimal_get (JDict d) k = Ok x)
  /\ decimal_is x (Z.of_N (read_digits 0 (a ++ b))) (10 ^ Z.of_nat (String.length b)).
Proof.
  intros Ha Hb Hne s x. split; [|split].
  - intros H. unfold Decimal_at, index. rewrite H. cbn [rbind Decimal].
    now apply Decimal_of_str_numeral.
  - intros H. unfold Decimal_get. cbn [py_get rbind]. rewrite H. cbn [Decimal].
    now apply Decimal_of_str_numeral.
  - unfold x, decimal_is.
    destruct (Z.leb_spec 0 (- Z.of_nat (String.length b))) as [H|H].
    + assert (E : Z.of_nat (String.length b) = 0) by lia.
      rewrite E. simpl. lia.
    + now rewrite Z.opp_involutive.
Qed.

(** X15 on the price 0.05 of the sample ticker message. *)
Lemma feed_numeral_exact_witness :
  Decimal_at (sample_ticker (JInt 0)) 1 = Ok (DFinite false 5 (-2))
  /\ decimal_is (DFinite false 5 (-2)) 5 100.
Proof.
  pose proof (feed_numeral_exact "0" "05" (sample_ticker (JInt 0)) 1 [] "rate") as H.
  assert (A1 : all_chars is_digit "0" = true) by reflexivity.
  assert (A2 : all_chars is_digit "05" = true) by reflexivity.
  assert (A3 : "0" <> "" \/ "05" <> "") by (left; discriminate).
  specialize (H A1 A2 A3). cbv zeta in H. destruct H as (H1 & _ & H3).
  specialize (H1 eq_refl). vm_compute in H1, H3 |- *.
  split; [exact H1|exact H3].
Defined.

(** ** The order book wrapper, batch after batch *)

Lemma order_book_loop_app (acc : books) (a b : list json) (w : world) :
  order_book_loop acc (a ++ b) w =
  match order_book_loop acc a w with
  | (Ok acc', w') => order_book_loop acc' b w'
  | (Raised x, w') => (Raised x, w')
  end.
Proof.
  revert acc w. induction a as [|arg a IH]; intros acc w; simpl.
  - reflexivity.
  - unfold bind. destruct (order_book_step acc arg w) as [[acc'|x] w'].
    + apply IH.
    + reflexivity.
Qed.

Lemma normalize_all_app (a b : list json) :
  normalize_all (a ++ b) =
  (ea <-- normalize_all a ;; eb <-- normalize_all b ;; Ok (ea ++ eb)).
Proof.
  induction a as [|arg a IH]; simpl.
  - now destruct (normalize_all b).
  - destruct (normalize_entry arg) as [e|]; [|reflexivity]. simpl.
    rewrite IH. destruct (normalize_all a) as [ea|]; [|reflexivity]. simpl.
    now destruct (normalize_all b).
Qed.

Lemma modifications_of_app (es1 es2 : list entry) :
  modifications_of (es1 ++ es2) = modifications_of es1 ++ modifications_of es2.
Proof.
  induction es1 as [|[m|r|t] es1 IH]; simpl; [reflexivity| |assumption|assumption].
  now rewrite IH.
Qed.

Lemma removals_of_app (es1 es2 : list entry) :
  removals_of (es1 ++ es2) = removals_of es1 ++ removals_of es2.
Proof.
  induction es1 as [|[m|r|t] es1 IH]; simpl; [reflexivity|assumption| |assumption].
  now rewrite IH.
Qed.

Lemma trades_of_app (es1 es2 : list entry) :
  trades_of (es1 ++ es2) = trades_of es1 ++ trades_of es2.
Proof.
  induction es1 as [|[m|r|t] es1 IH]; simpl; [reflexivity|assumption|assumption|].
  now rewrite IH.
Qed.

(** What the wrapper does with a batch, by what its entries normalize
    to. *)
Lemma order_book_wrapper_ok (args : list json) (kwargs : dict json) (w : world)
    (es : list entry) :
  normalize_all args = Ok es ->
  order_book_wrapper args kwargs w =
  (Ok tt,
   log (map Pprinted (trades_of es)
        ++ [OrderBookCallback (modifications_of es) (removals_of es)
              (trades_of es) kwargs]) w).
Proof.
  intros H. unfold order_book_wrapper, bind.
  rewrite (order_book_loop_ok args es _ w H), add_entry_fold, printed_flat_map.
  simpl. unfold emit. now rewrite <- log_log.
Qed.

Lemma order_book_wrapper_returns (args : list json) (kwargs : dict json) (w w' : world) :
  order_book_wrapper args kwargs w = (Ok tt, w') ->
  exists es, normalize_all args = Ok es.
Proof.
  intros H. destruct (normalize_all args) as [es|x] eqn:E; [now exists es|].
  destruct (order_book_loop_raised args x ([], [], []) w E) as [ts Hts].
  unfold order_book_wrapper, bind in H. rewrite Hts in H. discriminate.
Qed.

(** X11: one message that carries two batches delivers what the two
    messages deliver.  When the wrapper returns on a batch [a] and then
    on a batch [b], calling the callback with the lists [(ma, ra, ta)]
    and [(mb, rb, tb)], it returns on the batch [a ++ b] and calls the
    callback once with [(ma ++ mb, ra ++ rb, ta ++ tb)], after printing
    the trades of both in order.  A message with no entry gives one call
    with three empty lists. *)
Theorem order_book_wrapper_concat (a b : list json) (kwargs : dict json)
    (w wa wb : world) :
  order_book_wrapper a kwargs w = (Ok tt, wa) ->
  order_book_wrapper b kwargs wa = (Ok tt, wb) ->
  order_book_wrapper [] kwargs w = (Ok tt, log [OrderBookCallback [] [] [] kwargs] w)
  /\ exists ma ra ta mb rb tb,
       wa = log (map Pprinted ta ++ [OrderBookCallback ma ra ta kwargs]) w
       /\ wb = log (map Pprinted tb ++ [OrderBookCallback mb rb tb kwargs]) wa
       /\ order_book_wrapper (a ++ b) kwargs w =
          (Ok tt,
           log (map Pprinted (ta ++ tb)
                ++ [OrderBookCallback (ma ++ mb) (ra ++ rb) (ta ++ tb) kwargs]) w).
Proof.
  intros Ha Hb. split; [reflexivity|].
  destruct (order_book_wrapper_returns _ _ _ _ Ha) as [ea Ea].
  destruct (order_book_wrapper_returns _ _ _ _ Hb) as [eb Eb].
  rewrite (order_book_wrapper_ok a kwargs w ea Ea) in Ha.
  rewrite (order_book_wrapper_ok b kwargs wa eb Eb) in Hb.
  injection Ha as <-. injection Hb as <-.
  exists (modifications_of ea), (removals_of ea), (trades_of ea),
         (modifications_of eb), (removals_of eb), (trades_of eb).
  split; [reflexivity|]. split; [reflexivity|].
  rewrite (order_book_wrapper_ok (a ++ b) kwargs w (ea ++ eb)).
  - now rewrite modifications_of_app, removals_of_app, trades_of_app.
  - rewrite normalize_all_app, Ea, Eb. reflexivity.
Qed.

(** X11 on the sample batch, cut after its second entry. *)
Lemma order_book_wrapper_concat_witness :
  exists ma ra ta mb rb tb,
    order_book_wrapper ([sample_modify; sample_remove] ++ [sample_trade])
      [("seq", JInt 7)] (sample_world slow_clock) =
    (Ok tt,
     log (map Pprinted (ta ++ tb)
          ++ [OrderBookCallback (ma ++ mb) (ra ++ rb) (ta ++ tb) [("seq", JInt 7)]])
       (sample_world slow_clock)).
Proof.
  destruct (order_book_wrapper_concat [sample_modify; sample_remove] [sample_trade]
              [("seq", JInt 7)] (sample_world slow_clock) _ _ eq_refl eq_refl)
    as (_ & ma & ra & ta & mb & rb & tb & _ & _ & Hab).
  exists ma, ra, ta, mb, rb, tb. exact Hab.
Defined.

(** X12: the entries after the first one that fails are never looked at.
    When the wrapper raises on a batch, it raises the same exception in
    the same world on every batch that starts with it: nothing of what
    follows is parsed or printed, and the callback is not called. *)
Theorem order_book_wrapper_stops_at_failure (a b : list json) (kwargs : dict json)
    (w : world) (x : exn) :
  fst (order_book_wrapper a kwargs w) = Raised x ->
  order_book_wrapper (a ++ b) kwargs w = order_book_wrapper a kwargs w
  /\ exists ts, order_book_wrapper (a ++ b) kwargs w = (Raised x, log (map Pprinted ts) w).
Proof.
  intros H.
  destruct (normalize_all a) as [es|y] eqn:E.
  - rewrite (order_book_wrapper_ok a kwargs w es E) in H. discriminate.
  - destruct (order_book_loop_raised a y ([], [], []) w E) as [ts Hts].
    assert (Ha : order_book_wrapper a kwargs w = (Raised y, log (map Pprinted ts) w)).
    { unfold order_book_wrapper, bind. now rewrite Hts. }
    rewrite Ha in H. simpl in H. injection H as ->.
    assert (Hab : order_book_wrapper (a ++ b) kwargs w =
                  (Raised x, log (map Pprinted ts) w)).
    { unfold order_book_wrapper, bind. now rewrite order_book_loop_app, Hts. }
    split; [now rewrite Hab, Ha|]. now exists ts.
Qed.

(** X12 on the batch with the malformed rate, followed by the sample
    batch. *)
Lemma order_book_wrapper_stops_at_failure_witness :
  order_book_wrapper (bad_batch ++ sample_batch) [] (sample_world slow_clock) =
  order_book_wrapper bad_batch [] (sample_world slow_clock).
Proof.
  exact (proj1 (order_book_wrapper_stops_at_failure bad_batch sample_batch []
                  (sample_world slow_clock) InvalidOperation eq_refl)).
Defined.

Lemma order_book_wrapper_raises_at (pre post : list json) (arg : json)
    (kwargs : dict json) (w : world) (es : list entry) (x : exn) :
  normalize_all pre = Ok es ->
  normalize_entry arg = Raised x ->
  order_book_wrapper (pre ++ arg :: post) kwargs w =
  (Raised x, log (map Pprinted (trades_of es)) w).
Proof.
  intros Hpre Hx. unfold order_book_wrapper, bind.
  rewrite order_book_loop_app, (order_book_loop_ok pre es _ w Hpre).
  simpl. unfold bind. rewrite order_book_step_run, Hx.
  now rewrite printed_flat_map.
Qed.

Lemma wrong_shape_raises (arg : json) :
  wrong_shape arg = true -> normalize_entry arg = Raised AttributeError.
Proof.
  intros H. destruct arg as [ | | | | | |d]; try reflexivity.
  unfold wrong_shape in H. unfold normalize_entry, Decimal_get.
  cbn [py_get rbind] in *.
  destruct (eq_str _ "orderBookModify");
    [|destruct (eq_str _ "orderBookRemove")];
    destruct (match dict_get "data" d with Some x => x | None => JNull end);
    try discriminate H; reflexivity.
Qed.

(** X13: an entry that is not a dictionary, or whose ["data"] is absent
    or not a dictionary, makes the wrapper raise [AttributeError],
    whatever its tag and whatever follows it in the batch; when the
    entries before it normalize, only their trades have been printed, and
    the callback is not called. *)
Theorem order_book_wrapper_wrong_shape (pre post : list json) (arg : json)
    (kwargs : dict json) (w : world) (es : list entry) :
  normalize_all pre = Ok es ->
  wrong_shape arg = true ->
  order_book_wrapper (pre ++ arg :: post) kwargs w =
  (Raised AttributeError, log (map Pprinted (trades_of es)) w).
Proof.
  intros Hpre Hs. apply order_book_wrapper_raises_at; [exact Hpre|].
  now apply wrong_shape_raises.
Qed.

(** X13 on a batch whose second entry is a string. *)
Lemma order_book_wrapper_wrong_shape_witness :
  order_book_wrapper ([sample_trade] ++ JStr "heartbeat" :: [sample_modify])
    [] (sample_world slow_clock) =
  (Raised AttributeError,
   log [Pprinted (mk_trade (JStr "77") (DFinite false 5 (-2)) (DFinite false 15 (-1))
                    (DFinite false 75 (-3)) (mk_datetime 2020 1 1 0 0 0) JNull)]
     (sample_world slow_clock)).
Proof.
  exact (order_book_wrapper_wrong_shape [sample_trade] [sample_modify]
           (JStr "heartbeat") [] (sample_world slow_clock) _ eq_refl eq_refl).
Defined.

Lemma field_converts_decimal (name : string) (v : json) :
  name <> "date" -> field_converts name v = true -> exists x, Decimal v = Ok x.
Proof.
  unfold field_converts. intros Hn.
  destruct (String.eqb_spec name "date"); [contradiction|].
  destruct (Decimal v) as [x|]; [now exists x|discriminate].
Qed.

Lemma field_converts_date (v : json) :
  field_converts "date" v = true -> exists t, strptime v = Ok t.
Proof.
  unfold field_converts. simpl.
  destruct (strptime v) as [t|]; [now exists t|discriminate].
Qed.

(** X14: an entry that lacks a field its kind converts raises
    [TypeError] (the conversion of [None]) when the fields it has do
    convert, and the callback is not called: a modification needs
    [amount] and [rate], a removal [rate], and every other entry, taken
    for a trade, [rate], [amount], [total] and [date]. *)
Theorem order_book_missing_field (arg : json) (d : list (string * json)) (tag : json) :
  py_get arg "data" = Ok (JDict d) ->
  py_get arg "type" = Ok tag ->
  (exists name, In name (parsed_fields (kind_of_tag tag)) /\ dict_get name d = None) ->
  (forall name v,
      In name (parsed_fields (kind_of_tag tag)) ->
      dict_get name d = Some v -> field_converts name v = true) ->
  normalize_entry arg = Raised TypeError
  /\ forall pre post kwargs w es,
       normalize_all pre = Ok es ->
       order_book_wrapper (pre ++ arg :: post) kwargs w =
       (Raised TypeError, log (map Pprinted (trades_of es)) w).
Proof.
  intros Hd Ht (name & Hin & Hnone) Hok.
  assert (H : normalize_entry arg = Raised TypeError).
  { unfold normalize_entry, Decimal_get. rewrite Hd, Ht. cbn [rbind py_get].
    unfold kind_of_tag in Hin, Hok.
    assert (Hdec : forall f,
               In f (parsed_fields
                       (if eq_str tag "orderBookModify" then KModify
                        else if eq_str tag "orderBookRemove" then KRemove else KTrade)) ->
               f <> "date" ->
               (dict_get f d = None /\
                Decimal (match dict_get f d with Some x => x | None => JNull end)
                = Raised TypeError)
               \/ (dict_get f d <> None /\
                   exists x, Decimal (match dict_get f d with Some x => x | None => JNull end)
                             = Ok x)).
    { intros f Hf Hne. destruct (dict_get f d) as [v|] eqn:E.
      - right. split; [discriminate|].
        apply (field_converts_decimal f v Hne). now apply Hok.
      - left. now split. }
    destruct (eq_str tag "orderBookModify");
      [|destruct (eq_str tag "orderBookRemove")]; cbn [parsed_fields] in *.
    - destruct (Hdec "amount") as [[_ ->]|[Ha [x ->]]];
        [simpl; tauto|discriminate|reflexivity|]. cbn [rbind].
      destruct (Hdec "rate") as [[_ ->]|[Hr [y ->]]];
        [simpl; tauto|discriminate|reflexivity|]. exfalso.
      simpl in Hin. destruct Hin as [<-|[<-|[]]]; contradiction.
    - destruct (Hdec "rate") as [[_ ->]|[Hr [y ->]]];
        [simpl; tauto|discriminate|reflexivity|]. exfalso.
      simpl in Hin. destruct Hin as [<-|[]]; contradiction.
    - destruct (Hdec "rate") as [[_ ->]|[Hr [x ->]]];
        [simpl; tauto|discriminate|reflexivity|]. cbn [rbind].
      destruct (Hdec "amount") as [[_ ->]|[Ha [y ->]]];
        [simpl; tauto|discriminate|reflexivity|]. cbn [rbind].
      destruct (Hdec "total") as [[_ ->]|[Ht' [z ->]]];
        [simpl; tauto|discriminate|reflexivity|]. cbn [rbind].
      destruct (dict_get "date" d) as [v|] eqn:Edate; [|reflexivity].
      exfalso. simpl in Hin.
      destruct Hin as [<-|[<-|[<-|[<-|[]]]]]; congruence. }
  split; [exact H|].
  intros pre post kwargs w es Hpre.
  now apply order_book_wrapper_raises_at.
Qed.

(** X14 on a removal without a rate. *)
Lemma order_book_missing_field_witness :
  normalize_entry (JDict [("type", JStr "orderBookRemove"); ("data", JDict [])]) =
  Raised TypeError.
Proof.
  refine (proj1 (order_book_missing_field
                   (JDict [("type", JStr "orderBookRemove"); ("data", JDict [])])
                   [] (JStr "orderBookRemove") eq_refl eq_refl _ _)).
  - exists "rate". split; [simpl; tauto|reflexivity].
  - intros name v _ H. discriminate H.
Defined.

(** ** The dates of the trades *)

Lemma results_alt {A} (P : A -> Prop) (p q : parser A) :
  results_in P p -> results_in P q -> results_in P (alt p q).
Proof.
  intros Hp Hq s a r H. unfold alt in H. apply in_app_or in H as [H|H].
  - exact (Hp s a r H).
  - exact (Hq s a r H).
Qed.

Lemma results_seq {A B} (P : A -> Prop) (Q : B -> Prop) (p : parser A)
    (k : A -> parser B) :
  results_in P p -> (forall a, P a -> results_in Q (k a)) -> results_in Q (seq p k).
Proof.
  intros Hp Hk s b r H. unfold seq in H. apply in_flat_map in H as ([a r'] & Hin & H).
  exact (Hk a (Hp s a r' Hin) r' b r H).
Qed.

Lemma results_pure {A} (P : A -> Prop) (a : A) : P a -> results_in P (pure a).
Proof.
  intros Ha s b r H. destruct H as [H|[]]. now injection H as <- _.
Qed.

Lemma results_weaken {A} (P Q : A -> Prop) (p : parser A) :
  (forall a, P a -> Q a) -> results_in P p -> results_in Q p.
Proof. intros HPQ Hp s a r H. apply HPQ. exact (Hp s a r H). Qed.

Lemma results_digit_in (lo hi : Z) :
  results_in (fun v => lo <= v <= hi) (digit_in lo hi).
Proof.
  intros s a r H. unfold digit_in, char_if in H.
  destruct s as [|c s]; [contradiction|].
  destruct (is_digit c) eqn:Hd; simpl in H; [|contradiction].
  destruct (Z.leb_spec lo (digit_val c)); simpl in H; [|contradiction].
  destruct (Z.leb_spec (digit_val c) hi); simpl in H; [|contradiction].
  destruct H as [H|[]]. injection H as <- _. lia.
Qed.

Lemma results_any {A} (p : parser A) : results_in (fun _ => True) p.
Proof. intros s a r _. exact I. Qed.

Lemma results_two (a b c d : Z) :
  results_in (fun v => 10 * a + c <= v <= 10 * b + d) (two a b c d).
Proof.
  unfold two.
  apply (results_seq (fun v => a <= v <= b)); [apply results_digit_in|].
  intros x Hx.
  apply (results_seq (fun v => c <= v <= d)); [apply results_digit_in|].
  intros y Hy. apply results_pure. lia.
Qed.

(** Solves a goal on the matches of a parser from the ranges of a
    parser with narrower ones. *)
Ltac narrow lem :=
  eapply results_weaken; [|apply lem]; cbv beta; intros ? ?; lia.

Lemma results_re_Y : results_in (fun v => 0 <= v <= 9999) re_Y.
Proof.
  unfold re_Y.
  eapply results_seq; [apply (results_two 0 9 0 9)|]. intros hi Hhi.
  eapply results_seq; [apply (results_two 0 9 0 9)|]. intros lo Hlo.
  apply results_pure. cbv beta in *. lia.
Qed.

Lemma results_re_m : results_in (fun v => 1 <= v <= 12) re_m.
Proof.
  unfold re_m. repeat apply results_alt.
  - narrow (results_two 1 1 0 2).
  - narrow (results_two 0 0 1 9).
  - narrow (results_digit_in 1 9).
Qed.

Lemma results_re_d : results_in (fun v => 1 <= v <= 31) re_d.
Proof.
  unfold re_d. repeat apply results_alt.
  - narrow (results_two 3 3 0 1).
  - narrow (results_two 1 2 0 9).
  - narrow (results_two 0 0 1 9).
  - narrow (results_digit_in 1 9).
  - apply (results_seq (fun _ => True)); [apply results_any|].
    intros _ _.
    narrow (results_digit_in 1 9).
Qed.

Lemma results_re_H : results_in (fun v => 0 <= v <= 23) re_H.
Proof.
  unfold re_H. repeat apply results_alt.
  - narrow (results_two 2 2 0 3).
  - narrow (results_two 0 1 0 9).
  - narrow (results_digit_in 0 9).
Qed.

Lemma results_re_M : results_in (fun v => 0 <= v <= 59) re_M.
Proof.
  unfold re_M. repeat apply results_alt.
  - narrow (results_two 0 5 0 9).
  - narrow (results_digit_in 0 9).
Qed.

Lemma results_re_S : results_in (fun v => 0 <= v <= 61) re_S.
Proof.
  unfold re_S. repeat apply results_alt.
  - narrow (results_two 6 6 0 1).
  - narrow (results_two 0 5 0 9).
  - narrow (results_digit_in 0 9).
Qed.

Lemma results_re_format :
  results_in (fun t => 0 <= year t <= 9999 /\ 1 <= month t <= 12
                       /\ 1 <= day t <= 31 /\ 0 <= hour t <= 23
                       /\ 0 <= minute t <= 59 /\ 0 <= second t <= 61) re_format.
Proof.
  unfold re_format.
  eapply results_seq; [apply results_re_Y|]. intros y Hy.
  eapply results_seq; [apply results_any|]. intros _ _.
  eapply results_seq; [apply results_re_m|]. intros mo Hmo.
  eapply results_seq; [apply results_any|]. intros _ _.
  eapply results_seq; [apply results_re_d|]. intros d Hd.
  eapply results_seq; [apply (results_any re_spaces)|]. intros _ _.
  eapply results_seq; [apply results_re_H|]. intros h Hh.
  eapply results_seq; [apply results_any|]. intros _ _.
  eapply results_seq; [apply results_re_M|]. intros mi Hmi.
  eapply results_seq; [apply results_any|]. intros _ _.
  eapply results_seq; [apply results_re_S|]. intros sec Hsec.
  apply results_pure. cbv beta in *. simpl. repeat split; lia.
Qed.

Lemma strptime_in_range (v : json) (t : datetime) :
  strptime v = Ok t -> date_in_range t = true.
Proof.
  destruct v; try discriminate. simpl. unfold strptime_str.
  destruct (re_format s) as [|[t' [|]] rest] eqn:E; try discriminate.
  destruct (valid_datetime t') eqn:V; [|discriminate].
  intros H. injection H as <-.
  assert (Hin : In (t', "") (re_format s)) by (rewrite E; now left).
  apply results_re_format in Hin.
  destruct Hin as (Hy & Hm & Hd & Hh & Hmi & Hs).
  unfold valid_datetime in V. unfold date_in_range.
  apply andb_prop in V as [V V3]. apply andb_prop in V as [V1 V2].
  rewrite V1, V2, V3.
  repeat match goal with
         | |- context [?a <=? ?b] =>
             destruct (Z.leb_spec a b); [|lia]
         end.
  reflexivity.
Qed.

Lemma normalize_entry_date (arg : json) (t : trade) :
  normalize_entry arg = Ok (TradePrint t) -> date_in_range (trade_date t) = true.
Proof.
  unfold normalize_entry, rbind.
  destruct (py_get arg "data") as [data|]; [|discriminate].
  destruct (py_get arg "type") as [tag|]; [|discriminate].
  destruct (eq_str tag "orderBookModify").
  { destruct (Decimal_get data "amount"); [|discriminate].
    destruct (Decimal_get data "rate"); [|discriminate].
    destruct (py_get data "type"); discriminate. }
  destruct (eq_str tag "orderBookRemove").
  { destruct (Decimal_get data "rate"); [|discriminate].
    destruct (py_get data "type"); discriminate. }
  destruct (py_get data "tradeID"); [|discriminate].
  destruct (Decimal_get data "rate"); [|discriminate].
  destruct (Decimal_get data "amount"); [|discriminate].
  destruct (Decimal_get data "total"); [|discriminate].
  destruct (py_get data "date") as [d|]; [|discriminate].
  destruct (strptime d) as [dt|] eqn:E; [|discriminate].
  destruct (py_get data "type"); [|discriminate].
  intros H. injection H as <-. simpl. now apply (strptime_in_range d).
Qed.

Lemma normalize_all_dates (args : list json) (es : list entry) :
  normalize_all args = Ok es ->
  Forall (fun t => date_in_range (trade_date t) = true) (trades_of es).
Proof.
  revert es. induction args as [|arg args IH]; intros es H; simpl in H.
  - injection H as <-. constructor.
  - destruct (normalize_entry arg) as [e|] eqn:E; [|discriminate]. simpl in H.
    destruct (normalize_all args) as [es'|]; [|discriminate]. simpl in H.
    injection H as <-. specialize (IH es' eq_refl).
    destruct e as [m|r|t]; simpl; try assumption.
    constructor; [now apply (normalize_entry_date arg)|assumption].
Qed.

(** X16: every trade that the order book wrapper hands to the callback,
    and every trade that it prints, carries a date and time of the
    calendar: the year from 1 to 9999, the month from 1 to 12, the day
    from 1 to the length of that month in that year, the hour below 24,
    the minute and the second below 60. *)
Theorem order_book_trade_dates (args : list json) (kwargs : dict json) (w w' : world) :
  order_book_wrapper args kwargs w = (Ok tt, w') ->
  exists modifications removals trades,
    w' = log (map Pprinted trades
              ++ [OrderBookCallback modifications removals trades kwargs]) w
    /\ Forall (fun t => date_in_range (trade_date t) = true) trades.
Proof.
  intros H.
  destruct (order_book_wrapper_returns _ _ _ _ H) as [es E].
  rewrite (order_book_wrapper_ok args kwargs w es E) in H. injection H as <-.
  exists (modifications_of es), (removals_of es), (trades_of es).
  split; [reflexivity|]. now apply (normalize_all_dates args).
Qed.

(** X16 on the sample batch, whose trade is dated 2020-01-01 00:00:00. *)
Lemma order_book_trade_dates_witness :
  exists modifications removals trades,
    snd (order_book_wrapper sample_batch [] (sample_world slow_clock)) =
    log (map Pprinted trades ++ [OrderBookCallback modifications removals trades []])
      (sample_world slow_clock)
    /\ Forall (fun t => date_in_range (trade_date t) = true) trades.
Proof.
  exact (order_book_trade_dates sample_batch [] (sample_world slow_clock) _ eq_refl).
Defined.
